(** * Inventory tracker: stock ledger, statistics, CSV import/export

    A shallow embedding of the inventory application's pure core:

    - [types.ts]            -> [TransactionType], [Product.t], [Transaction.t],
                               [InventoryStats]
    - [App.tsx]             -> [stats], [processStockTransaction], [saveProduct]
    - [components/Reports]  -> [Reports.stockSummary]
    - [services/geminiService]   -> [getInventoryInsights] (the request it builds)
    - [services/supabaseService] -> [fetchTransactions]
    - [services/csvService] -> [exportToCSV], [parseCSV]

    Conventions of the embedding.

    - In the ledger model quantities, thresholds, amounts and timestamps
      are JavaScript numbers that hold integers; they are modelled by [Z]
      (exact integer arithmetic, i.e. the behaviour of doubles below 2^53).
    - Prices are stored as [number]: [NaN], the two infinities and finite
      decimals [m * 10^e] kept in the normal form of their shortest decimal
      digits, which is how they are printed and read.
    - Arithmetic on prices and values is the arithmetic of IEEE 754
      doubles, [double]: every operation rounds its exact result to the
      nearest double, ties to even.  The sign of zero, which no operation
      used here can observe, is not represented.
    - The module [Numeric] holds the same handlers with every number a
      [double], so that amounts and quantities that are not integers (NaN,
      fractions, infinities) can be supplied.
    - Strings are sequences of code units below 256.
    - [Date.now()], [Math.random()], [crypto.randomUUID()] and the outcome of
      the remote writes are inputs of the functions that use them. *)

From Stdlib Require Import ZArith List String Ascii Bool Lia.
From Stdlib Require Import Sorted Permutation.
Import ListNotations.

Local Open Scope string_scope.
Local Open Scope list_scope.
Local Open Scope Z_scope.

(** ** JavaScript numbers that hold decimals *)

Inductive number : Type :=
| NaN
| Infinity (negative : bool)
| Finite (m e : Z).

(** Strips the trailing decimal zeros of a non-zero mantissa. *)
Fixpoint strip_zeros (fuel : nat) (m e : Z) : Z * Z :=
  match fuel with
  | O => (m, e)
  | S fuel' =>
      if (m mod 10 =? 0) then strip_zeros fuel' (m / 10) (e + 1) else (m, e)
  end.

Definition normalize (m e : Z) : number :=
  if m =? 0 then Finite 0 0
  else let (m', e') := strip_zeros (S (Z.to_nat (Z.log2 (Z.abs m)))) m e in
       Finite m' e'.

Definition ofZ (z : Z) : number := normalize z 0.

(** ** IEEE 754 doubles *)

(** A double: [dFinite m e] is [m * 2^e], kept with [m] odd (zero is
    [dFinite 0 0]). *)
Inductive double : Type :=
| dNaN
| dInfinity (negative : bool)
| dFinite (m e : Z).

(** Strips the factors 2 of a non-zero mantissa. *)
Fixpoint strip_twos (fuel : nat) (m e : Z) : Z * Z :=
  match fuel with
  | O => (m, e)
  | S fuel' =>
      if (m mod 2 =? 0) then strip_twos fuel' (m / 2) (e + 1) else (m, e)
  end.

Definition canonical (m e : Z) : double :=
  if m =? 0 then dFinite 0 0
  else let (m', e') := strip_twos (S (Z.to_nat (Z.log2 (Z.abs m)))) m e in
       dFinite m' e'.

(** The double nearest to [n / d] (for [0 <= n] and [0 < d]), ties to
    even, with the sign given: 53 bits of mantissa, exponents down to
    -1074 (subnormals), infinity from 2^1024 on. *)
Definition roundRatio (negative : bool) (n d : Z) : double :=
  if n =? 0 then dFinite 0 0
  else
    let b := Z.log2 n - Z.log2 d in
    let L := if (if 0 <=? b then d * 2 ^ b <=? n else d <=? n * 2 ^ (- b))
             then b else b - 1 in
    let E := Z.max (L - 52) (-1074) in
    let N := if E <? 0 then n * 2 ^ (- E) else n in
    let D := if E <? 0 then d else d * 2 ^ E in
    let q := N / D in
    let r := N mod D in
    let M := if (D <? 2 * r) || ((2 * r =? D) && Z.odd q) then q + 1 else q in
    if M =? 0 then dFinite 0 0
    else if 1024 <=? Z.log2 M + E then dInfinity negative
    else canonical (if negative then - M else M) E.

(** The double nearest to [m * 2^e]. *)
Definition ofDyadic (m e : Z) : double :=
  if e <? 0 then roundRatio (m <? 0) (Z.abs m) (2 ^ (- e))
  else roundRatio (m <? 0) (Z.abs m * 2 ^ e) 1.

(** The double nearest to an integer. *)
Definition ofInt (z : Z) : double := ofDyadic z 0.

(** The double that a stored number is: the one nearest to its decimal. *)
Definition toDouble (x : number) : double :=
  match x with
  | NaN => dNaN
  | Infinity s => dInfinity s
  | Finite m e =>
      if e <? 0 then roundRatio (m <? 0) (Z.abs m) (10 ^ (- e))
      else roundRatio (m <? 0) (Z.abs m * 10 ^ e) 1
  end.

(** [x + y] *)
Definition dadd (x y : double) : double :=
  match x, y with
  | dNaN, _ | _, dNaN => dNaN
  | dInfinity s, dInfinity s' => if Bool.eqb s s' then dInfinity s else dNaN
  | dInfinity s, dFinite _ _ | dFinite _ _, dInfinity s => dInfinity s
  | dFinite m1 e1, dFinite m2 e2 =>
      let e := Z.min e1 e2 in
      ofDyadic (m1 * 2 ^ (e1 - e) + m2 * 2 ^ (e2 - e)) e
  end.

(** [- x] *)
Definition dopp (x : double) : double :=
  match x with
  | dNaN => dNaN
  | dInfinity s => dInfinity (negb s)
  | dFinite m e => dFinite (- m) e
  end.

(** [x - y] *)
Definition dsub (x y : double) : double := dadd x (dopp y).

(** [x * y] *)
Definition dmul (x y : double) : double :=
  match x, y with
  | dNaN, _ | _, dNaN => dNaN
  | dInfinity s, dInfinity s' => dInfinity (xorb s s')
  | dInfinity s, dFinite m _ | dFinite m _, dInfinity s =>
      if m =? 0 then dNaN else dInfinity (xorb s (m <? 0))
  | dFinite m1 e1, dFinite m2 e2 => ofDyadic (m1 * m2) (e1 + e2)
  end.

(** [Math.max(0, x)] *)
Definition mathMax0 (x : double) : double :=
  match x with
  | dNaN => dNaN
  | dInfinity s => if s then dFinite 0 0 else x
  | dFinite m _ => if m <? 0 then dFinite 0 0 else x
  end.

(** [x || d] on doubles: [NaN] and zero are falsy. *)
Definition double_or (x d : double) : double :=
  match x with
  | dNaN => d
  | dInfinity _ => x
  | dFinite m _ => if m =? 0 then d else x
  end.

(** Truthiness of a number: [NaN] and zero are falsy. *)
Definition truthy (x : number) : bool :=
  match x with
  | NaN => false
  | Infinity _ => true
  | Finite m _ => negb (m =? 0)
  end.

(** [x || d] on numbers. *)
Definition number_or (x d : number) : number := if truthy x then x else d.

(** [x || d] on strings: the empty string is falsy. *)
Definition string_or (x d : string) : string :=
  match x with EmptyString => d | _ => x end.

(** ** JavaScript strings *)

(** The double-quote character (code 34). *)
Definition quote : ascii := Ascii false true false false false true false false.
Definition comma : ascii := ","%char.
Definition newline : ascii := "010"%char.

(** White space removed by [trim] and skipped by [parseInt]/[parseFloat]:
    TAB, LF, VT, FF, CR, SP and NBSP. *)
Definition isWhiteSpace (c : ascii) : bool :=
  let n := N_of_ascii c in
  ((9 <=? n) && (n <=? 13) || (n =? 32) || (n =? 160))%N.

(** [s.split(sep)] for a one-character separator. *)
Fixpoint split (sep : ascii) (s : string) : list string :=
  match s with
  | EmptyString => [EmptyString]
  | String c r =>
      if Ascii.eqb c sep then EmptyString :: split sep r
      else match split sep r with
           | h :: t => String c h :: t
           | [] => [String c EmptyString]
           end
  end.

(** Whether the character occurs in the string. *)
Fixpoint hasChar (c : ascii) (s : string) : bool :=
  match s with
  | EmptyString => false
  | String x r => Ascii.eqb x c || hasChar c r
  end.

(** [l.join(sep)] *)
Fixpoint join (sep : string) (l : list string) : string :=
  match l with
  | [] => EmptyString
  | [x] => x
  | x :: r => (x ++ sep ++ join sep r)%string
  end.

Fixpoint trimStart (s : string) : string :=
  match s with
  | String c r => if isWhiteSpace c then trimStart r else s
  | EmptyString => EmptyString
  end.

Fixpoint trimEnd (s : string) : string :=
  match s with
  | EmptyString => EmptyString
  | String c r =>
      match trimEnd r with
      | EmptyString => if isWhiteSpace c then EmptyString
                       else String c EmptyString
      | r' => String c r'
      end
  end.

(** [s.trim()] *)
Definition trim (s : string) : string := trimEnd (trimStart s).

Fixpoint stripTrailingQuote (s : string) : string :=
  match s with
  | EmptyString => EmptyString
  | String c EmptyString => if Ascii.eqb c quote then EmptyString else s
  | String c r => String c (stripTrailingQuote r)
  end.

(** [s.replace(/^Q|Q$/g, '')] with Q the double quote: one quote off the
    front, and one off the end of what is left. *)
Definition stripQuotes (s : string) : string :=
  match s with
  | String c r => if Ascii.eqb c quote then stripTrailingQuote r
                  else stripTrailingQuote s
  | EmptyString => EmptyString
  end.

(** [s.replace(/QQ/g, 'Q')] with Q the double quote. *)
Fixpoint undoubleQuotes (s : string) : string :=
  match s with
  | String c1 (String c2 r as r1) =>
      if Ascii.eqb c1 quote && Ascii.eqb c2 quote
      then String quote (undoubleQuotes r)
      else String c1 (undoubleQuotes r1)
  | _ => s
  end.

(** [s.replace(/Q/g, 'QQ')] with Q the double quote. *)
Fixpoint doubleQuotes (s : string) : string :=
  match s with
  | EmptyString => EmptyString
  | String c r =>
      if Ascii.eqb c quote then String quote (String quote (doubleQuotes r))
      else String c (doubleQuotes r)
  end.

(** ** Number to string and string to number *)

Definition isDigit (c : ascii) : bool :=
  let n := N_of_ascii c in ((48 <=? n) && (n <=? 57))%N.

Definition digitValue (c : ascii) : Z := Z.of_N (N_of_ascii c) - 48.

(** Value of a hexadecimal digit, if [c] is one. *)
Definition hexValue (c : ascii) : option Z :=
  let n := Z.of_N (N_of_ascii c) in
  if (48 <=? n) && (n <=? 57) then Some (n - 48)
  else if (65 <=? n) && (n <=? 70) then Some (n - 55)
  else if (97 <=? n) && (n <=? 102) then Some (n - 87)
  else None.

Definition digitChar (d : Z) : ascii := ascii_of_N (Z.to_N (48 + d)).

(** Decimal digits of a positive integer, most significant first. *)
Fixpoint digitsAux (fuel : nat) (n : Z) (acc : string) : string :=
  match fuel with
  | O => acc
  | S fuel' =>
      let acc' := String (digitChar (n mod 10)) acc in
      if n <? 10 then acc' else digitsAux fuel' (n / 10) acc'
  end.

Definition digits (n : Z) : string :=
  digitsAux (S (Z.to_nat (Z.log2 n))) n EmptyString.

Fixpoint zeros (n : nat) : string :=
  match n with
  | O => EmptyString
  | S n' => String "0"%char (zeros n')
  end.

Fixpoint takeS (n : nat) (s : string) : string :=
  match n, s with
  | S n', String c r => String c (takeS n' r)
  | _, _ => EmptyString
  end.

Fixpoint dropS (n : nat) (s : string) : string :=
  match n, s with
  | S n', String _ r => dropS n' r
  | _, _ => s
  end.

(** The digits [s] of a positive number [s * 10^e], laid out as
    Number::toString does (k digits, decimal point after the n-th). *)
Definition layoutDigits (s : string) (e : Z) : string :=
  let k := Z.of_nat (String.length s) in
  let n := k + e in
  if (k <=? n) && (n <=? 21) then (s ++ zeros (Z.to_nat (n - k)))%string
  else if (0 <? n) && (n <=? 21) then
    (takeS (Z.to_nat n) s ++ "." ++ dropS (Z.to_nat n) s)%string
  else if (-6 <? n) && (n <=? 0) then
    ("0." ++ zeros (Z.to_nat (- n)) ++ s)%string
  else
    let ex := n - 1 in
    let exs := ((if (ex <? 0)%Z then "-" else "+") ++ digits (Z.abs ex))%string in
    if k =? 1 then (s ++ "e" ++ exs)%string
    else (takeS 1 s ++ "." ++ dropS 1 s ++ "e" ++ exs)%string.

(** ToString of a number, as template literals and [join] apply it. *)
Definition numberToString (x : number) : string :=
  match x with
  | NaN => "NaN"
  | Infinity false => "Infinity"
  | Infinity true => "-Infinity"
  | Finite m e =>
      match normalize m e with
      | Finite m' e' =>
          if m' =? 0 then "0"
          else ((if (m' <? 0)%Z then "-" else EmptyString) ++
                layoutDigits (digits (Z.abs m')) e')%string
      | _ => "NaN"
      end
  end.

(** Longest prefix of characters satisfying [f], and the rest. *)
Fixpoint span (f : ascii -> bool) (s : string) : string * string :=
  match s with
  | String c r =>
      if f c then let (p, q) := span f r in (String c p, q)
      else (EmptyString, s)
  | EmptyString => (EmptyString, EmptyString)
  end.

(** Value of a string of decimal digits. *)
Fixpoint decimalAcc (s : string) (acc : Z) : Z :=
  match s with
  | EmptyString => acc
  | String c r => decimalAcc r (10 * acc + digitValue c)
  end.

Definition decimalValue (s : string) : Z := decimalAcc s 0.

Fixpoint hexAcc (s : string) (acc : Z) : Z :=
  match s with
  | EmptyString => acc
  | String c r =>
      match hexValue c with
      | Some d => hexAcc r (16 * acc + d)
      | None => acc
      end
  end.

(** Value of a string of hexadecimal digits. *)
Definition hexStringValue (s : string) : Z := hexAcc s 0.

(** An optional leading sign: whether it is [-], and the rest. *)
Definition takeSign (s : string) : bool * string :=
  match s with
  | String "-"%char r => (true, r)
  | String "+"%char r => (false, r)
  | _ => (false, s)
  end.

Definition isHexDigit (c : ascii) : bool :=
  match hexValue c with Some _ => true | None => false end.

(** [parseInt(s)] without a radix; [None] is NaN. *)
Definition parseInt (s : string) : option Z :=
  let (neg, r) := takeSign (trimStart s) in
  let sgn := if neg then -1 else 1 in
  match r with
  | String "0"%char (String x r') =>
      if Ascii.eqb x "x"%char || Ascii.eqb x "X"%char then
        let (p, _) := span isHexDigit r' in
        match p with
        | EmptyString => None
        | _ => Some (sgn * hexStringValue p)
        end
      else
        let (p, _) := span isDigit r in Some (sgn * decimalValue p)
  | _ =>
      let (p, _) := span isDigit r in
      match p with
      | EmptyString => None
      | _ => Some (sgn * decimalValue p)
      end
  end.

Fixpoint startsWith (p s : string) : bool :=
  match p, s with
  | EmptyString, _ => true
  | String a p', String b s' => Ascii.eqb a b && startsWith p' s'
  | _, _ => false
  end.

(** The exponent part [e[+-]digits] at the front of [s], when there is one. *)
Definition exponentPart (s : string) : Z :=
  match s with
  | String c r =>
      if Ascii.eqb c "e"%char || Ascii.eqb c "E"%char then
        let (neg, r') := takeSign r in
        let (p, _) := span isDigit r' in
        match p with
        | EmptyString => 0
        | _ => if neg then - decimalValue p else decimalValue p
        end
      else 0
  | EmptyString => 0
  end.

(** The longest prefix of [r] that is an unsigned decimal literal
    ([digits], [digits.], [digits.digits] or [.digits], then an optional
    exponent): the integer its digits spell and the power of ten that goes
    with it.  [None] when no prefix is a literal. *)
Definition unsignedDecimal (r : string) : option (Z * Z) :=
  let (ip, r1) := span isDigit r in
  let (fp, r2) :=
    match r1 with
    | String "."%char r' =>
        let (f, r'') := span isDigit r' in
        match ip, f with
        | EmptyString, EmptyString => (EmptyString, r1)
        | _, _ => (f, r'')
        end
    | _ => (EmptyString, r1)
    end in
  match (ip ++ fp)%string with
  | EmptyString => None
  | ds => Some (decimalValue ds, exponentPart r2 - Z.of_nat (String.length fp))
  end.

(** [parseFloat(s)]: the longest prefix that is a decimal literal. *)
Definition parseFloat (s : string) : number :=
  let (neg, r) := takeSign (trimStart s) in
  if startsWith "Infinity" r then Infinity neg
  else
    match unsignedDecimal r with
    | None => NaN
    | Some (v, e) => normalize (if neg then - v else v) e
    end.

(** [parseInt(s) || 0] *)
Definition parseIntOr0 (s : string) : Z :=
  match parseInt s with Some z => z | None => 0 end.

(** [parseFloat(s) || 0] *)
Definition parseFloatOr0 (s : string) : number :=
  number_or (parseFloat s) (ofZ 0).

(** ** types.ts *)

Inductive TransactionType : Type := IN | OUT.

Definition TransactionType_eqb (a b : TransactionType) : bool :=
  match a, b with
  | IN, IN | OUT, OUT => true
  | _, _ => false
  end.

Module Product.
Record t : Type := mk {
  id : string;
  sku : string;
  name : string;
  category : string;
  quantity : Z;
  minThreshold : Z;
  purchasePrice : number;
  sellingPrice : number;
  boxNumber : string;
  description : string;
  lastUpdated : Z
}.
End Product.

Module Transaction.
Record t : Type := mk {
  id : string;
  productId : string;
  productName : string;
  type : TransactionType;
  quantity : Z;
  reason : string;
  timestamp : Z;
  userId : string
}.
End Transaction.

Record InventoryStats : Type := {
  totalItems : Z;
  lowStockItems : Z;
  totalValue : double;
  outOfStock : Z
}.

(** [Partial<Product>]: every field may be absent. *)
Module PartialProduct.
Record t : Type := mk {
  id : option string;
  sku : option string;
  name : option string;
  category : option string;
  quantity : option Z;
  minThreshold : option Z;
  purchasePrice : option number;
  sellingPrice : option number;
  boxNumber : option string;
  description : option string;
  lastUpdated : option Z
}.
End PartialProduct.

(** ** App.tsx: component state and what the outside world supplies *)

Record AppState : Type := {
  products : list Product.t;
  transactions : list Transaction.t;
  stockActionType : TransactionType;
  selectedProduct : option Product.t;
  isModalOpen : bool
}.

(** What one handler invocation reads from its environment. *)
Record World : Type := {
  dateNow : nat -> Z;          (* the n-th call of [Date.now()] *)
  randomId : string;           (* [Math.random().toString(36).substr(2, 9)] *)
  randomSkuNumber : Z;         (* [Math.floor(Math.random() * 1000)] *)
  upsertProductOk : bool;      (* [await upsertProduct(..)] did not throw *)
  logTransactionOk : bool;     (* [await logTransaction(..)] did not throw *)
  playChaChingOk : bool        (* the Web Audio calls of the cue did not throw *)
}.

Inductive Outcome : Type :=
| Skipped        (* early [return]: nothing happens *)
| SyncError      (* the [catch] branch: an alert, local state not updated *)
| Committed.     (* both awaits returned and the local state was updated *)

(** [products.find(p => p.id === productId)] *)
Definition findProduct (ps : list Product.t) (productId : string)
  : option Product.t :=
  find (fun p => String.eqb (Product.id p) productId) ps.

(** [prev.map(p => p.id === productId ? updated : p)] *)
Definition replaceProduct (productId : string) (updated : Product.t)
    (ps : list Product.t) : list Product.t :=
  map (fun p => if String.eqb (Product.id p) productId then updated else p) ps.

(** The [stats] memo of App.tsx. *)
Definition stats (ps : list Product.t) : InventoryStats :=
  {| totalItems := fold_left (fun acc p => acc + Product.quantity p) ps 0;
     lowStockItems :=
       Z.of_nat (List.length (filter (fun p =>
         (Product.quantity p >? 0)
         && (Product.quantity p <=? Product.minThreshold p)) ps));
     totalValue :=
       fold_left (fun acc p =>
         dadd acc (dmul (ofInt (Product.quantity p))
                        (toDouble (Product.sellingPrice p))))
         ps (ofInt 0);
     outOfStock :=
       Z.of_nat (List.length (filter (fun p => Product.quantity p <=? 0) ps)) |}.

(** The quantity computed by [processStockTransaction] ([newQty]). *)
Definition newQty (direction : TransactionType) (q amount : Z) : Z :=
  match direction with
  | IN => q + amount
  | OUT => Z.max 0 (q - amount)
  end.

(** [newBoxNumber || product.boxNumber]; an absent argument is [None]. *)
Definition boxOr (newBoxNumber : option string) (current : string) : string :=
  match newBoxNumber with
  | Some b => string_or b current
  | None => current
  end.

(** [newBoxNumber && newBoxNumber !== product.boxNumber ? `${reason} (Box: ${newBoxNumber})` : reason] *)
Definition annotateReason (reason : string) (newBoxNumber : option string)
    (current : string) : string :=
  match newBoxNumber with
  | Some b =>
      match b with
      | EmptyString => reason
      | _ => if String.eqb b current then reason
             else (reason ++ " (Box: " ++ b ++ ")")%string
      end
  | None => reason
  end.

Definition updatedProduct (w : World) (direction : TransactionType)
    (product : Product.t) (amount : Z) (newBoxNumber : option string)
  : Product.t :=
  {| Product.id := Product.id product;
     Product.sku := Product.sku product;
     Product.name := Product.name product;
     Product.category := Product.category product;
     Product.quantity := newQty direction (Product.quantity product) amount;
     Product.minThreshold := Product.minThreshold product;
     Product.purchasePrice := Product.purchasePrice product;
     Product.sellingPrice := Product.sellingPrice product;
     Product.boxNumber := boxOr newBoxNumber (Product.boxNumber product);
     Product.description := Product.description product;
     Product.lastUpdated := dateNow w 0 |}.

Definition newTx (w : World) (direction : TransactionType)
    (product : Product.t) (productId : string) (amount : Z) (reason : string)
    (newBoxNumber : option string) : Transaction.t :=
  {| Transaction.id := randomId w;
     Transaction.productId := productId;
     Transaction.productName := Product.name product;
     Transaction.type := direction;
     Transaction.quantity := amount;
     Transaction.reason :=
       annotateReason reason newBoxNumber (Product.boxNumber product);
     Transaction.timestamp := dateNow w 1;
     Transaction.userId := "Admin" |}.

(** Whether the cue [playChaChing] is triggered.  In this variant the cue
    catches what its Web Audio calls throw, so it has no other effect on the
    handler. *)
Definition playsChaChing (direction : TransactionType) (amount : Z) : bool :=
  TransactionType_eqb direction OUT && (amount >? 0).

(** [processStockTransaction(productId, amount, reason, newBoxNumber?)]. *)
Definition processStockTransaction (w : World) (s : AppState)
    (productId : string) (amount : Z) (reason : string)
    (newBoxNumber : option string) : Outcome * AppState :=
  match findProduct (products s) productId with
  | None => (Skipped, s)
  | Some product =>
      let up := updatedProduct w (stockActionType s) product amount newBoxNumber in
      let tx := newTx w (stockActionType s) product productId amount reason
                  newBoxNumber in
      if upsertProductOk w && logTransactionOk w then
        (Committed,
         {| products := replaceProduct productId up (products s);
            transactions := tx :: transactions s;
            stockActionType := stockActionType s;
            selectedProduct := None;
            isModalOpen := false |})
      else
        (SyncError,
         {| products := products s;
            transactions := transactions s;
            stockActionType := stockActionType s;
            selectedProduct := None;
            isModalOpen := false |})
  end.

(** [{ ...selectedProduct, ...data, lastUpdated: Date.now() }]: the keys that
    [data] supplies replace those of the selected product. *)
Definition mergeProduct (w : World) (sel : Product.t) (data : PartialProduct.t)
  : Product.t :=
  let over {A} (o : option A) (d : A) := match o with Some v => v | None => d end in
  {| Product.id := over (PartialProduct.id data) (Product.id sel);
     Product.sku := over (PartialProduct.sku data) (Product.sku sel);
     Product.name := over (PartialProduct.name data) (Product.name sel);
     Product.category := over (PartialProduct.category data) (Product.category sel);
     Product.quantity := over (PartialProduct.quantity data) (Product.quantity sel);
     Product.minThreshold :=
       over (PartialProduct.minThreshold data) (Product.minThreshold sel);
     Product.purchasePrice :=
       over (PartialProduct.purchasePrice data) (Product.purchasePrice sel);
     Product.sellingPrice :=
       over (PartialProduct.sellingPrice data) (Product.sellingPrice sel);
     Product.boxNumber := over (PartialProduct.boxNumber data) (Product.boxNumber sel);
     Product.description :=
       over (PartialProduct.description data) (Product.description sel);
     Product.lastUpdated := dateNow w 0 |}.

(** [field || d] for an optional string field. *)
Definition optStringOr (o : option string) (d : string) : string :=
  match o with Some v => string_or v d | None => d end.

(** [field || d] for an optional integer field: absent and 0 are falsy. *)
Definition optZOr (o : option Z) (d : Z) : Z :=
  match o with
  | Some v => if v =? 0 then d else v
  | None => d
  end.

(** [field || d] for an optional price field. *)
Definition optNumberOr (o : option number) (d : number) : number :=
  match o with Some v => number_or v d | None => d end.

(** The product built by the create branch of [saveProduct]. *)
Definition createProduct (w : World) (data : PartialProduct.t) : Product.t :=
  {| Product.id := randomId w;
     Product.sku :=
       optStringOr (PartialProduct.sku data)
         ("SKU-" ++ numberToString (ofZ (randomSkuNumber w)))%string;
     Product.name := optStringOr (PartialProduct.name data) "New Product";
     Product.category :=
       optStringOr (PartialProduct.category data) "Uncategorized";
     Product.quantity := optZOr (PartialProduct.quantity data) 0;
     Product.minThreshold := optZOr (PartialProduct.minThreshold data) 5;
     Product.purchasePrice :=
       optNumberOr (PartialProduct.purchasePrice data) (ofZ 0);
     Product.sellingPrice :=
       optNumberOr (PartialProduct.sellingPrice data) (ofZ 0);
     Product.boxNumber := optStringOr (PartialProduct.boxNumber data) "N/A";
     Product.description := optStringOr (PartialProduct.description data) EmptyString;
     Product.lastUpdated := dateNow w 0 |}.

(** [saveProduct(data)] *)
Definition saveProduct (w : World) (s : AppState) (data : PartialProduct.t)
  : Outcome * AppState :=
  let finalProduct :=
    match selectedProduct s with
    | Some sel => mergeProduct w sel data
    | None => createProduct w data
    end in
  if upsertProductOk w then
    (Committed,
     {| products :=
          match selectedProduct s with
          | Some sel => replaceProduct (Product.id sel) finalProduct (products s)
          | None => products s ++ [finalProduct]
          end;
        transactions := transactions s;
        stockActionType := stockActionType s;
        selectedProduct := None;
        isModalOpen := false |})
  else
    (SyncError,
     {| products := products s;
        transactions := transactions s;
        stockActionType := stockActionType s;
        selectedProduct := None;
        isModalOpen := false |}).

(** ** components/Reports.tsx *)

Module Reports.






End Reports.

(** ** services/supabaseService.ts and services/geminiService.ts *)

(** Rows ordered by timestamp, greatest first (the relative order of rows
    with equal timestamps is the insertion order here; the store leaves it
    open). *)
Fixpoint insertDesc (t : Transaction.t) (l : list Transaction.t)
  : list Transaction.t :=
  match l with
  | [] => [t]
  | x :: r =>
      if Transaction.timestamp x <? Transaction.timestamp t then t :: l
      else x :: insertDesc t r
  end.

Definition orderDesc (rows : list Transaction.t) : list Transaction.t :=
  fold_right insertDesc [] rows.

(** [fetchTransactions()]: [select * order by timestamp desc limit 100] over
    the stored rows, or [[]] when the query reports an error. *)
Definition fetchTransactions (queryOk : bool) (rows : list Transaction.t)
  : list Transaction.t :=
  if queryOk then firstn 100 (orderDesc rows) else [].

(** [a.slice(-n)]: the last [n] elements. *)
Definition sliceLast {A} (n : nat) (a : list A) : list A :=
  skipn (List.length a - n) a.

(** The languages of the interface ([Language] of translations.ts). *)
Inductive Language : Type := en | bn | hi.

Definition languageName (lang : Language) : string :=
  match lang with
  | bn => "Bengali"
  | hi => "Hindi"
  | en => "English"
  end.

(** One product, as the request describes it. *)
Module ProductSnapshot.
Record t : Type := mk {
  name : string;
  box : string;
  qty : Z;
  min : Z;
  cost : number;
  msrp : number;
  margin : double;
  cat : string
}.
End ProductSnapshot.

(** One transaction, as the request describes it. *)
Module TxSnapshot.
Record t : Type := mk {
  name : string;
  type : TransactionType;
  qty : Z;
  date : Z      (* the timestamp that [toISOString] prints *)
}.
End TxSnapshot.

(** The data that [getInventoryInsights] writes into the prompt: the two
    lists that the template of [context] serialises, and the language. *)
Record InsightRequest : Type := {
  inventoryData : list ProductSnapshot.t;
  recentTransactions : list TxSnapshot.t;
  requestLanguage : string
}.

(** [new Date(t).toISOString()] throws a RangeError unless the time value
    lies within 8.64e15 ms of the epoch. *)
Definition validTime (t : Z) : bool := Z.abs t <=? 8640000000000000.

(** The request built by [getInventoryInsights(products, transactions,
    lang)]; the call of the model and the reading of its answer are not part
    of the embedding.  The prompt is built before the [try] block: when one
    of the last twenty transactions has a timestamp that [toISOString]
    refuses, the promise rejects and there is no request ([None]). *)
Definition getInventoryInsights (ps : list Product.t)
    (ts : list Transaction.t) (lang : Language) : option InsightRequest :=
  if forallb (fun t => validTime (Transaction.timestamp t)) (sliceLast 20 ts)
  then
    Some
      {| inventoryData :=
           map (fun p =>
                  {| ProductSnapshot.name := Product.name p;
                     ProductSnapshot.box := Product.boxNumber p;
                     ProductSnapshot.qty := Product.quantity p;
                     ProductSnapshot.min := Product.minThreshold p;
                     ProductSnapshot.cost := Product.purchasePrice p;
                     ProductSnapshot.msrp := Product.sellingPrice p;
                     ProductSnapshot.margin :=
                       dsub (toDouble (Product.sellingPrice p))
                            (toDouble (Product.purchasePrice p));
                     ProductSnapshot.cat := Product.category p |}) ps;
         recentTransactions :=
           map (fun t =>
                  {| TxSnapshot.name := Transaction.productName t;
                     TxSnapshot.type := Transaction.type t;
                     TxSnapshot.qty := Transaction.quantity t;
                     TxSnapshot.date := Transaction.timestamp t |})
               (sliceLast 20 ts);
         requestLanguage := languageName lang |}
  else None.

(** ** services/csvService.ts *)

Definition csvHeaders : list string :=
  ["SKU"; "Name"; "Category"; "Quantity"; "Min Threshold"; "Purchase Price";
   "Selling Price"; "Box Number"; "Description"].

Definition quoted (s : string) : string :=
  (String quote s ++ String quote EmptyString)%string.

(** One exported row. *)
Definition exportRow (p : Product.t) : string :=
  join ","
    [ quoted (Product.sku p);
      quoted (Product.name p);
      quoted (Product.category p);
      numberToString (ofZ (Product.quantity p));
      numberToString (ofZ (Product.minThreshold p));
      numberToString (Product.purchasePrice p);
      numberToString (Product.sellingPrice p);
      quoted (Product.boxNumber p);
      quoted (doubleQuotes (Product.description p)) ].

(** [exportToCSV(products)]: the text of the downloaded file, or [None] when
    the list is empty and nothing is downloaded. *)
Definition exportToCSV (ps : list Product.t) : option string :=
  match ps with
  | [] => None
  | _ => Some (join (String newline EmptyString)
                 (join "," csvHeaders :: map exportRow ps))
  end.

(** What [parseCSV] reads from its environment: the n-th result of
    [crypto.randomUUID()] and of [Date.now()]. *)
Record CsvWorld : Type := {
  randomUUID : nat -> string;
  csvNow : nat -> Z
}.

(** [v.trim().replace(..).replace(..)]: trimmed, one quote off each end,
    doubled quotes undoubled. *)
Definition cleanValue (v : string) : string :=
  undoubleQuotes (stripQuotes (trim v)).

(** [line.split(',').map(v => v.trim().replace(..).replace(..))] *)
Definition rowValues (line : string) : list string :=
  map cleanValue (split comma line).

(** Whether the loop body [continue]s on this line. *)
Definition skipsLine (line : string) : bool :=
  match trim line with
  | EmptyString => true
  | _ => (List.length (rowValues line) <? 7)%nat
  end.

(** [existingProducts.find(ep => ep.sku === sku)] *)
Definition findBySku (existing : list Product.t) (sku : string)
  : option Product.t :=
  find (fun ep => String.eqb (Product.sku ep) sku) existing.

(** The record pushed for a line that is not skipped; [n] counts the records
    built before it. *)
Definition importRow (w : CsvWorld) (existing : list Product.t) (n : nat)
    (line : string) : Product.t :=
  let values := rowValues line in
  let v i := nth i values EmptyString in
  {| Product.id :=
       match findBySku existing (v 0%nat) with
       | Some ep => Product.id ep
       | None => randomUUID w n
       end;
     Product.sku := v 0%nat;
     Product.name := v 1%nat;
     Product.category := v 2%nat;
     Product.quantity := parseIntOr0 (v 3%nat);
     Product.minThreshold := parseIntOr0 (v 4%nat);
     Product.purchasePrice := parseFloatOr0 (v 5%nat);
     Product.sellingPrice := parseFloatOr0 (v 6%nat);
     Product.boxNumber := v 7%nat;
     Product.description := v 8%nat;
     Product.lastUpdated := csvNow w n |}.

(** The loop of [parseCSV] over the lines after the header. *)
Fixpoint importLines (w : CsvWorld) (existing : list Product.t) (n : nat)
    (lines : list string) : list Product.t :=
  match lines with
  | [] => []
  | line :: rest =>
      if skipsLine line then importLines w existing n rest
      else importRow w existing n line :: importLines w existing (S n) rest
  end.

(** [parseCSV(text, existingProducts)] *)
Definition parseCSV (w : CsvWorld) (text : string) (existing : list Product.t)
  : list Product.t :=
  importLines w existing 0 (tl (split newline text)).

(** ** The handlers on JavaScript numbers *)

(** The handlers of App.tsx and the import of csvService.ts once more, with
    every number a [double]: what they compute when the amount or the
    quantity they are given is any JavaScript number. *)
Module Numeric.

Module Product.
Record t : Type := mk {
  id : string;
  sku : string;
  name : string;
  category : string;
  quantity : double;
  minThreshold : double;
  purchasePrice : double;
  sellingPrice : double;
  boxNumber : string;
  description : string;
  lastUpdated : Z
}.
End Product.

Module Transaction.
Record t : Type := mk {
  id : string;
  productId : string;
  productName : string;
  type : TransactionType;
  quantity : double;
  reason : string;
  timestamp : Z;
  userId : string
}.
End Transaction.

Module PartialProduct.
Record t : Type := mk {
  id : option string;
  sku : option string;
  name : option string;
  category : option string;
  quantity : option double;
  minThreshold : option double;
  purchasePrice : option double;
  sellingPrice : option double;
  boxNumber : option string;
  description : option string;
  lastUpdated : option Z
}.
End PartialProduct.

Record AppState : Type := {
  products : list Product.t;
  transactions : list Transaction.t;
  stockActionType : TransactionType;
  selectedProduct : option Product.t;
  isModalOpen : bool
}.

(** [products.find(p => p.id === productId)] *)
Definition findProduct (ps : list Product.t) (productId : string)
  : option Product.t :=
  find (fun p => String.eqb (Product.id p) productId) ps.

(** [prev.map(p => p.id === productId ? updated : p)] *)
Definition replaceProduct (productId : string) (updated : Product.t)
    (ps : list Product.t) : list Product.t :=
  map (fun p => if String.eqb (Product.id p) productId then updated else p) ps.

(** [stockActionType === TransactionType.IN ? product.quantity + amount
    : Math.max(0, product.quantity - amount)] *)
Definition newQty (direction : TransactionType) (q amount : double) : double :=
  match direction with
  | IN => dadd q amount
  | OUT => mathMax0 (dsub q amount)
  end.

Definition updatedProduct (w : World) (direction : TransactionType)
    (product : Product.t) (amount : double) (newBoxNumber : option string)
  : Product.t :=
  {| Product.id := Product.id product;
     Product.sku := Product.sku product;
     Product.name := Product.name product;
     Product.category := Product.category product;
     Product.quantity := newQty direction (Product.quantity product) amount;
     Product.minThreshold := Product.minThreshold product;
     Product.purchasePrice := Product.purchasePrice product;
     Product.sellingPrice := Product.sellingPrice product;
     Product.boxNumber := boxOr newBoxNumber (Product.boxNumber product);
     Product.description := Product.description product;
     Product.lastUpdated := dateNow w 0 |}.

Definition newTx (w : World) (direction : TransactionType)
    (product : Product.t) (productId : string) (amount : double)
    (reason : string) (newBoxNumber : option string) : Transaction.t :=
  {| Transaction.id := randomId w;
     Transaction.productId := productId;
     Transaction.productName := Product.name product;
     Transaction.type := direction;
     Transaction.quantity := amount;
     Transaction.reason :=
       annotateReason reason newBoxNumber (Product.boxNumber product);
     Transaction.timestamp := dateNow w 1;
     Transaction.userId := "Admin" |}.

(** [processStockTransaction(productId, amount, reason, newBoxNumber?)]. *)
Definition processStockTransaction (w : World) (s : AppState)
    (productId : string) (amount : double) (reason : string)
    (newBoxNumber : option string) : Outcome * AppState :=
  match findProduct (products s) productId with
  | None => (Skipped, s)
  | Some product =>
      let up := updatedProduct w (stockActionType s) product amount newBoxNumber in
      let tx := newTx w (stockActionType s) product productId amount reason
                  newBoxNumber in
      if upsertProductOk w && logTransactionOk w then
        (Committed,
         {| products := replaceProduct productId up (products s);
            transactions := tx :: transactions s;
            stockActionType := stockActionType s;
            selectedProduct := None;
            isModalOpen := false |})
      else
        (SyncError,
         {| products := products s;
            transactions := transactions s;
            stockActionType := stockActionType s;
            selectedProduct := None;
            isModalOpen := false |})
  end.

(** [{ ...selectedProduct, ...data, lastUpdated: Date.now() }] *)
Definition mergeProduct (w : World) (sel : Product.t) (data : PartialProduct.t)
  : Product.t :=
  let over {A} (o : option A) (d : A) := match o with Some v => v | None => d end in
  {| Product.id := over (PartialProduct.id data) (Product.id sel);
     Product.sku := over (PartialProduct.sku data) (Product.sku sel);
     Product.name := over (PartialProduct.name data) (Product.name sel);
     Product.category := over (PartialProduct.category data) (Product.category sel);
     Product.quantity := over (PartialProduct.quantity data) (Product.quantity sel);
     Product.minThreshold :=
       over (PartialProduct.minThreshold data) (Product.minThreshold sel);
     Product.purchasePrice :=
       over (PartialProduct.purchasePrice data) (Product.purchasePrice sel);
     Product.sellingPrice :=
       over (PartialProduct.sellingPrice data) (Product.sellingPrice sel);
     Product.boxNumber := over (PartialProduct.boxNumber data) (Product.boxNumber sel);
     Product.description :=
       over (PartialProduct.description data) (Product.description sel);
     Product.lastUpdated := dateNow w 0 |}.

(** [field || d] for an optional number field: absent, [NaN] and 0 are
    falsy. *)
Definition optDoubleOr (o : option double) (d : double) : double :=
  match o with Some v => double_or v d | None => d end.

(** The product built by the create branch of [saveProduct]. *)
Definition createProduct (w : World) (data : PartialProduct.t) : Product.t :=
  {| Product.id := randomId w;
     Product.sku :=
       optStringOr (PartialProduct.sku data)
         ("SKU-" ++ numberToString (ofZ (randomSkuNumber w)))%string;
     Product.name := optStringOr (PartialProduct.name data) "New Product";
     Product.category :=
       optStringOr (PartialProduct.category data) "Uncategorized";
     Product.quantity := optDoubleOr (PartialProduct.quantity data) (ofInt 0);
     Product.minThreshold :=
       optDoubleOr (PartialProduct.minThreshold data) (ofInt 5);
     Product.purchasePrice :=
       optDoubleOr (PartialProduct.purchasePrice data) (ofInt 0);
     Product.sellingPrice :=
       optDoubleOr (PartialProduct.sellingPrice data) (ofInt 0);
     Product.boxNumber := optStringOr (PartialProduct.boxNumber data) "N/A";
     Product.description := optStringOr (PartialProduct.description data) EmptyString;
     Product.lastUpdated := dateNow w 0 |}.

(** [saveProduct(data)] *)
Definition saveProduct (w : World) (s : AppState) (data : PartialProduct.t)
  : Outcome * AppState :=
  let finalProduct :=
    match selectedProduct s with
    | Some sel => mergeProduct w sel data
    | None => createProduct w data
    end in
  if upsertProductOk w then
    (Committed,
     {| products :=
          match selectedProduct s with
          | Some sel => replaceProduct (Product.id sel) finalProduct (products s)
          | None => products s ++ [finalProduct]
          end;
        transactions := transactions s;
        stockActionType := stockActionType s;
        selectedProduct := None;
        isModalOpen := false |})
  else
    (SyncError,
     {| products := products s;
        transactions := transactions s;
        stockActionType := stockActionType s;
        selectedProduct := None;
        isModalOpen := false |}).

(** [parseInt(s)] as the number it returns: the double nearest to the
    integer read, [NaN] when there is none.  (Beyond twenty digits an
    implementation may read an approximation of the digits.) *)
Definition parseIntNumber (s : string) : double :=
  match parseInt s with Some z => ofInt z | None => dNaN end.

(** [parseFloat(s)] as the number it returns. *)
Definition parseFloatNumber (s : string) : double := toDouble (parseFloat s).

(** [existingProducts.find(ep => ep.sku === sku)] *)
Definition findBySku (existing : list Product.t) (sku : string)
  : option Product.t :=
  find (fun ep => String.eqb (Product.sku ep) sku) existing.

(** The record pushed for a line that is not skipped. *)
Definition importRow (w : CsvWorld) (existing : list Product.t) (n : nat)
    (line : string) : Product.t :=
  let values := rowValues line in
  let v i := nth i values EmptyString in
  {| Product.id :=
       match findBySku existing (v 0%nat) with
       | Some ep => Product.id ep
       | None => randomUUID w n
       end;
     Product.sku := v 0%nat;
     Product.name := v 1%nat;
     Product.category := v 2%nat;
     Product.quantity := double_or (parseIntNumber (v 3%nat)) (ofInt 0);
     Product.minThreshold := double_or (parseIntNumber (v 4%nat)) (ofInt 0);
     Product.purchasePrice := double_or (parseFloatNumber (v 5%nat)) (ofInt 0);
     Product.sellingPrice := double_or (parseFloatNumber (v 6%nat)) (ofInt 0);
     Product.boxNumber := v 7%nat;
     Product.description := v 8%nat;
     Product.lastUpdated := csvNow w n |}.

(** The loop of [parseCSV] over the lines after the header. *)
Fixpoint importLines (w : CsvWorld) (existing : list Product.t) (n : nat)
    (lines : list string) : list Product.t :=
  match lines with
  | [] => []
  | line :: rest =>
      if skipsLine line then importLines w existing n rest
      else importRow w existing n line :: importLines w existing (S n) rest
  end.

(** [parseCSV(text, existingProducts)] *)
Definition parseCSV (w : CsvWorld) (text : string) (existing : list Product.t)
  : list Product.t :=
  importLines w existing 0 (tl (split newline text)).

End Numeric.

(** [Number.MAX_SAFE_INTEGER] *)
Definition maxSafeInteger : Z := 2 ^ 53 - 1.

(** The double holds one of the integers 0, ..., [bound]. *)
Definition isCount (bound : Z) (x : double) : Prop :=
  exists n, 0 <= n <= bound /\ x = ofInt n.

(** Every quantity of the collection is an integer from 0 to [bound]. *)
Definition counts (bound : Z) (ps : list Numeric.Product.t) : Prop :=
  Forall (fun p => isCount bound (Numeric.Product.quantity p)) ps.

(** The double is a number and is not below zero. *)
Definition notNegative (x : double) : bool :=
  match x with
  | dNaN => false
  | dInfinity s => negb s
  | dFinite m _ => 0 <=? m
  end.


(** Every character of the string satisfies [f]. *)
Fixpoint allChars (f : ascii -> bool) (s : string) : bool :=
  match s with
  | EmptyString => true
  | String c r => f c && allChars f r
  end.

(** Characters that the CSV code neither trims, nor strips, nor splits at. *)
Definition plainChar (c : ascii) : bool :=
  negb (isWhiteSpace c) && negb (Ascii.eqb c comma) && negb (Ascii.eqb c quote).

(** Two double quotes in a row somewhere in the string. *)
Fixpoint hasDoubledQuote (s : string) : bool :=
  match s with
  | String c1 (String c2 _ as r) =>
      (Ascii.eqb c1 quote && Ascii.eqb c2 quote) || hasDoubledQuote r
  | _ => false
  end.

(** The normal form of a decimal: no trailing zero in the mantissa, and
    zero written [Finite 0 0]. *)
Definition isNormal (x : number) : Prop :=
  match x with
  | Finite m e => (m = 0 /\ e = 0) \/ m mod 10 <> 0
  | _ => True
  end.

(** The fields that the round trip is about. *)
Definition coreFields (p : Product.t)
  : string * string * string * Z * Z * number * number :=
  (Product.sku p, Product.name p, Product.category p, Product.quantity p,
   Product.minThreshold p, Product.purchasePrice p, Product.sellingPrice p).

(** A text that survives being written between quotes in one column. *)
Definition columnText (s : string) : Prop :=
  hasChar comma s = false /\ hasChar newline s = false /\
  hasDoubledQuote s = false.

(** The products whose export [parseCSV] reads back. *)
Definition readsBack (p : Product.t) : Prop :=
  columnText (Product.sku p) /\
  columnText (Product.name p) /\
  columnText (Product.category p) /\
  hasChar newline (Product.boxNumber p) = false /\
  hasChar newline (Product.description p) = false /\
  Z.abs (Product.quantity p) < 10 ^ 21 /\
  Z.abs (Product.minThreshold p) < 10 ^ 21 /\
  (isNormal (Product.purchasePrice p) /\ Product.purchasePrice p <> NaN) /\
  (isNormal (Product.sellingPrice p) /\ Product.sellingPrice p <> NaN).

(** The string is empty or starts with a character that is not a digit. *)
Definition stopsDigits (r : string) : Prop :=
  match r with
  | EmptyString => True
  | String c _ => isDigit c = false
  end.

(** A supplied value that JavaScript treats as false, or no value at all. *)
Definition falsyString (o : option string) : Prop :=
  o = None \/ o = Some EmptyString.

Definition falsyInteger (o : option Z) : Prop := o = None \/ o = Some 0.

Definition falsyNumber (o : option number) : Prop :=
  o = None \/ exists x, o = Some x /\ truthy x = false.

(** ** Sample data *)

Definition sampleWorld : World :=
  {| dateNow := fun n => 1700000000000 + Z.of_nat n;
     randomId := "k3j9x2m1q";
     randomSkuNumber := 417;
     upsertProductOk := true;
     logTransactionOk := true;
     playChaChingOk := true |}.

Definition sampleProduct (id sku : string) (qty min : Z) (cost sell : Z)
  : Product.t :=
  {| Product.id := id;
     Product.sku := sku;
     Product.name := "Item " ++ sku;
     Product.category := "Electronics";
     Product.quantity := qty;
     Product.minThreshold := min;
     Product.purchasePrice := ofZ cost;
     Product.sellingPrice := ofZ sell;
     Product.boxNumber := "A-01";
     Product.description := "sample";
     Product.lastUpdated := 1690000000000 |}.

Definition sampleCatalog : list Product.t :=
  [ sampleProduct "1" "A" 10 5 7000 9500;
    sampleProduct "2" "B" 0 3 32000 38000 ].

Definition sampleState (direction : TransactionType) : AppState :=
  {| products := sampleCatalog;
     transactions := [];
     stockActionType := direction;
     selectedProduct := None;
     isModalOpen := true |}.

Definition sampleCsvWorld : CsvWorld :=
  {| randomUUID := fun n =>
       ("3f2b8c1e-0000-4000-8000-00000000000" ++ numberToString (ofZ (Z.of_nat n)))%string;
     csvNow := fun n => 1700000000000 + Z.of_nat n |}.

Definition lines (l : list string) : string :=
  join (String newline EmptyString) l.

(** A file with a header, a row whose quantity is not a number, a row of
    five columns, a blank line and a row with a negative quantity. *)
Definition sampleCsv : string :=
  lines [ "SKU,Name,Category,Quantity,Min Threshold,Purchase Price,Selling Price";
          "A,Widget,Tools,abc,2,1.5,x";
          "Z,Short,Tools,1,2";
          "   ";
          "N,Gadget,Tools,-5,1,3,4,B-7,spare" ].

(** What the product form submits when every input is left empty or 0. *)
Definition emptyForm : PartialProduct.t :=
  {| PartialProduct.id := None;
     PartialProduct.sku := Some EmptyString;
     PartialProduct.name := Some EmptyString;
     PartialProduct.category := Some EmptyString;
     PartialProduct.quantity := Some 0;
     PartialProduct.minThreshold := Some 0;
     PartialProduct.purchasePrice := Some (ofZ 0);
     PartialProduct.sellingPrice := Some NaN;
     PartialProduct.boxNumber := Some EmptyString;
     PartialProduct.description := Some EmptyString;
     PartialProduct.lastUpdated := None |}.

Definition sampleTransaction (k : nat) : Transaction.t :=
  {| Transaction.id := ("tx" ++ numberToString (ofZ (Z.of_nat k)))%string;
     Transaction.productId := "1";
     Transaction.productName := "Item A";
     Transaction.type := OUT;
     Transaction.quantity := 1;
     Transaction.reason := "Sales";
     Transaction.timestamp := 1000 * Z.of_nat k;
     Transaction.userId := "Admin" |}.

(** Twenty-one stored transactions, with timestamps 1000, 2000, .., 21000. *)
Definition sampleRows : list Transaction.t := map sampleTransaction (seq 1 21).

(** The lines of [parseCSV] that are not skipped. *)
Definition keptLines (ls : list string) : list string :=
  filter (fun l => negb (skipsLine l)) ls.


(** The third product of the local catalog of App.tsx, with an inch mark at
    the end of its name and a price with decimals. *)
Definition monitorProduct : Product.t :=
  {| Product.id := "3";
     Product.sku := "MON-003";
     Product.name := "Dell UltraSharp 27" ++ String quote EmptyString;
     Product.category := "Electronics";
     Product.quantity := 0;
     Product.minThreshold := 3;
     Product.purchasePrice := ofZ 32000;
     Product.sellingPrice := Finite 379995 (-1);
     Product.boxNumber := "C-05, top";
     Product.description := "4K Monitor";
     Product.lastUpdated := 1690000000000 |}.

(** Products that differ in the fields the CSV code is sensitive to. *)
Definition csvProduct (sku name description : string) (quantity : Z)
    (purchasePrice : number) : Product.t :=
  {| Product.id := "9";
     Product.sku := sku;
     Product.name := name;
     Product.category := "Accessories";
     Product.quantity := quantity;
     Product.minThreshold := 2;
     Product.purchasePrice := purchasePrice;
     Product.sellingPrice := ofZ 9;
     Product.boxNumber := "B-12";
     Product.description := description;
     Product.lastUpdated := 1690000000000 |}.

(** A purchase price that is NaN, as an edit that submits a cost field that
    is not a number stores it. *)
Definition nanProduct : Product.t := csvProduct "PEN-7" "Pen" "Blue" 4 NaN.

(** A comma in the name. *)
Definition commaProduct : Product.t :=
  csvProduct "CAB-1" "Cable, USB" "Charging cable" 10 (ofZ 5).

(** Two quotes in a row at the end of the name. *)
Definition quotesProduct : Product.t :=
  csvProduct "TUBE-2"
    ("Tube 2" ++ String quote (String quote EmptyString))%string
    "Two inch tube" 10 (ofZ 5).

(** A description of two lines, the second with commas. *)
Definition twoLineProduct : Product.t :=
  csvProduct "KIT-1" "Kit"
    ("Box of parts" ++ String newline "X,spare,parts,1,2,3,4")%string
    10 (ofZ 5).

(** A quantity of 10^21. *)
Definition hugeProduct : Product.t :=
  csvProduct "SAND-1" "Sand" "Grains" (10 ^ 21) (ofZ 5).

(** ** components/InventoryTable.tsx and the finder of App.tsx *)

(** [c.toLowerCase()] on a code unit below 256: the letters A-Z and the
    accented capitals 192-222 (but the multiplication sign, 215) move up
    by 32. *)
Definition lowerChar (c : ascii) : ascii :=
  let n := N_of_ascii c in
  if ((65 <=? n) && (n <=? 90)
      || (192 <=? n) && (n <=? 222) && negb (n =? 215))%N
  then ascii_of_N (n + 32) else c.

(** [s.toLowerCase()] *)
Fixpoint toLowerCase (s : string) : string :=
  match s with
  | EmptyString => EmptyString
  | String c r => String (lowerChar c) (toLowerCase r)
  end.

(** [s.includes(sub)] *)
Fixpoint includes (s sub : string) : bool :=
  startsWith sub s ||
  match s with
  | EmptyString => false
  | String _ r => includes r sub
  end.

Inductive StockStatus : Type := OutOfStockBadge | LowStockBadge | InStockBadge.

Module InventoryTable.

(** Which of the three badges [StatusBadge] renders. *)
Definition StatusBadge (product : Product.t) : StockStatus :=
  if Product.quantity product <=? 0 then OutOfStockBadge
  else if Product.quantity product <=? Product.minThreshold product
       then LowStockBadge
       else InStockBadge.

(** The rows shown for a search term. *)
Definition filtered (searchTerm : string) (products : list Product.t)
  : list Product.t :=
  filter (fun p =>
            includes (toLowerCase (Product.name p)) (toLowerCase searchTerm)
            || includes (toLowerCase (Product.sku p)) (toLowerCase searchTerm)
            || includes (toLowerCase (Product.boxNumber p))
                        (toLowerCase searchTerm))
         products.

End InventoryTable.

(** Whether the finder of App.tsx lists the product for the lowered query. *)
Definition finderMatches (query : string) (p : Product.t) : bool :=
  includes (toLowerCase (Product.name p)) query
  || includes (toLowerCase (Product.sku p)) query
  || includes (toLowerCase (Product.category p)) query.

(** The [filteredFinderProducts] memo. *)
Definition filteredFinderProducts (finderQuery : string)
    (products : list Product.t) : list Product.t :=
  match finderQuery with
  | EmptyString => []
  | _ => firstn 5 (filter (finderMatches (toLowerCase finderQuery)) products)
  end.

(** ** App.tsx, the variant that keeps its data in local storage *)

Module LocalApp.

(** [prev.map(p => p.id === productId ? { ...p, quantity: newQty, boxNumber:
    newBoxNumber || p.boxNumber, lastUpdated: Date.now() } : p)]; [n] counts
    the clock readings taken so far. *)
Fixpoint updateProducts (w : World) (n : nat) (productId : string) (qty : Z)
    (newBoxNumber : option string) (ps : list Product.t) : list Product.t :=
  match ps with
  | [] => []
  | p :: rest =>
      if String.eqb (Product.id p) productId then
        {| Product.id := Product.id p;
           Product.sku := Product.sku p;
           Product.name := Product.name p;
           Product.category := Product.category p;
           Product.quantity := qty;
           Product.minThreshold := Product.minThreshold p;
           Product.purchasePrice := Product.purchasePrice p;
           Product.sellingPrice := Product.sellingPrice p;
           Product.boxNumber := boxOr newBoxNumber (Product.boxNumber p);
           Product.description := Product.description p;
           Product.lastUpdated := dateNow w n |}
        :: updateProducts w (S n) productId qty newBoxNumber rest
      else p :: updateProducts w n productId qty newBoxNumber rest
  end.

(** How a movement of the local-storage variant ends. *)
Inductive Movement : Type :=
| Unknown        (* early [return]: no product has the id *)
| SoundFailed    (* [playChaChing] threw: the handler stops before any update *)
| Applied.       (* products and log were updated *)

(** [processStockTransaction] of the local-storage variant: no remote write,
    and the new transaction goes to the end of the log.  Here the cue is
    played without a guard before anything is updated, so what its Web
    Audio calls throw ends the handler.  The transaction reads the clock
    first; the products are rebuilt afterwards. *)
Definition processStockTransaction (w : World) (s : AppState)
    (productId : string) (amount : Z) (reason : string)
    (newBoxNumber : option string) : Movement * AppState :=
  match findProduct (products s) productId with
  | None => (Unknown, s)
  | Some product =>
      let qty := newQty (stockActionType s) (Product.quantity product) amount in
      if playsChaChing (stockActionType s) amount && negb (playChaChingOk w)
      then (SoundFailed, s)
      else
      let tx :=
        {| Transaction.id := randomId w;
           Transaction.productId := productId;
           Transaction.productName := Product.name product;
           Transaction.type := stockActionType s;
           Transaction.quantity := amount;
           Transaction.reason :=
             annotateReason reason newBoxNumber (Product.boxNumber product);
           Transaction.timestamp := dateNow w 0;
           Transaction.userId := "Admin" |} in
      (Applied,
       {| products := updateProducts w 1 productId qty newBoxNumber (products s);
          transactions := transactions s ++ [tx];
          stockActionType := stockActionType s;
          selectedProduct := None;
          isModalOpen := false |})
  end.

(** [{ ...p, ...data, lastUpdated: now }] *)
Definition mergeOnto (now : Z) (p : Product.t) (data : PartialProduct.t)
  : Product.t :=
  let over {A} (o : option A) (d : A) := match o with Some v => v | None => d end in
  {| Product.id := over (PartialProduct.id data) (Product.id p);
     Product.sku := over (PartialProduct.sku data) (Product.sku p);
     Product.name := over (PartialProduct.name data) (Product.name p);
     Product.category := over (PartialProduct.category data) (Product.category p);
     Product.quantity := over (PartialProduct.quantity data) (Product.quantity p);
     Product.minThreshold :=
       over (PartialProduct.minThreshold data) (Product.minThreshold p);
     Product.purchasePrice :=
       over (PartialProduct.purchasePrice data) (Product.purchasePrice p);
     Product.sellingPrice :=
       over (PartialProduct.sellingPrice data) (Product.sellingPrice p);
     Product.boxNumber := over (PartialProduct.boxNumber data) (Product.boxNumber p);
     Product.description :=
       over (PartialProduct.description data) (Product.description p);
     Product.lastUpdated := now |}.

(** [prev.map(p => p.id === id ? { ...p, ...data, lastUpdated: Date.now() }
    : p)]; [n] counts the clock readings taken so far. *)
Fixpoint editProducts (w : World) (n : nat) (id : string)
    (data : PartialProduct.t) (ps : list Product.t) : list Product.t :=
  match ps with
  | [] => []
  | p :: rest =>
      if String.eqb (Product.id p) id
      then mergeOnto (dateNow w n) p data :: editProducts w (S n) id data rest
      else p :: editProducts w n id data rest
  end.

(** [saveProduct] of the local-storage variant: an edit merges the form onto
    the product that the catalog holds under the selected id. *)
Definition saveProduct (w : World) (s : AppState) (data : PartialProduct.t)
  : Outcome * AppState :=
  (Committed,
   {| products :=
        match selectedProduct s with
        | Some sel => editProducts w 0 (Product.id sel) data (products s)
        | None => products s ++ [createProduct w data]
        end;
      transactions := transactions s;
      stockActionType := stockActionType s;
      selectedProduct := None;
      isModalOpen := false |}).

End LocalApp.

(** ** Orders and shapes used to state the further properties *)

(** The log is ordered by timestamp, greatest first. *)
Definition newestFirst (ts : list Transaction.t) : Prop :=
  StronglySorted
    (fun a b => Transaction.timestamp b <= Transaction.timestamp a) ts.

(** The fields of a product that a stock movement has no business with. *)
Definition descriptiveFields (p : Product.t)
  : string * string * string * string * Z * number * number * string :=
  (Product.id p, Product.sku p, Product.name p, Product.category p,
   Product.minThreshold p, Product.purchasePrice p, Product.sellingPrice p,
   Product.description p).

(** [f] applied to the last element of the list. *)
Fixpoint mapLast {A} (f : A -> A) (l : list A) : list A :=
  match l with
  | [] => []
  | [x] => [f x]
  | x :: r => x :: mapLast f r
  end.

Definition carriageReturn : ascii := "013"%char.

(** The record comes from a row whose SKU no existing product has. *)
Definition isNovel (existing : list Product.t) (r : Product.t) : bool :=
  match findBySku existing (Product.sku r) with
  | Some _ => false
  | None => true
  end.

(** How many products get the badge [b]. *)
Definition badgeCount (b : StockStatus) (ps : list Product.t) : Z :=
  Z.of_nat (List.length
    (filter (fun p =>
               match InventoryTable.StatusBadge p, b with
               | OutOfStockBadge, OutOfStockBadge
               | LowStockBadge, LowStockBadge
               | InStockBadge, InStockBadge => true
               | _, _ => false
               end) ps)).

(** The snapshot that the request holds for a transaction. *)
Definition txSnapshot (t : Transaction.t) : TxSnapshot.t :=
  {| TxSnapshot.name := Transaction.productName t;
     TxSnapshot.type := Transaction.type t;
     TxSnapshot.qty := Transaction.quantity t;
     TxSnapshot.date := Transaction.timestamp t |}.

(** A dialog opened on a snapshot of the first sample product that shows 7
    units, over a catalog that holds 10 by now. *)
Definition staleEditState : AppState :=
  {| products := sampleCatalog;
     transactions := [];
     stockActionType := IN;
     selectedProduct := Some (sampleProduct "1" "A" 7 5 7000 9500);
     isModalOpen := true |}.

(** A form that supplies a threshold of 0 and an empty description. *)
Definition zeroThresholdForm : PartialProduct.t :=
  {| PartialProduct.id := None;
     PartialProduct.sku := None;
     PartialProduct.name := None;
     PartialProduct.category := None;
     PartialProduct.quantity := None;
     PartialProduct.minThreshold := Some 0;
     PartialProduct.purchasePrice := None;
     PartialProduct.sellingPrice := None;
     PartialProduct.boxNumber := None;
     PartialProduct.description := Some EmptyString;
     PartialProduct.lastUpdated := None |}.

(** The lines of a text whose line breaks are CR LF, as [split] at LF sees
    them: all but the last end in CR. *)
Fixpoint crlfLines (ls : list string) : list string :=
  match ls with
  | [] => []
  | [x] => [x]
  | x :: r => (x ++ String carriageReturn EmptyString)%string :: crlfLines r
  end.

(** The line break CR LF. *)
Definition crlf : string := String carriageReturn (String newline EmptyString).

(** A generator whose n-th id is the letter u followed by n zeros. *)
Definition countingCsvWorld : CsvWorld :=
  {| randomUUID := fun n => String "u"%char (zeros n);
     csvNow := fun n => 1700000000000 + Z.of_nat n |}.

(** Every field of a product but its id and the time of its last update. *)
Definition contentFields (p : Product.t)
  : string * string * string * Z * Z * number * number * string * string :=
  (Product.sku p, Product.name p, Product.category p, Product.quantity p,
   Product.minThreshold p, Product.purchasePrice p, Product.sellingPrice p,
   Product.boxNumber p, Product.description p).

(** A monitor whose description quotes its size. *)
Definition quotedDescriptionProduct : Product.t :=
  csvProduct "MON-9" "Monitor"
    ("Sold as " ++ String quote ("27 inch" ++ String quote " display"))%string
    3 (ofZ 5).

(** The products whose export [parseCSV] reads back with box number and
    description as well. *)
Definition readsBackWhole (p : Product.t) : Prop :=
  readsBack p /\
  hasChar comma (Product.boxNumber p) = false /\
  hasDoubledQuote (Product.boxNumber p) = false /\
  hasChar comma (Product.description p) = false.

(** What an edit stores in a field: the value the form supplies, or else
    the one the field had. *)
Definition supplied {A} (o : option A) (d : A) : A :=
  match o with Some v => v | None => d end.

(** A browser in which the Web Audio calls of the cue throw. *)
Definition noAudioWorld : World :=
  {| dateNow := dateNow sampleWorld;
     randomId := randomId sampleWorld;
     randomSkuNumber := randomSkuNumber sampleWorld;
     upsertProductOk := true;
     logTransactionOk := true;
     playChaChingOk := false |}.

(** The sample catalog with its numbers as doubles. *)
Definition numericProduct (id sku : string) (qty min cost sell : Z)
  : Numeric.Product.t :=
  {| Numeric.Product.id := id;
     Numeric.Product.sku := sku;
     Numeric.Product.name := ("Item " ++ sku)%string;
     Numeric.Product.category := "Electronics";
     Numeric.Product.quantity := ofInt qty;
     Numeric.Product.minThreshold := ofInt min;
     Numeric.Product.purchasePrice := ofInt cost;
     Numeric.Product.sellingPrice := ofInt sell;
     Numeric.Product.boxNumber := "A-01";
     Numeric.Product.description := "sample";
     Numeric.Product.lastUpdated := 1690000000000 |}.

Definition numericState (direction : TransactionType) : Numeric.AppState :=
  {| Numeric.products := [ numericProduct "1" "A" 10 5 7000 9500;
                           numericProduct "2" "B" 0 3 32000 38000 ];
     Numeric.transactions := [];
     Numeric.stockActionType := direction;
     Numeric.selectedProduct := None;
     Numeric.isModalOpen := true |}.

(** A form that supplies nothing. *)
Definition numericEmptyForm : Numeric.PartialProduct.t :=
  {| Numeric.PartialProduct.id := None;
     Numeric.PartialProduct.sku := None;
     Numeric.PartialProduct.name := None;
     Numeric.PartialProduct.category := None;
     Numeric.PartialProduct.quantity := None;
     Numeric.PartialProduct.minThreshold := None;
     Numeric.PartialProduct.purchasePrice := None;
     Numeric.PartialProduct.sellingPrice := None;
     Numeric.PartialProduct.boxNumber := None;
     Numeric.PartialProduct.description := None;
     Numeric.PartialProduct.lastUpdated := None |}.

(** A form for a new product with the given initial stock. *)
Definition numericForm (quantity : double) : Numeric.PartialProduct.t :=
  {| Numeric.PartialProduct.id := None;
     Numeric.PartialProduct.sku := Some "S-1";
     Numeric.PartialProduct.name := Some "Item";
     Numeric.PartialProduct.category := Some "Tools";
     Numeric.PartialProduct.quantity := Some quantity;
     Numeric.PartialProduct.minThreshold := Some (ofInt 2);
     Numeric.PartialProduct.purchasePrice := Some (ofInt 1);
     Numeric.PartialProduct.sellingPrice := Some (ofInt 2);
     Numeric.PartialProduct.boxNumber := Some "B";
     Numeric.PartialProduct.description := Some "d";
     Numeric.PartialProduct.lastUpdated := None |}.

(** [n] digits 9. *)
Fixpoint nines (n : nat) : string :=
  match n with
  | O => EmptyString
  | S k => String "9" (nines k)
  end.


(** * Properties *)

(** ** Strings *)

(** Lemmas on the string functions of the CSV code. *)

Lemma allChars_app f a b :
  allChars f (a ++ b) = allChars f a && allChars f b.
Proof.
  induction a as [|c a IH]; simpl; [reflexivity|].
  now rewrite IH, andb_assoc.
Qed.

Lemma hasChar_app c a b : hasChar c (a ++ b) = hasChar c a || hasChar c b.
Proof.
  induction a as [|x a IH]; simpl; [reflexivity|].
  now rewrite IH, orb_assoc.
Qed.

Lemma append_assoc (a b c : string) :
  ((a ++ b) ++ c = a ++ (b ++ c))%string.
Proof. induction a as [|x a IH]; simpl; [reflexivity|now rewrite IH]. Qed.

Lemma append_empty_r (a : string) : (a ++ EmptyString)%string = a.
Proof. induction a as [|x a IH]; simpl; [reflexivity|now rewrite IH]. Qed.

Lemma length_append (a b : string) :
  String.length (a ++ b) = (String.length a + String.length b)%nat.
Proof. induction a as [|x a IH]; simpl; [reflexivity|now rewrite IH]. Qed.

Lemma allChars_impl (f g : ascii -> bool) s :
  (forall c, f c = true -> g c = true) ->
  allChars f s = true -> allChars g s = true.
Proof.
  intros Hfg. induction s as [|c s IH]; simpl; [reflexivity|].
  intros H. apply andb_true_iff in H. destruct H as [Hc Hs].
  now rewrite (Hfg c Hc), IH.
Qed.

Lemma allChars_hasChar f c s :
  f c = false -> allChars f s = true -> hasChar c s = false.
Proof.
  intros Hc. induction s as [|x s IH]; simpl; [reflexivity|].
  intros H. apply andb_true_iff in H. destruct H as [Hx Hs].
  rewrite (IH Hs), orb_false_r.
  destruct (Ascii.eqb x c) eqn:E; [|reflexivity].
  apply Ascii.eqb_eq in E. congruence.
Qed.

Lemma plainChar_not_space c : plainChar c = true -> isWhiteSpace c = false.
Proof.
  unfold plainChar. intros H.
  apply andb_true_iff in H. destruct H as [H _].
  apply andb_true_iff in H. destruct H as [H _].
  now apply negb_true_iff in H.
Qed.

Lemma plainChar_not_quote c : plainChar c = true -> Ascii.eqb c quote = false.
Proof.
  unfold plainChar. intros H.
  apply andb_true_iff in H. destruct H as [_ H].
  now apply negb_true_iff in H.
Qed.

Lemma plain_no_comma s : allChars plainChar s = true -> hasChar comma s = false.
Proof. apply allChars_hasChar. reflexivity. Qed.

Lemma plain_no_newline s :
  allChars plainChar s = true -> hasChar newline s = false.
Proof. apply allChars_hasChar. reflexivity. Qed.

Lemma trimEnd_plain s : allChars plainChar s = true -> trimEnd s = s.
Proof.
  induction s as [|c s IH]; simpl; [reflexivity|].
  intros H. apply andb_true_iff in H. destruct H as [Hc Hs].
  rewrite (IH Hs). destruct s; [|reflexivity].
  now rewrite (plainChar_not_space c Hc).
Qed.

Lemma trim_plain s : allChars plainChar s = true -> trim s = s.
Proof.
  intros H. unfold trim.
  assert (Hs : trimStart s = s).
  { destruct s as [|c s]; [reflexivity|]. simpl in *.
    apply andb_true_iff in H. destruct H as [Hc _].
    now rewrite (plainChar_not_space c Hc). }
  rewrite Hs. now apply trimEnd_plain.
Qed.

Lemma stripTrailingQuote_plain s :
  allChars plainChar s = true -> stripTrailingQuote s = s.
Proof.
  induction s as [|c s IH]; [reflexivity|].
  intros H. simpl in H. apply andb_true_iff in H. destruct H as [Hc Hs].
  cbn [stripTrailingQuote]. destruct s as [|c' s'].
  - now rewrite (plainChar_not_quote c Hc).
  - now rewrite (IH Hs).
Qed.

Lemma stripQuotes_plain s : allChars plainChar s = true -> stripQuotes s = s.
Proof.
  intros H. destruct s as [|c s]; [reflexivity|].
  unfold stripQuotes. pose proof H as H'. simpl in H'.
  apply andb_true_iff in H'. destruct H' as [Hc _].
  rewrite (plainChar_not_quote c Hc). now apply stripTrailingQuote_plain.
Qed.

Lemma undoubleQuotes_cons c1 c2 r :
  undoubleQuotes (String c1 (String c2 r)) =
    if Ascii.eqb c1 quote && Ascii.eqb c2 quote
    then String quote (undoubleQuotes r)
    else String c1 (undoubleQuotes (String c2 r)).
Proof. reflexivity. Qed.

Lemma hasDoubledQuote_cons c1 c2 r :
  hasDoubledQuote (String c1 (String c2 r)) =
    (Ascii.eqb c1 quote && Ascii.eqb c2 quote)
    || hasDoubledQuote (String c2 r).
Proof. reflexivity. Qed.

Lemma undoubleQuotes_bounded n s :
  (String.length s <= n)%nat ->
  hasDoubledQuote s = false -> undoubleQuotes s = s.
Proof.
  revert s. induction n as [|n IH]; intros s Hlen H.
  - destruct s; [reflexivity|simpl in Hlen; lia].
  - destruct s as [|c1 [|c2 r]]; try reflexivity.
    rewrite hasDoubledQuote_cons in H. apply orb_false_iff in H.
    destruct H as [Hq Hr]. rewrite undoubleQuotes_cons, Hq.
    f_equal. apply IH; [simpl in *; lia|assumption].
Qed.

Lemma undoubleQuotes_id s : hasDoubledQuote s = false -> undoubleQuotes s = s.
Proof. apply (undoubleQuotes_bounded (String.length s)). lia. Qed.

Lemma plain_no_doubled_quote s :
  allChars plainChar s = true -> hasDoubledQuote s = false.
Proof.
  induction s as [|c s IH]; [reflexivity|].
  intros H. simpl in H. apply andb_true_iff in H. destruct H as [Hc Hs].
  destruct s as [|c' s']; [reflexivity|].
  rewrite hasDoubledQuote_cons, (IH Hs), (plainChar_not_quote c Hc).
  reflexivity.
Qed.

Lemma cleanValue_plain s : allChars plainChar s = true -> cleanValue s = s.
Proof.
  intros H. unfold cleanValue.
  rewrite (trim_plain s H), (stripQuotes_plain s H).
  apply undoubleQuotes_id. now apply plain_no_doubled_quote.
Qed.

Lemma trimEnd_snoc s c :
  isWhiteSpace c = false ->
  trimEnd (s ++ String c EmptyString) = (s ++ String c EmptyString)%string.
Proof.
  intros Hc. induction s as [|a s IH]; simpl.
  - now rewrite Hc.
  - rewrite IH. destruct s; reflexivity.
Qed.

Lemma stripTrailingQuote_snoc s :
  stripTrailingQuote (s ++ String quote EmptyString) = s.
Proof.
  induction s as [|a s IH]; [reflexivity|].
  simpl append. cbn [stripTrailingQuote].
  rewrite IH. destruct s; reflexivity.
Qed.

Lemma cleanValue_quoted s : hasDoubledQuote s = false -> cleanValue (quoted s) = s.
Proof.
  intros H. unfold cleanValue, quoted, trim.
  cbn [append trimStart]. change (isWhiteSpace quote) with false. cbv iota.
  change (String quote (s ++ String quote EmptyString))
    with ((String quote s) ++ String quote EmptyString)%string.
  rewrite trimEnd_snoc by reflexivity.
  cbn [append stripQuotes]. rewrite Ascii.eqb_refl.
  rewrite stripTrailingQuote_snoc. now apply undoubleQuotes_id.
Qed.

Lemma split_not_nil sep s : split sep s <> [].
Proof.
  destruct s as [|c r]; simpl; [discriminate|].
  destruct (Ascii.eqb c sep); [discriminate|].
  destruct (split sep r); discriminate.
Qed.

(** A first line without the separator is the first piece of the split. *)
Lemma split_first_line sep h body :
  hasChar sep h = false ->
  split sep (h ++ String sep body) = h :: split sep body.
Proof.
  induction h as [|c h IH]; simpl; intros H.
  - now rewrite Ascii.eqb_refl.
  - apply orb_false_iff in H. destruct H as [Hc Hh].
    rewrite Hc, (IH Hh). reflexivity.
Qed.

Lemma split_plain sep s : hasChar sep s = false -> split sep s = [s].
Proof.
  induction s as [|c s IH]; simpl; intros H; [reflexivity|].
  apply orb_false_iff in H. destruct H as [Hc Hs].
  now rewrite Hc, (IH Hs).
Qed.

(** Lines without a line break are what [split] gives back from [join]. *)
Lemma split_join sep l ls :
  Forall (fun x => hasChar sep x = false) (l :: ls) ->
  split sep (join (String sep EmptyString) (l :: ls)) = l :: ls.
Proof.
  revert l. induction ls as [|y ls IH]; intros l H.
  - inversion H; subst. now apply split_plain.
  - inversion H as [|? ? Hl Hrest]; subst.
    change (join (String sep EmptyString) (l :: y :: ls))
      with (l ++ String sep (join (String sep EmptyString) (y :: ls)))%string.
    rewrite split_first_line by assumption.
    now rewrite IH.
Qed.

(** ** Numbers *)

(** *** Digits *)

Lemma digitChar_spec d :
  0 <= d <= 9 -> isDigit (digitChar d) = true /\ digitValue (digitChar d) = d.
Proof.
  intros H.
  assert (Hd : d = 0 \/ d = 1 \/ d = 2 \/ d = 3 \/ d = 4 \/ d = 5 \/ d = 6 \/
               d = 7 \/ d = 8 \/ d = 9) by lia.
  repeat (destruct Hd as [->|Hd]; [split; reflexivity|]).
  subst d. split; reflexivity.
Qed.

Lemma mod10_digit n : 0 <= n mod 10 <= 9.
Proof. pose proof (Z.mod_pos_bound n 10). lia. Qed.

Lemma digitsAux_app fuel n acc :
  digitsAux fuel n acc = (digitsAux fuel n EmptyString ++ acc)%string.
Proof.
  revert n acc. induction fuel as [|fuel IH]; intros n acc; simpl.
  - reflexivity.
  - destruct (n <? 10); [reflexivity|].
    rewrite (IH _ (String _ acc)), (IH _ (String _ EmptyString)).
    now rewrite append_assoc.
Qed.

Lemma digitsAux_allDigits fuel n acc :
  allChars isDigit acc = true -> allChars isDigit (digitsAux fuel n acc) = true.
Proof.
  revert n acc. induction fuel as [|fuel IH]; intros n acc H; simpl.
  - assumption.
  - assert (Hacc : allChars isDigit (String (digitChar (n mod 10)) acc) = true).
    { simpl. rewrite H.
      now rewrite (proj1 (digitChar_spec _ (mod10_digit n))). }
    destruct (n <? 10); [assumption|]. now apply IH.
Qed.

Lemma digits_allDigits n : allChars isDigit (digits n) = true.
Proof. unfold digits. now apply digitsAux_allDigits. Qed.

Lemma digits_not_empty n : digits n <> EmptyString.
Proof.
  unfold digits. simpl. destruct (n <? 10); [discriminate|].
  rewrite digitsAux_app. destruct (digitsAux _ _ EmptyString); discriminate.
Qed.

Lemma decimalAcc_app a b x :
  decimalAcc (a ++ b) x = decimalAcc b (decimalAcc a x).
Proof.
  revert x. induction a as [|c a IH]; intros x; simpl; [reflexivity|].
  apply IH.
Qed.

Lemma decimalAcc_digitsAux fuel n s :
  0 <= n < 10 ^ Z.of_nat fuel ->
  decimalAcc (digitsAux fuel n s) 0 = decimalAcc s n.
Proof.
  revert n s. induction fuel as [|fuel IH]; intros n s Hn.
  - simpl in Hn. assert (n = 0) by lia. subst. reflexivity.
  - cbn [digitsAux]. destruct (n <? 10) eqn:E.
    + apply Z.ltb_lt in E. cbn [decimalAcc].
      rewrite Z.mod_small by lia.
      rewrite (proj2 (digitChar_spec n ltac:(lia))). f_equal.
    + apply Z.ltb_ge in E. rewrite IH.
      * cbn [decimalAcc].
        rewrite (proj2 (digitChar_spec _ (mod10_digit n))). f_equal.
        pose proof (Z.div_mod n 10). lia.
      * rewrite Nat2Z.inj_succ, Z.pow_succ_r in Hn by lia.
        split; [apply Z.div_pos; lia|].
        apply Z.div_lt_upper_bound; lia.
Qed.

Lemma log2_fuel n : 0 <= n -> n < 10 ^ Z.of_nat (S (Z.to_nat (Z.log2 n))).
Proof.
  intros Hn. rewrite Nat2Z.inj_succ, Z2Nat.id by apply Z.log2_nonneg.
  destruct (Z.eq_dec n 0) as [->|Hz].
  - simpl. lia.
  - pose proof (Z.log2_spec n ltac:(lia)) as [_ H].
    eapply Z.lt_le_trans; [exact H|].
    apply Z.pow_le_mono_l. lia.
Qed.

Lemma decimalValue_digits n : 0 <= n -> decimalValue (digits n) = n.
Proof.
  intros Hn. unfold decimalValue, digits.
  rewrite decimalAcc_digitsAux; [reflexivity|].
  split; [assumption|now apply log2_fuel].
Qed.

(** The digits of a positive number are no more than its size allows. *)
Lemma digitsAux_length fuel n acc :
  0 < n ->
  exists d, String.length (digitsAux (S fuel) n acc) = (S d + String.length acc)%nat
            /\ 10 ^ Z.of_nat d <= n.
Proof.
  revert n acc. induction fuel as [|fuel IH]; intros n acc Hn.
  - exists 0%nat. simpl. destruct (n <? 10); simpl; split; lia.
  - remember (S fuel) as f. cbn [digitsAux].
    destruct (n <? 10) eqn:E.
    + exists 0%nat. simpl. split; lia.
    + apply Z.ltb_ge in E. subst f.
      destruct (IH (n / 10) (String (digitChar (n mod 10)) acc)) as [d [Hd Hp]].
      { apply Z.div_str_pos. lia. }
      exists (S d). split.
      * rewrite Hd. simpl. lia.
      * rewrite Nat2Z.inj_succ, Z.pow_succ_r by lia.
        pose proof (Z.div_mod n 10). pose proof (mod10_digit n). lia.
Qed.

Lemma digits_length n :
  0 < n -> 10 ^ (Z.of_nat (String.length (digits n)) - 1) <= n.
Proof.
  intros Hn. unfold digits.
  destruct (digitsAux_length (Z.to_nat (Z.log2 n)) n EmptyString Hn)
    as [d [Hd Hp]].
  rewrite Hd. simpl String.length.
  replace (Z.of_nat (S d + 0) - 1) with (Z.of_nat d) by lia. exact Hp.
Qed.

(** *** Normal forms *)

Lemma strip_zeros_spec fuel m e m' e' :
  strip_zeros fuel m e = (m', e') ->
  e <= e' /\ m = m' * 10 ^ (e' - e) /\ (m <> 0 -> m' <> 0).
Proof.
  revert m e. induction fuel as [|fuel IH]; intros m e H; simpl in H.
  - inversion H; subst. rewrite Z.sub_diag. simpl. lia.
  - destruct (m mod 10 =? 0) eqn:E.
    + apply Z.eqb_eq in E. apply IH in H. destruct H as [He [Hm Hz]].
      split; [lia|]. split.
      * replace (e' - e) with (Z.succ (e' - (e + 1))) by lia.
        rewrite Z.pow_succ_r by lia.
        pose proof (Z.div_mod m 10). lia.
      * intros Hm0. apply Hz. pose proof (Z.div_mod m 10). lia.
    + inversion H; subst. rewrite Z.sub_diag. simpl. lia.
Qed.

Lemma strip_zeros_complete fuel m e :
  m <> 0 -> Z.abs m < 2 ^ Z.of_nat fuel ->
  fst (strip_zeros fuel m e) mod 10 <> 0.
Proof.
  revert m e. induction fuel as [|fuel IH]; intros m e Hm Hb.
  - simpl in Hb. lia.
  - cbn [strip_zeros]. destruct (m mod 10 =? 0) eqn:E.
    + apply Z.eqb_eq in E. pose proof (Z.div_mod m 10) as Hd.
      apply IH; [lia|].
      rewrite Nat2Z.inj_succ, Z.pow_succ_r in Hb by lia. lia.
    + apply Z.eqb_neq in E. exact E.
Qed.

Lemma abs_lt_log2_fuel m :
  Z.abs m < 2 ^ Z.of_nat (S (Z.to_nat (Z.log2 (Z.abs m)))).
Proof.
  rewrite Nat2Z.inj_succ, Z2Nat.id by apply Z.log2_nonneg.
  destruct (Z.eq_dec m 0) as [->|Hm].
  - simpl. lia.
  - apply Z.log2_spec. lia.
Qed.

Lemma normalize_isNormal m e : isNormal (normalize m e).
Proof.
  unfold normalize. destruct (m =? 0) eqn:E.
  - simpl. now left.
  - apply Z.eqb_neq in E.
    pose proof (strip_zeros_complete _ m e E (abs_lt_log2_fuel m)) as H.
    destruct (strip_zeros _ m e) as [m' e']. simpl in *. now right.
Qed.

Lemma normalize_normal m e : isNormal (Finite m e) -> normalize m e = Finite m e.
Proof.
  unfold normalize. intros [[-> ->]|H]; [reflexivity|].
  assert (Hm : m <> 0) by (intros ->; now apply H).
  apply Z.eqb_neq in Hm. rewrite Hm.
  cbn [strip_zeros]. apply Z.eqb_neq in H. now rewrite H.
Qed.

(** The value that [normalize] keeps: [m * 10^e]. *)
Lemma normalize_spec m e :
  m <> 0 ->
  exists m' e', normalize m e = Finite m' e' /\ e <= e' /\
                m = m' * 10 ^ (e' - e) /\ m' mod 10 <> 0.
Proof.
  intros Hm. pose proof (normalize_isNormal m e) as Hn.
  unfold normalize in *. apply Z.eqb_neq in Hm. rewrite Hm in *.
  destruct (strip_zeros _ m e) as [m' e'] eqn:Es.
  apply strip_zeros_spec in Es. destruct Es as [He [Hv Hz]].
  exists m', e'. split; [reflexivity|]. split; [assumption|].
  split; [assumption|]. apply Z.eqb_neq in Hm.
  destruct Hn as [[Hm' _]|Hn]; [now apply Hz in Hm|assumption].
Qed.

Lemma strip_zeros_pow j fuel m e :
  m mod 10 <> 0 -> (j < fuel)%nat ->
  strip_zeros fuel (m * 10 ^ Z.of_nat j) e = (m, e + Z.of_nat j).
Proof.
  intros Hm. revert fuel e. induction j as [|j IH]; intros fuel e Hf.
  - destruct fuel as [|fuel]; [lia|].
    rewrite Z.mul_1_r, Z.add_0_r. cbn [strip_zeros].
    apply Z.eqb_neq in Hm. now rewrite Hm.
  - destruct fuel as [|fuel]; [lia|]. cbn [strip_zeros].
    rewrite Nat2Z.inj_succ, Z.pow_succ_r by lia.
    replace (m * (10 * 10 ^ Z.of_nat j)) with ((m * 10 ^ Z.of_nat j) * 10) by lia.
    rewrite Z.mod_mul by lia. rewrite Z.eqb_refl.
    rewrite Z.div_mul by lia. rewrite IH by lia. f_equal. lia.
Qed.

Lemma normalize_shift m j e :
  m mod 10 <> 0 -> 0 <= j -> normalize (m * 10 ^ j) e = Finite m (e + j).
Proof.
  intros Hm Hj.
  assert (Hm0 : m <> 0) by (intros ->; now apply Hm).
  assert (Hp : 0 < 10 ^ j) by (apply Z.pow_pos_nonneg; lia).
  unfold normalize.
  assert (Hz : m * 10 ^ j <> 0) by nia.
  apply Z.eqb_neq in Hz. rewrite Hz.
  rewrite <- (Z2Nat.id j Hj) at 2.
  rewrite strip_zeros_pow; [now rewrite Z2Nat.id|assumption|].
  assert (j <= Z.log2 (Z.abs (m * 10 ^ j))).
  { rewrite <- (Z.log2_pow2 j Hj) at 1. apply Z.log2_le_mono.
    rewrite Z.abs_mul, (Z.abs_eq (10 ^ j)) by lia.
    assert (2 ^ j <= 10 ^ j) by (apply Z.pow_le_mono_l; lia).
    nia. }
  lia.
Qed.

Lemma ofZ_spec z :
  z <> 0 ->
  exists m e, ofZ z = Finite m e /\ 0 <= e /\ z = m * 10 ^ e /\ m mod 10 <> 0.
Proof.
  intros Hz. destruct (normalize_spec z 0 Hz) as [m [e [H1 [H2 [H3 H4]]]]].
  exists m, e. rewrite Z.sub_0_r in H3. auto.
Qed.

(** *** What a printed number looks like *)

Lemma isDigit_plain c : isDigit c = true -> plainChar c = true.
Proof.
  destruct c as [[] [] [] [] [] [] [] []]; vm_compute; congruence.
Qed.

Lemma isDigit_not_space c : isDigit c = true -> isWhiteSpace c = false.
Proof. intros H. apply plainChar_not_space. now apply isDigit_plain. Qed.

Lemma takeSign_digit c r :
  isDigit c = true -> takeSign (String c r) = (false, String c r).
Proof.
  destruct c as [[] [] [] [] [] [] [] []]; vm_compute; congruence.
Qed.

Lemma digits_plain s : allChars isDigit s = true -> allChars plainChar s = true.
Proof. apply allChars_impl. exact isDigit_plain. Qed.

Lemma zeros_allDigits n : allChars isDigit (zeros n) = true.
Proof. induction n as [|n IH]; simpl; [reflexivity|assumption]. Qed.

Lemma takeS_dropS n s : (takeS n s ++ dropS n s)%string = s.
Proof.
  revert s. induction n as [|n IH]; intros s; [reflexivity|].
  destruct s as [|c s]; simpl; [reflexivity|]. now rewrite IH.
Qed.

Lemma takeS_allChars f n s : allChars f s = true -> allChars f (takeS n s) = true.
Proof.
  intros H. rewrite <- (takeS_dropS n s), allChars_app in H.
  now apply andb_true_iff in H.
Qed.

Lemma dropS_allChars f n s : allChars f s = true -> allChars f (dropS n s) = true.
Proof.
  intros H. rewrite <- (takeS_dropS n s), allChars_app in H.
  now apply andb_true_iff in H.
Qed.

Lemma dropS_length n s :
  String.length (dropS n s) = (String.length s - n)%nat.
Proof.
  revert s. induction n as [|n IH]; intros s; simpl; [lia|].
  destruct s as [|c s]; simpl; [reflexivity|apply IH].
Qed.

Lemma layoutDigits_plain s e :
  allChars isDigit s = true -> allChars plainChar (layoutDigits s e) = true.
Proof.
  intros H. pose proof (digits_plain s H) as Hp. unfold layoutDigits.
  repeat match goal with
         | |- context [if ?b then _ else _] => destruct b
         end;
    repeat rewrite allChars_app; cbn [allChars append];
    repeat rewrite allChars_app;
    rewrite ?Hp, ?(takeS_allChars _ _ _ Hp), ?(dropS_allChars _ _ _ Hp),
      ?(digits_plain _ (zeros_allDigits _)),
      ?(digits_plain _ (digits_allDigits _));
    reflexivity.
Qed.

(** A printed number holds no white space, no comma and no quote. *)
Lemma numberToString_plain x : allChars plainChar (numberToString x) = true.
Proof.
  destruct x as [|[]|m e]; try reflexivity.
  unfold numberToString. destruct (normalize m e) as [|b|m' e']; try reflexivity.
  destruct (m' =? 0); [reflexivity|].
  rewrite allChars_app, layoutDigits_plain by apply digits_allDigits.
  destruct (m' <? 0); reflexivity.
Qed.

Lemma span_allDigits s :
  allChars isDigit s = true -> span isDigit s = (s, EmptyString).
Proof.
  induction s as [|c s IH]; simpl; [reflexivity|].
  intros H. apply andb_true_iff in H. destruct H as [Hc Hs].
  now rewrite Hc, (IH Hs).
Qed.

(** Digits followed by a character that is not a digit. *)
Lemma span_digits_stop a c r :
  allChars isDigit a = true -> isDigit c = false ->
  span isDigit (a ++ String c r) = (a, String c r).
Proof.
  intros Ha Hc. induction a as [|x a IH]; simpl.
  - now rewrite Hc.
  - simpl in Ha. apply andb_true_iff in Ha. destruct Ha as [Hx Ha].
    now rewrite Hx, (IH Ha).
Qed.

Lemma decimalAcc_zeros k x : decimalAcc (zeros k) x = x * 10 ^ Z.of_nat k.
Proof.
  revert x. induction k as [|k IH]; intros x.
  - simpl. lia.
  - cbn [zeros decimalAcc]. rewrite IH.
    change (digitValue "0") with 0.
    rewrite Nat2Z.inj_succ, Z.pow_succ_r by lia. lia.
Qed.

(** *** Integers read back *)

(** [parseInt] on a string of digits, with or without a minus sign. *)
Lemma parseInt_digits ds :
  allChars isDigit ds = true -> ds <> EmptyString ->
  parseInt ds = Some (decimalValue ds) /\
  parseInt (String "-"%char ds) = Some (- decimalValue ds).
Proof.
  intros Hds Hne. destruct ds as [|c r]; [congruence|]. clear Hne.
  pose proof Hds as Hc. simpl in Hc. apply andb_true_iff in Hc.
  destruct Hc as [Hc Hr].
  assert (Hbody : forall sgn,
    match String c r with
    | String "0"%char (String x r') =>
        if Ascii.eqb x "x"%char || Ascii.eqb x "X"%char then
          let (p, _) := span isHexDigit r' in
          match p with
          | EmptyString => None
          | _ => Some (sgn * hexStringValue p)
          end
        else
          let (p, _) := span isDigit (String c r) in Some (sgn * decimalValue p)
    | _ =>
        let (p, _) := span isDigit (String c r) in
        match p with
        | EmptyString => None
        | _ => Some (sgn * decimalValue p)
        end
    end = Some (sgn * decimalValue (String c r))).
  { intros sgn. rewrite (span_allDigits _ Hds).
    destruct (Ascii.eqb c "0"%char) eqn:E0.
    - apply Ascii.eqb_eq in E0. subst c. destruct r as [|x r']; [reflexivity|].
      simpl in Hr. apply andb_true_iff in Hr. destruct Hr as [Hx _].
      assert (Hxx : Ascii.eqb x "x"%char || Ascii.eqb x "X"%char = false).
      { destruct x as [[] [] [] [] [] [] [] []]; vm_compute in Hx |- *;
          congruence. }
      now rewrite Hxx.
    - destruct c as [[] [] [] [] [] [] [] []]; try reflexivity;
        discriminate. }
  split.
  - unfold parseInt. cbn [trimStart]. rewrite (isDigit_not_space c Hc).
    rewrite (takeSign_digit c r Hc). rewrite (Hbody 1). f_equal; lia.
  - unfold parseInt. cbn [trimStart].
    change (isWhiteSpace "-") with false. cbv iota.
    change (takeSign (String "-"%char (String c r))) with (true, String c r).
    cbv iota beta. rewrite (Hbody (-1)). f_equal; lia.
Qed.

Lemma numberToString_integer z :
  z <> 0 -> Z.abs z < 10 ^ 21 ->
  exists m e, 0 <= e /\ z = m * 10 ^ e /\ m <> 0 /\
    numberToString (ofZ z) =
      ((if (m <? 0)%Z then "-" else EmptyString) ++
       digits (Z.abs m) ++ zeros (Z.to_nat e))%string.
Proof.
  intros Hz Hb. destruct (ofZ_spec z Hz) as [m [e [Ho [He [Hv Hm]]]]].
  assert (Hm0 : m <> 0) by (intros ->; now apply Hm).
  exists m, e. repeat split; try assumption.
  rewrite Ho. unfold numberToString.
  rewrite normalize_normal by (now right).
  apply Z.eqb_neq in Hm0. rewrite Hm0. f_equal.
  unfold layoutDigits.
  set (k := Z.of_nat (String.length (digits (Z.abs m)))).
  assert (Hk : k + e <= 21).
  { apply Z.eqb_neq in Hm0.
    pose proof (digits_length (Z.abs m) ltac:(lia)) as Hd. fold k in Hd.
    assert (Hk1 : 1 <= k).
    { subst k. pose proof (digits_not_empty (Z.abs m)).
      destruct (digits (Z.abs m)); [congruence|simpl; lia]. }
    assert (Hp : 10 ^ (k - 1 + e) < 10 ^ 21).
    { rewrite Z.pow_add_r by lia.
      assert (0 < 10 ^ e) by (apply Z.pow_pos_nonneg; lia).
      rewrite Hv, Z.abs_mul, (Z.abs_eq (10 ^ e)) in Hb by lia. nia. }
    apply Z.pow_lt_mono_r_iff in Hp; lia. }
  assert (Hc : (k <=? k + e) && (k + e <=? 21) = true).
  { apply andb_true_iff. split; apply Z.leb_le; lia. }
  rewrite Hc. do 2 f_equal. lia.
Qed.

(** An integer below 10^21 in size is printed in plain digits, and
    [parseInt] reads it back. *)
Lemma parseInt_numberToString z :
  Z.abs z < 10 ^ 21 -> parseIntOr0 (numberToString (ofZ z)) = z.
Proof.
  intros Hb. destruct (Z.eq_dec z 0) as [->|Hz]; [reflexivity|].
  destruct (numberToString_integer z Hz Hb) as [m [e [He [Hv [Hm Hs]]]]].
  rewrite Hs. unfold parseIntOr0.
  assert (Hd : allChars isDigit (digits (Z.abs m) ++ zeros (Z.to_nat e)) = true).
  { now rewrite allChars_app, digits_allDigits, zeros_allDigits. }
  assert (Hne : (digits (Z.abs m) ++ zeros (Z.to_nat e))%string <> EmptyString).
  { pose proof (digits_not_empty (Z.abs m)).
    destruct (digits (Z.abs m)); [congruence|discriminate]. }
  destruct (parseInt_digits _ Hd Hne) as [Hpos Hneg].
  assert (Hval : decimalValue (digits (Z.abs m) ++ zeros (Z.to_nat e))
                 = Z.abs m * 10 ^ e).
  { unfold decimalValue. rewrite decimalAcc_app, decimalAcc_zeros.
    fold (decimalValue (digits (Z.abs m))).
    rewrite decimalValue_digits by lia. now rewrite Z2Nat.id. }
  destruct (m <? 0) eqn:E.
  - apply Z.ltb_lt in E. cbn [append]. rewrite Hneg, Hval. nia.
  - apply Z.ltb_ge in E. cbn [append]. rewrite Hpos, Hval. nia.
Qed.

(** *** Decimals read back *)

Lemma span_digits a r :
  allChars isDigit a = true -> stopsDigits r ->
  span isDigit (a ++ r) = (a, r).
Proof.
  intros Ha Hr. destruct r as [|c r].
  - rewrite append_empty_r. now apply span_allDigits.
  - now apply span_digits_stop.
Qed.

Lemma unsignedDecimal_int ip r2 :
  allChars isDigit ip = true -> ip <> EmptyString ->
  stopsDigits r2 ->
  (forall r, r2 <> String "."%char r) ->
  unsignedDecimal (ip ++ r2) = Some (decimalValue ip, exponentPart r2).
Proof.
  intros Hip Hne Hstop Hdot. unfold unsignedDecimal.
  rewrite (span_digits ip r2 Hip Hstop).
  assert (Hr : match r2 with
               | String "."%char r' =>
                   let (f, r'') := span isDigit r' in
                   match ip, f with
                   | EmptyString, EmptyString => (EmptyString, r2)
                   | _, _ => (f, r'')
                   end
               | _ => (EmptyString, r2)
               end = (EmptyString, r2)).
  { destruct r2 as [|c r]; [reflexivity|].
    destruct (Ascii.eqb c "."%char) eqn:E.
    - apply Ascii.eqb_eq in E. subst c. now destruct (Hdot r).
    - destruct c as [[] [] [] [] [] [] [] []]; try reflexivity;
        discriminate. }
  rewrite Hr, append_empty_r.
  destruct ip; [congruence|]. cbn [String.length Z.of_nat].
  now rewrite Z.sub_0_r.
Qed.

Lemma unsignedDecimal_frac ip fp r2 :
  allChars isDigit ip = true -> allChars isDigit fp = true ->
  (ip ++ fp)%string <> EmptyString ->
  stopsDigits r2 ->
  unsignedDecimal (ip ++ String "."%char (fp ++ r2)) =
    Some (decimalValue (ip ++ fp),
          exponentPart r2 - Z.of_nat (String.length fp)).
Proof.
  intros Hip Hfp Hne Hstop. unfold unsignedDecimal.
  rewrite (span_digits_stop ip "."%char (fp ++ r2) Hip eq_refl).
  rewrite (span_digits fp r2 Hfp Hstop).
  destruct ip as [|i ip]; destruct fp as [|f fp];
    try (cbn [append] in Hne; congruence); reflexivity.
Qed.

Lemma exponentPart_printed ex :
  exponentPart
    (String "e"%char
       ((if (ex <? 0)%Z then "-" else "+") ++ digits (Z.abs ex))) = ex.
Proof.
  unfold exponentPart. change (Ascii.eqb "e" "e" || Ascii.eqb "e" "E") with true.
  cbv iota.
  pose proof (digits_not_empty (Z.abs ex)) as Hne.
  pose proof (span_allDigits _ (digits_allDigits (Z.abs ex))) as Hsp.
  pose proof (decimalValue_digits (Z.abs ex) ltac:(lia)) as Hv.
  destruct (ex <? 0) eqn:E; cbn [append takeSign]; rewrite Hsp;
    destruct (digits (Z.abs ex)); try congruence; rewrite Hv.
  - apply Z.ltb_lt in E. lia.
  - apply Z.ltb_ge in E. lia.
Qed.

Lemma stopsDigits_e r : stopsDigits (String "e"%char r).
Proof. reflexivity. Qed.

(** What [unsignedDecimal] reads in the digits [digits a] laid out with the
    exponent [e]: the same value [a * 10^e]. *)
Lemma unsignedDecimal_layout a e :
  0 < a ->
  exists v e2,
    unsignedDecimal (layoutDigits (digits a) e) = Some (v, e2) /\
    ((v = a /\ e2 = e) \/ (0 <= e /\ v = a * 10 ^ e /\ e2 = 0)).
Proof.
  intros Ha.
  pose proof (digits_allDigits a) as HD.
  pose proof (digits_not_empty a) as Hne.
  pose proof (decimalValue_digits a ltac:(lia)) as Hval.
  unfold layoutDigits.
  set (D := digits a) in *.
  set (k := Z.of_nat (String.length D)).
  assert (Hk : 1 <= k).
  { subst k. destruct D; [congruence|simpl; lia]. }
  destruct ((k <=? k + e) && (k + e <=? 21)) eqn:C1.
  { (* digits and zeros *)
    apply andb_true_iff in C1. destruct C1 as [C1 _]. apply Z.leb_le in C1.
    replace (k + e - k) with e by lia.
    exists (a * 10 ^ e), 0. split; [|right; repeat split; lia].
    rewrite <- (append_empty_r (D ++ zeros (Z.to_nat e))).
    rewrite unsignedDecimal_int.
    - f_equal. f_equal. unfold decimalValue.
      rewrite decimalAcc_app, decimalAcc_zeros. fold (decimalValue D).
      rewrite Hval, Z2Nat.id by lia. reflexivity.
    - now rewrite allChars_app, HD, zeros_allDigits.
    - destruct D; [congruence|discriminate].
    - exact I.
    - discriminate. }
  destruct ((0 <? k + e) && (k + e <=? 21)) eqn:C2.
  { (* a decimal point inside the digits *)
    apply andb_true_iff in C2. destruct C2 as [C2 C2'].
    apply Z.ltb_lt in C2. apply Z.leb_le in C2'.
    assert (Hlt : k + e < k).
    { apply andb_false_iff in C1. destruct C1 as [C1|C1];
        [apply Z.leb_gt in C1|apply Z.leb_gt in C1]; lia. }
    exists a, e. split; [|left; split; reflexivity].
    rewrite <- (append_empty_r (dropS (Z.to_nat (k + e)) D)).
    change (takeS (Z.to_nat (k + e)) D ++ "." ++
            dropS (Z.to_nat (k + e)) D ++ EmptyString)%string
      with (takeS (Z.to_nat (k + e)) D ++
            String "."%char (dropS (Z.to_nat (k + e)) D ++ EmptyString))%string.
    rewrite unsignedDecimal_frac.
    - rewrite takeS_dropS, Hval, dropS_length. f_equal. f_equal.
      cbn [exponentPart]. subst k. lia.
    - now apply takeS_allChars.
    - now apply dropS_allChars.
    - now rewrite takeS_dropS.
    - exact I. }
  destruct ((-6 <? k + e) && (k + e <=? 0)) eqn:C3.
  { (* zeros after the decimal point *)
    apply andb_true_iff in C3. destruct C3 as [_ C3]. apply Z.leb_le in C3.
    exists a, e. split; [|left; split; reflexivity].
    change ("0." ++ zeros (Z.to_nat (- (k + e))) ++ D)%string
      with ("0" ++ String "."%char (zeros (Z.to_nat (- (k + e))) ++ D))%string.
    rewrite <- (append_empty_r (zeros (Z.to_nat (- (k + e))) ++ D)).
    rewrite unsignedDecimal_frac.
    - f_equal. f_equal.
      + unfold decimalValue.
        rewrite !decimalAcc_app, decimalAcc_zeros.
        change (decimalAcc "0" 0) with 0. rewrite Z.mul_0_l.
        exact Hval.
      + rewrite length_append. cbn [exponentPart].
        assert (Hz : forall n, String.length (zeros n) = n).
        { induction n as [|n IH]; simpl; [reflexivity|now rewrite IH]. }
        rewrite Hz. subst k. lia.
    - reflexivity.
    - now rewrite allChars_app, zeros_allDigits.
    - discriminate.
    - exact I. }
  (* exponent notation *)
  assert (Hex : k + e - 1 = e + (k - 1)) by lia.
  exists a, e. split; [|left; split; reflexivity].
  destruct (k =? 1) eqn:K1.
  - apply Z.eqb_eq in K1.
    change (D ++ "e" ++ (if (k + e - 1 <? 0)%Z then "-" else "+") ++
            digits (Z.abs (k + e - 1)))%string
      with (D ++ String "e"%char
              ((if (k + e - 1 <? 0)%Z then "-" else "+") ++
               digits (Z.abs (k + e - 1))))%string.
    rewrite unsignedDecimal_int.
    + rewrite exponentPart_printed, Hval. f_equal. f_equal. lia.
    + exact HD.
    + exact Hne.
    + reflexivity.
    + discriminate.
  - change (takeS 1 D ++ "." ++ dropS 1 D ++ "e" ++
            (if (k + e - 1 <? 0)%Z then "-" else "+") ++
            digits (Z.abs (k + e - 1)))%string
      with (takeS 1 D ++ String "."%char
              (dropS 1 D ++ String "e"%char
                 ((if (k + e - 1 <? 0)%Z then "-" else "+") ++
                  digits (Z.abs (k + e - 1)))))%string.
    rewrite unsignedDecimal_frac.
    + rewrite exponentPart_printed, takeS_dropS, Hval, dropS_length.
      f_equal. f_equal. subst k. lia.
    + now apply takeS_allChars.
    + now apply dropS_allChars.
    + now rewrite takeS_dropS.
    + reflexivity.
Qed.

Lemma layoutDigits_head a e :
  0 < a ->
  exists c r, layoutDigits (digits a) e = String c r /\ isDigit c = true.
Proof.
  intros Ha. pose proof (digits_allDigits a) as HD.
  pose proof (digits_not_empty a) as Hne.
  unfold layoutDigits. destruct (digits a) as [|d D']; [congruence|].
  simpl in HD. apply andb_true_iff in HD. destruct HD as [Hd _].
  set (k := Z.of_nat (String.length (String d D'))).
  destruct ((k <=? k + e) && (k + e <=? 21)).
  { eexists. eexists. split; [reflexivity|assumption]. }
  destruct ((0 <? k + e) && (k + e <=? 21)) eqn:C2.
  { apply andb_true_iff in C2. destruct C2 as [C2 _]. apply Z.ltb_lt in C2.
    destruct (Z.to_nat (k + e)) as [|n] eqn:En; [lia|].
    eexists. eexists. split; [reflexivity|assumption]. }
  destruct ((-6 <? k + e) && (k + e <=? 0)).
  { eexists. eexists. split; reflexivity. }
  destruct (k =? 1); eexists; eexists; (split; [reflexivity|assumption]).
Qed.

Lemma startsWith_Infinity_digit c r :
  isDigit c = true -> startsWith "Infinity" (String c r) = false.
Proof.
  destruct c as [[] [] [] [] [] [] [] []]; intros H; try discriminate H;
    reflexivity.
Qed.

(** A non-zero decimal in normal form is read back from its printed form. *)
Lemma parseFloat_printed m e :
  m mod 10 <> 0 -> parseFloat (numberToString (Finite m e)) = Finite m e.
Proof.
  intros Hm.
  assert (Hm0 : m <> 0) by (intros ->; now apply Hm).
  unfold numberToString. rewrite normalize_normal by (now right).
  pose proof Hm0 as Hb. apply Z.eqb_neq in Hb. rewrite Hb.
  assert (Ha : 0 < Z.abs m) by lia.
  destruct (layoutDigits_head (Z.abs m) e Ha) as [c [r [HL Hc]]].
  destruct (unsignedDecimal_layout (Z.abs m) e Ha) as [v [e2 [Hu Hv]]].
  unfold parseFloat.
  destruct (m <? 0) eqn:E.
  - apply Z.ltb_lt in E. cbn [append trimStart].
    change (isWhiteSpace "-") with false. cbv iota.
    change (takeSign (String "-"%char (layoutDigits (digits (Z.abs m)) e)))
      with (true, layoutDigits (digits (Z.abs m)) e).
    cbv iota beta. rewrite Hu. rewrite HL at 1.
    rewrite (startsWith_Infinity_digit c r Hc).
    destruct Hv as [[-> ->]|[He [-> ->]]].
    + replace (- Z.abs m) with m by lia. apply normalize_normal. now right.
    + replace (- (Z.abs m * 10 ^ e)) with (m * 10 ^ e) by lia.
      now rewrite normalize_shift.
  - apply Z.ltb_ge in E. cbn [append].
    assert (Ht : trimStart (layoutDigits (digits (Z.abs m)) e)
                 = layoutDigits (digits (Z.abs m)) e).
    { rewrite HL. cbn [trimStart]. now rewrite (isDigit_not_space c Hc). }
    assert (Hs : takeSign (layoutDigits (digits (Z.abs m)) e)
                 = (false, layoutDigits (digits (Z.abs m)) e)).
    { rewrite HL. now apply takeSign_digit. }
    assert (Hi : startsWith "Infinity" (layoutDigits (digits (Z.abs m)) e)
                 = false).
    { rewrite HL. now apply startsWith_Infinity_digit. }
    rewrite Ht, Hs, Hi, Hu.
    destruct Hv as [[-> ->]|[He [-> ->]]].
    + replace (Z.abs m) with m by lia. apply normalize_normal. now right.
    + replace (Z.abs m) with m by lia. now rewrite normalize_shift.
Qed.

(** Every number of the model but NaN is read back from its printed form. *)
Lemma parseFloat_numberToString x :
  isNormal x -> x <> NaN -> parseFloatOr0 (numberToString x) = x.
Proof.
  intros Hn Hx. destruct x as [|[]|m e]; [congruence|reflexivity|reflexivity|].
  destruct Hn as [[-> ->]|Hm]; [reflexivity|].
  unfold parseFloatOr0. rewrite (parseFloat_printed m e Hm).
  unfold number_or, truthy.
  assert (Hm0 : m <> 0) by (intros ->; now apply Hm).
  apply Z.eqb_neq in Hm0. now rewrite Hm0.
Qed.

(** *** Doubles that hold integers *)

Lemma strip_twos_spec fuel m e m' e' :
  strip_twos fuel m e = (m', e') ->
  e <= e' /\ m = m' * 2 ^ (e' - e) /\ (m <> 0 -> m' <> 0).
Proof.
  revert m e. induction fuel as [|fuel IH]; intros m e H; simpl in H.
  - inversion H; subst. rewrite Z.sub_diag. simpl. lia.
  - destruct (m mod 2 =? 0) eqn:E.
    + apply Z.eqb_eq in E. apply IH in H. destruct H as [He [Hm Hz]].
      split; [lia|]. split.
      * replace (e' - e) with (Z.succ (e' - (e + 1))) by lia.
        rewrite Z.pow_succ_r by lia.
        pose proof (Z.div_mod m 2). lia.
      * intros Hm0. apply Hz. pose proof (Z.div_mod m 2). lia.
    + inversion H; subst. rewrite Z.sub_diag. simpl. lia.
Qed.

Lemma strip_twos_complete fuel m e :
  m <> 0 -> Z.abs m < 2 ^ Z.of_nat fuel ->
  fst (strip_twos fuel m e) mod 2 <> 0.
Proof.
  revert m e. induction fuel as [|fuel IH]; intros m e Hm Hb.
  - simpl in Hb. lia.
  - cbn [strip_twos]. destruct (m mod 2 =? 0) eqn:E.
    + apply Z.eqb_eq in E. pose proof (Z.div_mod m 2) as Hd.
      apply IH; [lia|].
      rewrite Nat2Z.inj_succ, Z.pow_succ_r in Hb by lia. lia.
    + apply Z.eqb_neq in E. exact E.
Qed.

Lemma strip_twos_pow j fuel m e :
  m mod 2 <> 0 -> (j < fuel)%nat ->
  strip_twos fuel (m * 2 ^ Z.of_nat j) e = (m, e + Z.of_nat j).
Proof.
  intros Hm. revert fuel e. induction j as [|j IH]; intros fuel e Hf.
  - destruct fuel as [|fuel]; [lia|].
    rewrite Z.mul_1_r, Z.add_0_r. cbn [strip_twos].
    apply Z.eqb_neq in Hm. now rewrite Hm.
  - destruct fuel as [|fuel]; [lia|]. cbn [strip_twos].
    rewrite Nat2Z.inj_succ, Z.pow_succ_r by lia.
    replace (m * (2 * 2 ^ Z.of_nat j)) with ((m * 2 ^ Z.of_nat j) * 2) by lia.
    rewrite Z.mod_mul by lia. rewrite Z.eqb_refl.
    rewrite Z.div_mul by lia. rewrite IH by lia. f_equal. lia.
Qed.

Lemma canonical_odd m j e :
  m mod 2 <> 0 -> 0 <= j -> canonical (m * 2 ^ j) e = dFinite m (e + j).
Proof.
  intros Hm Hj.
  assert (Hm0 : m <> 0) by (intros ->; now apply Hm).
  assert (Hp : 0 < 2 ^ j) by (apply Z.pow_pos_nonneg; lia).
  unfold canonical.
  assert (Hz : m * 2 ^ j <> 0) by nia.
  apply Z.eqb_neq in Hz. rewrite Hz.
  rewrite <- (Z2Nat.id j Hj) at 2.
  rewrite strip_twos_pow; [now rewrite Z2Nat.id|assumption|].
  assert (j <= Z.log2 (Z.abs (m * 2 ^ j))).
  { rewrite <- (Z.log2_pow2 j Hj) at 1. apply Z.log2_le_mono.
    rewrite Z.abs_mul, (Z.abs_eq (2 ^ j)) by lia. nia. }
  lia.
Qed.

(** A non-zero integer is an odd number times a power of 2. *)
Lemma odd_part m :
  m <> 0 -> exists m' k, 0 <= k /\ m = m' * 2 ^ k /\ m' mod 2 <> 0.
Proof.
  intros Hm.
  pose proof (strip_twos_complete _ m 0 Hm (abs_lt_log2_fuel m)) as Hodd.
  destruct (strip_twos (S (Z.to_nat (Z.log2 (Z.abs m)))) m 0) as [m' k] eqn:E.
  apply strip_twos_spec in E. destruct E as [Hk [Hv _]].
  exists m', k. rewrite Z.sub_0_r in Hv. auto.
Qed.

Lemma canonical_shift m j e :
  0 <= j -> canonical (m * 2 ^ j) e = canonical m (e + j).
Proof.
  intros Hj. destruct (Z.eq_dec m 0) as [->|Hm]; [reflexivity|].
  destruct (odd_part m Hm) as [m' [k [Hk [-> Hodd]]]].
  rewrite <- Z.mul_assoc, <- Z.pow_add_r by assumption.
  rewrite !canonical_odd by (assumption || lia). f_equal. lia.
Qed.

(** The double of an integer without rounding. *)
Lemma canonical_int z :
  exists m e, canonical z 0 = dFinite m e /\ 0 <= e /\ z = m * 2 ^ e.
Proof.
  destruct (Z.eq_dec z 0) as [->|Hz].
  - exists 0, 0. repeat split; lia.
  - destruct (odd_part z Hz) as [m [k [Hk [-> Hodd]]]].
    exists m, k. rewrite canonical_odd by assumption. repeat split; lia.
Qed.

(** Integers of at most 53 bits are doubles. *)
Lemma roundRatio_int s n :
  0 <= n <= maxSafeInteger ->
  roundRatio s n 1 = canonical (if s then - n else n) 0.
Proof.
  intros Hn. unfold maxSafeInteger in Hn.
  destruct (Z.eq_dec n 0) as [->|Hn0]; [now destruct s|].
  assert (Hb : 0 <= Z.log2 n <= 52).
  { split; [apply Z.log2_nonneg|].
    assert (Z.log2 n < 53); [|lia]. apply Z.log2_lt_pow2; lia. }
  assert (Hlow : 2 ^ Z.log2 n <= n) by (apply Z.log2_spec; lia).
  unfold roundRatio. apply Z.eqb_neq in Hn0. rewrite Hn0.
  change (Z.log2 1) with 0. rewrite Z.sub_0_r. cbv zeta.
  replace (0 <=? Z.log2 n) with true by (symmetry; apply Z.leb_le; lia).
  rewrite Z.mul_1_l.
  replace (2 ^ Z.log2 n <=? n) with true by (symmetry; apply Z.leb_le; lia).
  rewrite Z.max_l by lia.
  destruct (Z.log2 n - 52 <? 0) eqn:E.
  - apply Z.ltb_lt in E.
    assert (Hp : 0 < 2 ^ (- (Z.log2 n - 52))) by (apply Z.pow_pos_nonneg; lia).
    rewrite Z.div_1_r, Z.mod_1_r. cbn [Z.mul Z.ltb Z.compare orb Z.eqb andb].
    assert (HN : n * 2 ^ (- (Z.log2 n - 52)) <> 0) by (apply Z.eqb_neq in Hn0; nia).
    apply Z.eqb_neq in HN. rewrite HN.
    rewrite Z.log2_mul_pow2 by (apply Z.eqb_neq in Hn0; lia).
    replace (1024 <=? - (Z.log2 n - 52) + Z.log2 n + (Z.log2 n - 52)) with false
      by (symmetry; apply Z.leb_gt; lia).
    replace (if s then - (n * 2 ^ (- (Z.log2 n - 52)))
             else n * 2 ^ (- (Z.log2 n - 52)))
      with ((if s then - n else n) * 2 ^ (- (Z.log2 n - 52)))
      by (destruct s; lia).
    rewrite canonical_shift by lia. f_equal. lia.
  - apply Z.ltb_ge in E. assert (Hl : Z.log2 n = 52) by lia.
    rewrite Hl. change (52 - 52) with 0. change (2 ^ 0) with 1.
    rewrite Z.mul_1_l, Z.div_1_r, Z.mod_1_r.
    cbn [Z.mul Z.ltb Z.compare orb Z.eqb andb].
    rewrite Hn0, Hl. reflexivity.
Qed.

Lemma ofInt_safe z :
  Z.abs z <= maxSafeInteger -> ofInt z = canonical z 0.
Proof.
  intros Hz. unfold ofInt, ofDyadic. change (0 <? 0) with false. cbv iota.
  change (2 ^ 0) with 1. rewrite Z.mul_1_r.
  rewrite roundRatio_int by lia.
  destruct (z <? 0) eqn:E; [apply Z.ltb_lt in E|apply Z.ltb_ge in E];
    f_equal; lia.
Qed.

Lemma ofInt_shape z :
  Z.abs z <= maxSafeInteger ->
  exists m e, ofInt z = dFinite m e /\ 0 <= e /\ z = m * 2 ^ e.
Proof.
  intros Hz. rewrite (ofInt_safe z Hz). apply canonical_int.
Qed.

Lemma dadd_integers m1 e1 m2 e2 :
  0 <= e1 -> 0 <= e2 ->
  dadd (dFinite m1 e1) (dFinite m2 e2) = ofInt (m1 * 2 ^ e1 + m2 * 2 ^ e2).
Proof.
  intros H1 H2. unfold dadd, ofInt, ofDyadic.
  change (0 <? 0) with false. cbv iota zeta.
  replace (Z.min e1 e2 <? 0) with false by (symmetry; apply Z.ltb_ge; lia).
  set (e := Z.min e1 e2).
  assert (Hp : 0 < 2 ^ e) by (apply Z.pow_pos_nonneg; lia).
  assert (Hv : m1 * 2 ^ e1 + m2 * 2 ^ e2
               = (m1 * 2 ^ (e1 - e) + m2 * 2 ^ (e2 - e)) * 2 ^ e).
  { rewrite Z.mul_add_distr_r, <- !Z.mul_assoc, <- !Z.pow_add_r by lia.
    now replace (e1 - e + e) with e1 by lia;
        replace (e2 - e + e) with e2 by lia. }
  rewrite Hv. set (S := m1 * 2 ^ (e1 - e) + m2 * 2 ^ (e2 - e)).
  change (2 ^ 0) with 1. rewrite Z.mul_1_r.
  rewrite Z.abs_mul, (Z.abs_eq (2 ^ e)) by lia. f_equal.
  destruct (S <? 0) eqn:E1; [apply Z.ltb_lt in E1|apply Z.ltb_ge in E1];
    symmetry; [apply Z.ltb_lt|apply Z.ltb_ge]; nia.
Qed.

(** Sums and differences of safe integers are computed without error
    (and rounded like any integer when they leave the safe range). *)
Lemma dadd_ofInt a b :
  Z.abs a <= maxSafeInteger -> Z.abs b <= maxSafeInteger ->
  dadd (ofInt a) (ofInt b) = ofInt (a + b).
Proof.
  intros Ha Hb.
  destruct (ofInt_shape a Ha) as [m1 [e1 [-> [H1 ->]]]].
  destruct (ofInt_shape b Hb) as [m2 [e2 [-> [H2 ->]]]].
  now apply dadd_integers.
Qed.

Lemma dsub_ofInt a b :
  Z.abs a <= maxSafeInteger -> Z.abs b <= maxSafeInteger ->
  dsub (ofInt a) (ofInt b) = ofInt (a - b).
Proof.
  intros Ha Hb.
  destruct (ofInt_shape a Ha) as [m1 [e1 [-> [H1 ->]]]].
  destruct (ofInt_shape b Hb) as [m2 [e2 [-> [H2 ->]]]].
  unfold dsub, dopp. rewrite dadd_integers by assumption. f_equal. lia.
Qed.

Lemma mathMax0_ofInt n :
  Z.abs n <= maxSafeInteger -> mathMax0 (ofInt n) = ofInt (Z.max 0 n).
Proof.
  intros Hn. destruct (ofInt_shape n Hn) as [m [e [Hm [He Hv]]]].
  assert (Hp : 0 < 2 ^ e) by (apply Z.pow_pos_nonneg; lia).
  rewrite Hm. cbn [mathMax0].
  destruct (m <? 0) eqn:E; [apply Z.ltb_lt in E|apply Z.ltb_ge in E].
  - rewrite Z.max_l by nia. reflexivity.
  - rewrite Z.max_r by nia. now rewrite Hm.
Qed.

Lemma canonical_finite m e : exists m' e', canonical m e = dFinite m' e'.
Proof.
  unfold canonical. destruct (m =? 0); [eauto|].
  destruct (strip_twos _ m e) as [m' e']. eauto.
Qed.

Lemma roundRatio_not_NaN s n d : roundRatio s n d <> dNaN.
Proof.
  unfold roundRatio. destruct (n =? 0); [discriminate|]. cbv zeta.
  match goal with |- (if ?c then _ else _) <> _ => destruct c end;
    [discriminate|].
  match goal with |- (if ?c then _ else _) <> _ => destruct c end;
    [discriminate|].
  match goal with |- canonical ?m ?e <> _ =>
    destruct (canonical_finite m e) as [m' [e' ->]] end.
  discriminate.
Qed.

Lemma ofDyadic_not_NaN m e : ofDyadic m e <> dNaN.
Proof. unfold ofDyadic. destruct (e <? 0); apply roundRatio_not_NaN. Qed.

(** [Math.max(0, q - amount)] on a finite [q] is a number that is not
    negative, whatever the amount, unless the amount is [NaN]. *)
Lemma clamp_not_negative m e amount :
  amount <> dNaN -> notNegative (mathMax0 (dsub (dFinite m e) amount)) = true.
Proof.
  intros Ha. unfold dsub.
  destruct (dadd (dFinite m e) (dopp amount)) as [|s|m' e'] eqn:E.
  - exfalso. destruct amount as [|s|m2 e2]; [congruence|discriminate E|].
    cbn [dopp dadd] in E. revert E. apply ofDyadic_not_NaN.
  - destruct s; reflexivity.
  - cbn [mathMax0]. destruct (m' <? 0) eqn:E'; [reflexivity|].
    cbn [notNegative]. apply Z.leb_le. now apply Z.ltb_ge in E'.
Qed.

(** ** The stock ledger *)

Section StockMovement.

Variable w : World.
Variable s : AppState.
Variable productId : string.
Variable amount : Z.
Variable reason : string.
Variable newBoxNumber : option string.

Let direction := stockActionType s.

Lemma findProduct_id ps p :
  findProduct ps productId = Some p -> Product.id p = productId.
Proof.
  unfold findProduct. intros H.
  apply find_some in H. destruct H as [_ H].
  now apply String.eqb_eq.
Qed.

Lemma findProduct_In ps p :
  findProduct ps productId = Some p -> In p ps.
Proof.
  unfold findProduct. intros H. now apply find_some in H.
Qed.

Lemma findProduct_replace ps p up :
  findProduct ps productId = Some p ->
  Product.id up = productId ->
  findProduct (replaceProduct productId up ps) productId = Some up.
Proof.
  unfold findProduct, replaceProduct. intros Hf Hup.
  induction ps as [|x ps IH]; simpl in *; [discriminate|].
  destruct (String.eqb (Product.id x) productId) eqn:E.
  - rewrite Hup, String.eqb_refl. reflexivity.
  - rewrite E. auto.
Qed.

(** A movement on a product that is found commits as soon as both remote
    writes succeed, and then has exactly this effect. *)
Lemma processStockTransaction_committed product :
  findProduct (products s) productId = Some product ->
  upsertProductOk w = true ->
  logTransactionOk w = true ->
  processStockTransaction w s productId amount reason newBoxNumber =
    (Committed,
     {| products :=
          replaceProduct productId
            (updatedProduct w direction product amount newBoxNumber)
            (products s);
        transactions :=
          newTx w direction product productId amount reason newBoxNumber
            :: transactions s;
        stockActionType := direction;
        selectedProduct := None;
        isModalOpen := false |}).
Proof.
  intros Hf Hu Hl. unfold processStockTransaction.
  rewrite Hf, Hu, Hl. reflexivity.
Qed.

(** Without the product, or when a remote write fails, the collections are
    left as they were. *)
Lemma processStockTransaction_not_committed o s' :
  processStockTransaction w s productId amount reason newBoxNumber = (o, s') ->
  o <> Committed ->
  products s' = products s /\ transactions s' = transactions s.
Proof.
  unfold processStockTransaction.
  destruct (findProduct (products s) productId).
  - destruct (upsertProductOk w && logTransactionOk w);
      intros H; inversion H; subst; simpl; intuition congruence.
  - intros H; inversion H; subst; auto.
Qed.

End StockMovement.



Lemma replaceProduct_absent productId up ps :
  ~ In productId (map Product.id ps) -> replaceProduct productId up ps = ps.
Proof.
  unfold replaceProduct. induction ps as [|x ps IH]; simpl; intros H; [easy|].
  destruct (String.eqb (Product.id x) productId) eqn:E.
  - apply String.eqb_eq in E. tauto.
  - f_equal. apply IH. tauto.
Qed.


(** C1. Every successful stock movement (the product exists and both writes
    succeed) puts exactly one new Transaction in front of the log; its
    quantity is the requested amount and its type the requested direction,
    whatever the clamping did to the product's quantity. *)
Theorem stock_movement_logs_one_transaction :
  forall w s productId amount reason newBoxNumber product,
    findProduct (products s) productId = Some product ->
    upsertProductOk w = true ->
    logTransactionOk w = true ->
    exists s' tx,
      processStockTransaction w s productId amount reason newBoxNumber
        = (Committed, s') /\
      transactions s' = tx :: transactions s /\
      List.length (transactions s') = S (List.length (transactions s)) /\
      Transaction.quantity tx = amount /\
      Transaction.type tx = stockActionType s /\
      Transaction.productId tx = productId.
Proof.
  intros w s productId amount reason box product Hf Hu Hl.
  eexists. eexists. split.
  - apply processStockTransaction_committed; eassumption.
  - simpl. repeat split; reflexivity.
Qed.

(** C2. On an existing product with quantity q, IN stores q + A and OUT
    stores max(0, q - A), which is never negative, while the logged
    Transaction keeps the requested amount A. *)
Theorem stock_movement_quantity :
  forall w s productId amount reason newBoxNumber product,
    findProduct (products s) productId = Some product ->
    upsertProductOk w = true ->
    logTransactionOk w = true ->
    exists s' p' tx,
      processStockTransaction w s productId amount reason newBoxNumber
        = (Committed, s') /\
      findProduct (products s') productId = Some p' /\
      transactions s' = tx :: transactions s /\
      Transaction.quantity tx = amount /\
      match stockActionType s with
      | IN => Product.quantity p' = Product.quantity product + amount
      | OUT => Product.quantity p' = Z.max 0 (Product.quantity product - amount)
               /\ 0 <= Product.quantity p'
      end.
Proof.
  intros w s productId amount reason box product Hf Hu Hl.
  eexists. eexists. eexists. split; [|split; [|split; [|split]]].
  - apply processStockTransaction_committed; eassumption.
  - simpl. eapply findProduct_replace; [eassumption|].
    simpl. eapply findProduct_id; eassumption.
  - reflexivity.
  - reflexivity.
  - simpl. destruct (stockActionType s); simpl; [reflexivity|].
    split; [reflexivity|lia].
Qed.


(** A committed stock-out of 15 on the sample product that holds 10. *)
Lemma stock_movement_logs_one_transaction_witness :
  exists s' tx,
    processStockTransaction sampleWorld (sampleState OUT) "1" 15 "Sales" None
      = (Committed, s') /\
    transactions s' = tx :: transactions (sampleState OUT) /\
    List.length (transactions s') = S (List.length (transactions (sampleState OUT))) /\
    Transaction.quantity tx = 15 /\
    Transaction.type tx = stockActionType (sampleState OUT) /\
    Transaction.productId tx = "1".
Proof.
  apply (stock_movement_logs_one_transaction sampleWorld (sampleState OUT)
           "1" 15 "Sales" None (sampleProduct "1" "A" 10 5 7000 9500));
    reflexivity.
Defined.

(** The scenario of the specification: OUT of 15 on a quantity of 10. *)
Lemma stock_movement_quantity_witness :
  exists s' p' tx,
    processStockTransaction sampleWorld (sampleState OUT) "1" 15 "Sales" None
      = (Committed, s') /\
    findProduct (products s') "1" = Some p' /\
    transactions s' = tx :: transactions (sampleState OUT) /\
    Transaction.quantity tx = 15 /\
    (Product.quantity p' = 0 /\ 0 <= Product.quantity p').
Proof.
  apply (stock_movement_quantity sampleWorld (sampleState OUT)
           "1" 15 "Sales" None (sampleProduct "1" "A" 10 5 7000 9500));
    reflexivity.
Defined.



(** ** Quantities that are whole numbers *)

Lemma numeric_findProduct_In ps productId p :
  Numeric.findProduct ps productId = Some p -> In p ps.
Proof. unfold Numeric.findProduct. intros H. now apply find_some in H. Qed.

Lemma Forall_replaceProduct (P : Numeric.Product.t -> Prop) productId up ps :
  Forall P ps -> P up -> Forall P (Numeric.replaceProduct productId up ps).
Proof.
  unfold Numeric.replaceProduct. intros Hps Hup.
  induction Hps as [|x l Hx Hl IH]; simpl; constructor; [|assumption].
  destruct (String.eqb (Numeric.Product.id x) productId); assumption.
Qed.

Lemma isCount_mono B B' x : B <= B' -> isCount B x -> isCount B' x.
Proof. intros H [n [Hn ->]]. exists n. split; [lia|reflexivity]. Qed.

Lemma counts_mono B B' ps : B <= B' -> counts B ps -> counts B' ps.
Proof.
  intros H. unfold counts. apply Forall_impl. intros p. now apply isCount_mono.
Qed.

(** A count is a finite double with mantissa and exponent not below 0. *)
Lemma isCount_shape B x :
  B <= maxSafeInteger -> isCount B x ->
  exists m e, x = dFinite m e /\ 0 <= m /\ 0 <= e.
Proof.
  intros HB [n [Hn ->]].
  destruct (ofInt_shape n) as [m [e [Hm [He Hv]]]]; [lia|].
  exists m, e. split; [exact Hm|]. split; [|exact He].
  assert (0 < 2 ^ e) by (apply Z.pow_pos_nonneg; lia). nia.
Qed.

Lemma isCount_notNegative B x :
  B <= maxSafeInteger -> isCount B x -> notNegative x = true.
Proof.
  intros HB Hx. destruct (isCount_shape B x HB Hx) as [m [e [-> [Hm _]]]].
  now apply Z.leb_le.
Qed.

Lemma double_or_ofInt n :
  Z.abs n <= maxSafeInteger -> double_or (ofInt n) (ofInt 0) = ofInt n.
Proof.
  intros Hn. destruct (ofInt_shape n Hn) as [m [e [Hm [He Hv]]]].
  rewrite Hm. cbn [double_or]. destruct (m =? 0) eqn:E; [|reflexivity].
  apply Z.eqb_eq in E. subst m. rewrite <- Hm. now subst n.
Qed.

Lemma importLines_counts B w existing n lines :
  0 <= B <= maxSafeInteger ->
  (forall line z, In line lines -> skipsLine line = false ->
     parseInt (nth 3 (rowValues line) EmptyString) = Some z -> 0 <= z <= B) ->
  counts B (Numeric.importLines w existing n lines).
Proof.
  intros HB. revert n. induction lines as [|line rest IH]; intros n H; simpl.
  - constructor.
  - destruct (skipsLine line) eqn:E.
    + apply IH. intros l z Hl. apply H. now right.
    + constructor.
      * cbn [Numeric.importRow Numeric.Product.quantity].
        unfold Numeric.parseIntNumber.
        destruct (parseInt (nth 3 (rowValues line) EmptyString)) as [z|] eqn:P.
        -- assert (Hz : 0 <= z <= B) by (apply (H line z); auto; now left).
           exists z. split; [exact Hz|]. apply double_or_ofInt. lia.
        -- exists 0. split; [lia|reflexivity].
      * apply IH. intros l z Hl. apply H. now right.
Qed.

(** On whole numbers from 0 to 2^53 - 1 the quantity computed on doubles
    is the quantity of the ledger model (a sum beyond that range is rounded
    to a double). *)
Lemma newQty_on_integers direction q a :
  0 <= q <= maxSafeInteger -> 0 <= a <= maxSafeInteger ->
  Numeric.newQty direction (ofInt q) (ofInt a) = ofInt (newQty direction q a).
Proof.
  intros Hq Ha. destruct direction; cbn [Numeric.newQty newQty].
  - apply dadd_ofInt; lia.
  - rewrite dsub_ofInt, mathMax0_ofInt by lia. reflexivity.
Qed.

(** C3 (as the code has it). No handler checks the numbers it is given, so
    a quantity is a whole number from 0 to 2^53 - 1 after an operation only
    when the numbers supplied are such: a stock-in by a whole amount [a >= 0]
    that keeps the sums within the bound; a stock-out by a whole amount
    from 0 to 2^53 - 1; a create or edit whose supplied quantity is such a
    number; an import of rows whose quantity column reads as such a number
    or as none.  The clamp of the stock-out alone gives less: with any
    amount other than NaN the quantity is a number that is not negative. *)
Theorem quantities_stay_whole :
  (forall w s productId amount reason newBoxNumber B a,
      Numeric.stockActionType s = IN ->
      counts B (Numeric.products s) ->
      amount = ofInt a -> 0 <= a -> B + a <= maxSafeInteger ->
      counts (B + a) (Numeric.products (snd
        (Numeric.processStockTransaction w s productId amount reason
           newBoxNumber))))
  /\
  (forall w s productId amount reason newBoxNumber B a,
      Numeric.stockActionType s = OUT ->
      counts B (Numeric.products s) -> B <= maxSafeInteger ->
      amount = ofInt a -> 0 <= a <= maxSafeInteger ->
      counts B (Numeric.products (snd
        (Numeric.processStockTransaction w s productId amount reason
           newBoxNumber))))
  /\
  (forall w s productId amount reason newBoxNumber B,
      Numeric.stockActionType s = OUT ->
      counts B (Numeric.products s) -> B <= maxSafeInteger ->
      amount <> dNaN ->
      Forall (fun p => notNegative (Numeric.Product.quantity p) = true)
        (Numeric.products (snd
          (Numeric.processStockTransaction w s productId amount reason
             newBoxNumber))))
  /\
  (forall w s data B,
      0 <= B <= maxSafeInteger ->
      counts B (Numeric.products s) ->
      (forall sel, Numeric.selectedProduct s = Some sel ->
                   isCount B (Numeric.Product.quantity sel)) ->
      (forall v, Numeric.PartialProduct.quantity data = Some v -> isCount B v) ->
      counts B (Numeric.products (snd (Numeric.saveProduct w s data))))
  /\
  (forall w text existing B,
      0 <= B <= maxSafeInteger ->
      (forall line z, In line (tl (split newline text)) ->
         skipsLine line = false ->
         parseInt (nth 3 (rowValues line) EmptyString) = Some z ->
         0 <= z <= B) ->
      counts B (Numeric.parseCSV w text existing)).
Proof.
  split; [|split; [|split; [|split]]].
  - intros w s productId amount reason box B a Hdir Hs -> Ha HB.
    unfold Numeric.processStockTransaction.
    destruct (Numeric.findProduct (Numeric.products s) productId)
      as [product|] eqn:Hf; [|apply (counts_mono B); [lia|assumption]].
    destruct (upsertProductOk w && logTransactionOk w);
      cbn [snd Numeric.products]; [|apply (counts_mono B); [lia|assumption]].
    apply Forall_replaceProduct; [apply (counts_mono B); [lia|assumption]|].
    cbn [Numeric.updatedProduct Numeric.Product.quantity]. rewrite Hdir.
    unfold counts in Hs. rewrite Forall_forall in Hs.
    destruct (Hs product (numeric_findProduct_In _ _ _ Hf)) as [q [Hq ->]].
    cbn [Numeric.newQty]. rewrite dadd_ofInt by lia.
    exists (q + a). split; [lia|reflexivity].
  - intros w s productId amount reason box B a Hdir Hs HB -> Ha.
    unfold Numeric.processStockTransaction.
    destruct (Numeric.findProduct (Numeric.products s) productId)
      as [product|] eqn:Hf; [|assumption].
    destruct (upsertProductOk w && logTransactionOk w);
      cbn [snd Numeric.products]; [|assumption].
    apply Forall_replaceProduct; [assumption|].
    cbn [Numeric.updatedProduct Numeric.Product.quantity]. rewrite Hdir.
    unfold counts in Hs. rewrite Forall_forall in Hs.
    destruct (Hs product (numeric_findProduct_In _ _ _ Hf)) as [q [Hq ->]].
    cbn [Numeric.newQty]. rewrite dsub_ofInt, mathMax0_ofInt by lia.
    exists (Z.max 0 (q - a)). split; [lia|reflexivity].
  - intros w s productId amount reason box B Hdir Hs HB Ha.
    assert (Hnn : Forall (fun p => notNegative (Numeric.Product.quantity p) = true)
                    (Numeric.products s)).
    { revert Hs. unfold counts. apply Forall_impl. intros p.
      now apply isCount_notNegative. }
    unfold Numeric.processStockTransaction.
    destruct (Numeric.findProduct (Numeric.products s) productId)
      as [product|] eqn:Hf; [|assumption].
    destruct (upsertProductOk w && logTransactionOk w);
      cbn [snd Numeric.products]; [|assumption].
    apply Forall_replaceProduct; [assumption|].
    cbn [Numeric.updatedProduct Numeric.Product.quantity]. rewrite Hdir.
    unfold counts in Hs. rewrite Forall_forall in Hs.
    destruct (isCount_shape B _ HB (Hs product (numeric_findProduct_In _ _ _ Hf)))
      as [m [e [-> _]]].
    cbn [Numeric.newQty]. now apply clamp_not_negative.
  - intros w s data B HB Hs Hsel Hdata. unfold Numeric.saveProduct.
    destruct (upsertProductOk w); cbn [snd Numeric.products]; [|assumption].
    destruct (Numeric.selectedProduct s) as [sel|] eqn:Esel.
    + apply Forall_replaceProduct; [assumption|].
      cbn [Numeric.mergeProduct Numeric.Product.quantity].
      destruct (Numeric.PartialProduct.quantity data) as [v|]; auto.
    + unfold counts in *. apply Forall_app. split; [assumption|].
      constructor; [|constructor].
      cbn [Numeric.createProduct Numeric.Product.quantity].
      unfold Numeric.optDoubleOr.
      destruct (Numeric.PartialProduct.quantity data) as [v|].
      * destruct (Hdata v eq_refl) as [n [Hn ->]].
        exists n. split; [exact Hn|]. apply double_or_ofInt. lia.
      * exists 0. split; [lia|reflexivity].
  - intros w text existing B HB H. unfold Numeric.parseCSV.
    now apply importLines_counts.
Qed.

(** From 10 units: 15 out leave 0 and 5 in make 15; a form that supplies
    nothing creates a product with 0 units; a row with the quantity 12 is
    imported with 12. *)
Lemma quantities_stay_whole_witness :
  counts 10 (Numeric.products (snd
    (Numeric.processStockTransaction sampleWorld (numericState OUT) "1"
       (ofInt 15) "Sales" None)))
  /\ counts 15 (Numeric.products (snd
    (Numeric.processStockTransaction sampleWorld (numericState IN) "1"
       (ofInt 5) "Restock" None)))
  /\ Forall (fun p => notNegative (Numeric.Product.quantity p) = true)
       (Numeric.products (snd
         (Numeric.processStockTransaction sampleWorld (numericState OUT) "1"
            (dFinite 5 (-1)) "Sales" None)))
  /\ counts 10 (Numeric.products (snd
       (Numeric.saveProduct sampleWorld (numericState IN) numericEmptyForm)))
  /\ counts 12 (Numeric.parseCSV sampleCsvWorld
       (lines ["SKU,Name"; "A,Widget,Tools,12,2,1.5,3"]) []).
Proof.
  destruct quantities_stay_whole as [H1 [H2 [H3 [H4 H5]]]].
  assert (Hs : forall d, counts 10 (Numeric.products (numericState d))).
  { intros d. repeat constructor.
    - exists 10. split; [lia|reflexivity].
    - exists 0. split; [lia|reflexivity]. }
  assert (Hsafe : 15 <= maxSafeInteger) by (unfold maxSafeInteger; lia).
  split; [|split; [|split; [|split]]].
  - apply (H2 _ _ _ _ _ _ 10 15); try reflexivity; try apply Hs;
      unfold maxSafeInteger; lia.
  - apply (H1 _ _ _ _ _ _ 10 5); try reflexivity; try apply Hs;
      unfold maxSafeInteger; lia.
  - apply (H3 _ _ _ _ _ _ 10); try reflexivity; try apply Hs;
      [unfold maxSafeInteger; lia | discriminate].
  - apply H4; [unfold maxSafeInteger; lia | apply Hs | discriminate |].
    intros v Hv. discriminate Hv.
  - apply H5; [unfold maxSafeInteger; lia|].
    intros line z [Hl|[]] _ Hz. subst line. vm_compute in Hz.
    inversion Hz. lia.
Defined.

(** C3 as stated fails on numbers that the handlers accept.  A stock-in of
    -20 on 10 units stores -10; a stock-out of NaN stores NaN; a stock-in of
    1.5 stores 11.5; the product form stores an initial stock of -3; the
    import stores -5 for the column -5 and Infinity for a column of 309
    digits.  None of these is a whole number from 0 on.  Whole numbers do
    not suffice without a bound either: a stock-in of 2^1023 on 2^1023
    units gives Infinity, and a stock-in of 1 on 2^53 units is lost. *)
Lemma quantity_invariant_counterexample :
  counts 10 (Numeric.products (numericState IN)) /\
  map Numeric.Product.quantity
    (Numeric.products (snd (Numeric.processStockTransaction sampleWorld
       (numericState IN) "1" (ofInt (-20)) "Correction" None)))
    = [dFinite (-5) 1; ofInt 0] /\
  map Numeric.Product.quantity
    (Numeric.products (snd (Numeric.processStockTransaction sampleWorld
       (numericState OUT) "1" dNaN "Sales" None)))
    = [dNaN; ofInt 0] /\
  map Numeric.Product.quantity
    (Numeric.products (snd (Numeric.processStockTransaction sampleWorld
       (numericState IN) "1" (dFinite 3 (-1)) "Restock" None)))
    = [dFinite 23 (-1); ofInt 0] /\
  map Numeric.Product.quantity
    (Numeric.products (snd (Numeric.saveProduct sampleWorld (numericState IN)
       (numericForm (ofInt (-3))))))
    = [ofInt 10; ofInt 0; dFinite (-3) 0] /\
  map Numeric.Product.quantity
    (Numeric.parseCSV sampleCsvWorld
       (lines ["SKU,Name"; "N,Nut,Parts,-5,1,1,1";
               ("H,Heap,Parts," ++ nines 309 ++ ",1,1,1")%string]) [])
    = [dFinite (-5) 0; dInfinity false] /\
  ~ isCount maxSafeInteger (dFinite (-5) 1) /\
  ~ isCount maxSafeInteger dNaN /\
  ~ isCount maxSafeInteger (dFinite 23 (-1)) /\
  ~ isCount maxSafeInteger (dFinite (-3) 0) /\
  ~ isCount maxSafeInteger (dFinite (-5) 0) /\
  ~ isCount maxSafeInteger (dInfinity false) /\
  Numeric.newQty IN (ofInt (2 ^ 1023)) (ofInt (2 ^ 1023)) = dInfinity false /\
  Numeric.newQty IN (ofInt (2 ^ 53)) (ofInt 1) = ofInt (2 ^ 53).
Proof.
  assert (Hno : forall x,
            (forall m e, x = dFinite m e -> m < 0 \/ e < 0) ->
            ~ isCount maxSafeInteger x).
  { intros x Hx Hc.
    destruct (isCount_shape _ x (Z.le_refl _) Hc) as [m [e [-> [Hm He]]]].
    destruct (Hx m e eq_refl); lia. }
  split; [|split; [|split; [|split; [|split; [|split]]]]].
  - repeat constructor.
    + exists 10. split; [lia|reflexivity].
    + exists 0. split; [lia|reflexivity].
  - vm_compute. reflexivity.
  - vm_compute. reflexivity.
  - vm_compute. reflexivity.
  - vm_compute. reflexivity.
  - vm_compute. reflexivity.
  - repeat split; try (apply Hno; intros m e H; inversion H; lia);
      vm_compute; reflexivity.
Qed.

(** ** The product form *)

Lemma optStringOr_falsy o d : falsyString o -> optStringOr o d = d.
Proof. intros [H|H]; subst; reflexivity. Qed.

Lemma optZOr_falsy o d : falsyInteger o -> optZOr o d = d.
Proof. intros [H|H]; subst; reflexivity. Qed.

Lemma optNumberOr_falsy o d : falsyNumber o -> optNumberOr o d = d.
Proof.
  intros [H|[x [H Hx]]]; subst; simpl; [reflexivity|].
  unfold number_or. now rewrite Hx.
Qed.

(** C10. When no product is selected, [saveProduct] appends one product in
    which every falsy supplied value (0, NaN, the empty string), like every
    absent one, is replaced by its default: minThreshold 0 is stored as 5,
    an empty SKU as the generated one, an empty name, category or box number
    as its placeholder. *)
Theorem create_replaces_falsy_values :
  forall w s data,
    selectedProduct s = None ->
    upsertProductOk w = true ->
    exists s' p,
      saveProduct w s data = (Committed, s') /\
      products s' = products s ++ [p] /\
      (falsyInteger (PartialProduct.minThreshold data) ->
         Product.minThreshold p = 5) /\
      (falsyString (PartialProduct.sku data) ->
         Product.sku p =
           ("SKU-" ++ numberToString (ofZ (randomSkuNumber w)))%string) /\
      (falsyString (PartialProduct.name data) ->
         Product.name p = "New Product") /\
      (falsyString (PartialProduct.category data) ->
         Product.category p = "Uncategorized") /\
      (falsyString (PartialProduct.boxNumber data) ->
         Product.boxNumber p = "N/A") /\
      (falsyInteger (PartialProduct.quantity data) -> Product.quantity p = 0) /\
      (falsyNumber (PartialProduct.purchasePrice data) ->
         Product.purchasePrice p = ofZ 0) /\
      (falsyNumber (PartialProduct.sellingPrice data) ->
         Product.sellingPrice p = ofZ 0).
Proof.
  intros w s data Hsel Hok.
  exists {| products := products s ++ [createProduct w data];
            transactions := transactions s;
            stockActionType := stockActionType s;
            selectedProduct := None;
            isModalOpen := false |}, (createProduct w data).
  split.
  - unfold saveProduct. rewrite Hsel, Hok. reflexivity.
  - split; [reflexivity|].
    cbn [createProduct Product.minThreshold Product.sku Product.name
         Product.category Product.boxNumber Product.quantity
         Product.purchasePrice Product.sellingPrice].
    repeat split; intros H;
      first [ now apply optStringOr_falsy
            | now apply optZOr_falsy
            | now apply optNumberOr_falsy ].
Qed.

(** The form submitted empty: threshold 0 becomes 5, the empty strings become
    the generated SKU and the placeholders. *)
Lemma create_replaces_falsy_values_witness :
  exists s' p,
    saveProduct sampleWorld (sampleState IN) emptyForm = (Committed, s') /\
    products s' = products (sampleState IN) ++ [p] /\
    Product.minThreshold p = 5 /\
    Product.sku p = "SKU-417" /\
    Product.name p = "New Product" /\
    Product.category p = "Uncategorized" /\
    Product.boxNumber p = "N/A".
Proof.
  destruct (create_replaces_falsy_values sampleWorld (sampleState IN) emptyForm
              eq_refl eq_refl)
    as [s' [p [H1 [H2 [H3 [H4 [H5 [H6 [H7 _]]]]]]]]].
  exists s', p.
  split; [exact H1|]. split; [exact H2|].
  split; [apply H3; right; reflexivity|].
  split; [apply H4; right; reflexivity|].
  split; [apply H5; right; reflexivity|].
  split; [apply H6; right; reflexivity|].
  apply H7; right; reflexivity.
Defined.

(** ** Two valuations *)




(** Rounding can hide a difference between two prices: seven units at 9.99
    and at 9.990000000000002 are both worth 69.93. *)
Lemma equal_values_at_different_prices :
  toDouble (Finite 999 (-2)) <> toDouble (Finite 9990000000000002 (-15)) /\
  dmul (ofInt 7) (toDouble (Finite 999 (-2)))
  = dmul (ofInt 7) (toDouble (Finite 9990000000000002 (-15))) /\
  dmul (ofInt 7) (toDouble (Finite 999 (-2))) = toDouble (Finite 6993 (-2)).
Proof.
  split; [|split].
  - vm_compute. discriminate.
  - vm_compute. reflexivity.
  - vm_compute. reflexivity.
Qed.

(** ** The transactions sent for analysis *)

Lemma sliceLast_cons {A} (x : A) l n :
  (n <= List.length l)%nat -> sliceLast n (x :: l) = sliceLast n l.
Proof.
  intros H. unfold sliceLast. simpl List.length.
  replace (S (List.length l) - n)%nat with (S (List.length l - n)) by lia.
  reflexivity.
Qed.

(** Once the log holds twenty entries, the transaction that a committed
    movement puts in front of it is not part of the next request. *)
Lemma newest_transaction_not_sent w s productId amount reason box product lang :
  findProduct (products s) productId = Some product ->
  upsertProductOk w = true ->
  logTransactionOk w = true ->
  (20 <= List.length (transactions s))%nat ->
  let s' := snd (processStockTransaction w s productId amount reason box) in
  option_map recentTransactions
    (getInventoryInsights (products s') (transactions s') lang)
  = option_map recentTransactions
      (getInventoryInsights (products s) (transactions s) lang).
Proof.
  intros Hf Hu Hl Hlen.
  rewrite (processStockTransaction_committed w s productId amount reason box
             product Hf Hu Hl).
  cbn [snd transactions]. unfold getInventoryInsights.
  rewrite sliceLast_cons by assumption.
  destruct (forallb _ _); reflexivity.
Qed.

(** C9 on 21 stored transactions: the adapter hands them over newest first,
    and the request carries the timestamps 20000 down to 1000; the most
    recent transaction (21000) is left out and the oldest one is sent. *)
Theorem insights_miss_newest_transaction :
  let held := fetchTransactions true sampleRows in
  exists request,
    getInventoryInsights sampleCatalog held en = Some request /\
    let sent := recentTransactions request in
    map Transaction.timestamp held =
      map (fun k => 1000 * Z.of_nat k) (rev (seq 1 21)) /\
    map TxSnapshot.date sent =
      map (fun k => 1000 * Z.of_nat k) (rev (seq 1 20)) /\
    map Transaction.timestamp (firstn 20 held) =
      map (fun k => 1000 * Z.of_nat k) (rev (seq 2 20)) /\
    ~ In 21000 (map TxSnapshot.date sent).
Proof.
  eexists. split; [vm_compute; reflexivity|].
  vm_compute. repeat split; try reflexivity.
  intros H. repeat (destruct H as [H|H]; [discriminate|]). exact H.
Qed.

(** ** CSV import *)

Lemma importLines_kept w existing n ls :
  importLines w existing n ls = importLines w existing n (keptLines ls).
Proof.
  revert n. induction ls as [|l ls IH]; intros n; simpl; [reflexivity|].
  destruct (skipsLine l) eqn:E; simpl; [apply IH|].
  rewrite E. f_equal. apply IH.
Qed.

Lemma importLines_length w existing n ls :
  List.length (importLines w existing n ls) = List.length (keptLines ls).
Proof.
  revert n. induction ls as [|l ls IH]; intros n; simpl; [reflexivity|].
  destruct (skipsLine l); simpl; [apply IH|]. f_equal. apply IH.
Qed.


Lemma short_row_skipped line :
  (List.length (split comma line) < 7)%nat -> skipsLine line = true.
Proof.
  intros H. unfold skipsLine, rowValues.
  destruct (trim line); [reflexivity|].
  rewrite length_map. now apply Nat.ltb_lt.
Qed.






(** C7. [parseCSV] never reads the first line, drops every row with fewer
    than seven comma-separated columns (and every blank line) without any
    other effect, builds exactly one record per remaining row, and stores 0
    where the quantity, threshold or price column is not a number.  On the
    sample file the five-column row is dropped and the quantity abc is
    imported as 0. *)
Theorem import_skips_and_defaults :
  (forall w h1 h2 body existing,
      hasChar newline h1 = false -> hasChar newline h2 = false ->
      parseCSV w (h1 ++ String newline body) existing =
      parseCSV w (h2 ++ String newline body) existing) /\
  (forall line,
      (List.length (split comma line) < 7)%nat -> skipsLine line = true) /\
  (forall w text existing,
      parseCSV w text existing =
        importLines w existing 0 (keptLines (tl (split newline text))) /\
      List.length (parseCSV w text existing) =
        List.length (keptLines (tl (split newline text)))) /\
  (forall w existing n line,
      let v i := nth i (rowValues line) EmptyString in
      let r := importRow w existing n line in
      (parseInt (v 3%nat) = None -> Product.quantity r = 0) /\
      (parseInt (v 4%nat) = None -> Product.minThreshold r = 0) /\
      (parseFloat (v 5%nat) = NaN -> Product.purchasePrice r = ofZ 0) /\
      (parseFloat (v 6%nat) = NaN -> Product.sellingPrice r = ofZ 0)) /\
  map (fun r => (Product.sku r, Product.quantity r, Product.sellingPrice r))
      (parseCSV sampleCsvWorld sampleCsv [])
    = [("A", 0, ofZ 0); ("N", -5, ofZ 4)].
Proof.
  split; [|split; [|split; [|split]]].
  - intros w h1 h2 body existing H1 H2. unfold parseCSV.
    now rewrite !split_first_line by assumption.
  - exact short_row_skipped.
  - intros w text existing. unfold parseCSV. split.
    + apply importLines_kept.
    + apply importLines_length.
  - intros w existing n line v r. subst v r.
    cbn [importRow Product.quantity Product.minThreshold
         Product.purchasePrice Product.sellingPrice].
    unfold parseIntOr0, parseFloatOr0.
    repeat split; intros H; rewrite H; reflexivity.
  - vm_compute. reflexivity.
Qed.

(** The rows of the sample file: the header goes, the row of five columns
    goes, and a quantity that is not a number gives 0. *)
Lemma import_skips_and_defaults_witness :
  skipsLine "Z,Short,Tools,1,2" = true /\
  parseCSV sampleCsvWorld ("SKU,Name" ++ String newline "A,Widget,Tools,abc,2,1.5,x") [] =
  parseCSV sampleCsvWorld ("ignored" ++ String newline "A,Widget,Tools,abc,2,1.5,x") [] /\
  Product.quantity (importRow sampleCsvWorld [] 0 "A,Widget,Tools,abc,2,1.5,x") = 0 /\
  Product.sellingPrice (importRow sampleCsvWorld [] 0 "A,Widget,Tools,abc,2,1.5,x")
    = ofZ 0.
Proof.
  destruct import_skips_and_defaults as [Hh [Hs [_ [Hd _]]]].
  split; [|split; [|split]].
  - apply Hs. simpl. lia.
  - apply Hh; reflexivity.
  - apply (Hd sampleCsvWorld [] 0%nat "A,Widget,Tools,abc,2,1.5,x"). reflexivity.
  - apply (Hd sampleCsvWorld [] 0%nat "A,Widget,Tools,abc,2,1.5,x"). reflexivity.
Defined.

(** ** CSV round trip *)

(** *** One exported row, read back *)

Lemma hasChar_quoted c s :
  Ascii.eqb quote c = false -> hasChar c (quoted s) = hasChar c s.
Proof.
  intros H. unfold quoted. cbn [append hasChar].
  rewrite hasChar_app. cbn [hasChar]. rewrite H. now rewrite !orb_false_r.
Qed.

Lemma hasChar_doubleQuotes c s :
  Ascii.eqb quote c = false -> hasChar c (doubleQuotes s) = hasChar c s.
Proof.
  intros H. induction s as [|x s IH]; [reflexivity|].
  cbn [doubleQuotes]. destruct (Ascii.eqb x quote) eqn:E.
  - apply Ascii.eqb_eq in E. subst x. cbn [hasChar]. now rewrite H, IH.
  - cbn [hasChar]. now rewrite IH.
Qed.

Lemma split_join_head x y l :
  hasChar comma x = false ->
  split comma (join "," (x :: y :: l)) = x :: split comma (join "," (y :: l)).
Proof.
  intros H.
  change (join "," (x :: y :: l))
    with (x ++ String comma (join "," (y :: l)))%string.
  now apply split_first_line.
Qed.

Lemma trimEnd_head c t :
  isWhiteSpace c = false -> trimEnd (String c t) <> EmptyString.
Proof.
  intros H. cbn [trimEnd]. rewrite H.
  destruct (trimEnd t); discriminate.
Qed.

Section ExportedRow.

Variable p : Product.t.
Hypothesis Hp : readsBack p.

Lemma rowValues_exportRow :
  exists rest,
    rowValues (exportRow p) =
      Product.sku p :: Product.name p :: Product.category p ::
      numberToString (ofZ (Product.quantity p)) ::
      numberToString (ofZ (Product.minThreshold p)) ::
      numberToString (Product.purchasePrice p) ::
      numberToString (Product.sellingPrice p) :: rest.
Proof.
  destruct Hp as [[Hs1 [_ Hs3]] [[Hn1 [_ Hn3]] [[Hc1 [_ Hc3]] _]]].
  unfold rowValues, exportRow.
  do 7 (rewrite split_join_head;
        [|rewrite ?hasChar_quoted by reflexivity;
          first [assumption | apply plain_no_comma, numberToString_plain]]).
  cbn [map].
  rewrite !cleanValue_quoted by assumption.
  rewrite !cleanValue_plain by apply numberToString_plain.
  eexists. reflexivity.
Qed.

Lemma exportRow_kept : skipsLine (exportRow p) = false.
Proof.
  unfold skipsLine.
  destruct (trim (exportRow p)) eqn:E.
  - exfalso. revert E. unfold trim.
    change (exportRow p) with
      (String quote
         ((Product.sku p ++ String quote EmptyString) ++
          String comma
            (join ","
               [quoted (Product.name p); quoted (Product.category p);
                numberToString (ofZ (Product.quantity p));
                numberToString (ofZ (Product.minThreshold p));
                numberToString (Product.purchasePrice p);
                numberToString (Product.sellingPrice p);
                quoted (Product.boxNumber p);
                quoted (doubleQuotes (Product.description p))]))).
    cbn [trimStart]. change (isWhiteSpace quote) with false. cbv iota.
    now apply trimEnd_head.
  - destruct rowValues_exportRow as [rest ->]. reflexivity.
Qed.

Lemma exportRow_one_line : hasChar newline (exportRow p) = false.
Proof.
  destruct Hp as [[_ [Hs _]] [[_ [Hn _]] [[_ [Hc _]] [Hb [Hd _]]]]].
  unfold exportRow. cbn [join].
  repeat rewrite hasChar_app.
  rewrite !hasChar_quoted by reflexivity.
  rewrite hasChar_doubleQuotes by reflexivity.
  rewrite Hs, Hn, Hc, Hb, Hd.
  rewrite !(plain_no_newline _ (numberToString_plain _)).
  reflexivity.
Qed.

Lemma importRow_exportRow w existing n :
  coreFields (importRow w existing n (exportRow p)) = coreFields p.
Proof.
  destruct rowValues_exportRow as [rest Hv].
  destruct Hp as [_ [_ [_ [_ [_ [Hq [Hm [[Hpn Hpx] [Hsn Hsx]]]]]]]]].
  unfold coreFields, importRow. rewrite Hv.
  cbn [nth Product.sku Product.name Product.category Product.quantity
       Product.minThreshold Product.purchasePrice Product.sellingPrice].
  rewrite !parseInt_numberToString by assumption.
  rewrite !parseFloat_numberToString by assumption.
  reflexivity.
Qed.

End ExportedRow.

Lemma importLines_exportRows w existing n ps :
  Forall readsBack ps ->
  map coreFields (importLines w existing n (map exportRow ps))
    = map coreFields ps.
Proof.
  intros H. revert n. induction H as [|p ps Hp Hps IH]; intros n.
  - reflexivity.
  - cbn [map importLines]. rewrite (exportRow_kept p Hp).
    cbn [map]. now rewrite (importRow_exportRow p Hp), IH.
Qed.

(** C5 (as the code has it). Exporting a non-empty list of N products and
    importing the text against any catalog gives N products with the same
    SKU, name, category, quantity, minThreshold and prices, provided that
    SKU, name and category hold no comma, no line break and no two quotes in
    a row, that box number and description hold no line break, that the
    integers are below 10^21 in size and that no price is NaN. *)
Theorem csv_round_trip :
  forall w existing ps,
    ps <> [] ->
    Forall readsBack ps ->
    exists text,
      exportToCSV ps = Some text /\
      List.length (parseCSV w text existing) = List.length ps /\
      map coreFields (parseCSV w text existing) = map coreFields ps.
Proof.
  intros w existing ps Hne Hps.
  destruct ps as [|p ps]; [congruence|].
  eexists. split; [reflexivity|].
  assert (Hlines :
    tl (split newline
          (join (String newline EmptyString)
             (join "," csvHeaders :: map exportRow (p :: ps))))
    = map exportRow (p :: ps)).
  { rewrite split_join; [reflexivity|].
    constructor; [reflexivity|].
    apply Forall_map. revert Hps. apply Forall_impl.
    intros q Hq. now apply exportRow_one_line. }
  unfold parseCSV. rewrite Hlines.
  assert (Hm := importLines_exportRows w existing 0 (p :: ps) Hps).
  split; [|exact Hm].
  rewrite <- (length_map coreFields), Hm. apply length_map.
Qed.

(** The sample product and the monitor of the local catalog (an inch mark in
    the name, a comma in the box number, a price with decimals) come back
    with their fields. *)
Lemma csv_round_trip_witness :
  exists text,
    exportToCSV [sampleProduct "1" "A" 10 5 7000 9500; monitorProduct]
      = Some text /\
    List.length (parseCSV sampleCsvWorld text []) = 2%nat /\
    map coreFields (parseCSV sampleCsvWorld text []) =
      map coreFields [sampleProduct "1" "A" 10 5 7000 9500; monitorProduct].
Proof.
  apply (csv_round_trip sampleCsvWorld []
           [sampleProduct "1" "A" 10 5 7000 9500; monitorProduct]).
  - discriminate.
  - repeat constructor; try reflexivity; try discriminate;
      vm_compute; right; discriminate.
Defined.

(** C5 as stated fails.  A NaN price is exported as the text NaN and
    imported as 0.  A name with a comma is exported between quotes but split
    at the comma by the import, which shifts the columns.  Two quotes in a
    row come back as one, a second line of a description can come back as a
    product of its own, and a quantity of 10^21 is printed as 1e+21 and read
    as 1. *)
Lemma csv_round_trip_counterexample :
  (exists text,
      exportToCSV [nanProduct] = Some text /\
      map Product.purchasePrice (parseCSV sampleCsvWorld text []) = [ofZ 0] /\
      Product.purchasePrice nanProduct = NaN) /\
  (exists text,
      exportToCSV [commaProduct] = Some text /\
      map coreFields (parseCSV sampleCsvWorld text []) =
        [("CAB-1", "Cable", "USB", 0, 10, ofZ 2, ofZ 5)] /\
      coreFields commaProduct =
        ("CAB-1", "Cable, USB", "Accessories", 10, 2, ofZ 5, ofZ 9)) /\
  (exists text,
      exportToCSV [quotesProduct] = Some text /\
      map Product.name (parseCSV sampleCsvWorld text []) =
        [("Tube 2" ++ String quote EmptyString)%string] /\
      Product.name quotesProduct =
        ("Tube 2" ++ String quote (String quote EmptyString))%string) /\
  (exists text,
      exportToCSV [twoLineProduct] = Some text /\
      map Product.sku (parseCSV sampleCsvWorld text []) = ["KIT-1"; "X"]) /\
  (exists text,
      exportToCSV [hugeProduct] = Some text /\
      map Product.quantity (parseCSV sampleCsvWorld text []) = [1] /\
      Product.quantity hugeProduct = 10 ^ 21).
Proof.
  repeat split; eexists; (split; [reflexivity|]); vm_compute;
    repeat split; reflexivity.
Qed.

(** * Further properties of the code *)

(** ** Statistics and badges *)

Lemma filter_length_ext {A} (f g : A -> bool) l :
  (forall x, f x = g x) ->
  List.length (filter f l) = List.length (filter g l).
Proof. intros H. now rewrite (filter_ext f g H). Qed.

(** The dashboard counts and the badges of the inventory table classify
    every product alike: lowStockItems is the number of low-stock badges,
    outOfStock the number of out-of-stock badges, and with the in-stock
    badges they add up to the size of the catalog. *)
Theorem badges_match_stats :
  forall ps,
    lowStockItems (stats ps) = badgeCount LowStockBadge ps /\
    outOfStock (stats ps) = badgeCount OutOfStockBadge ps /\
    lowStockItems (stats ps) + outOfStock (stats ps)
      + badgeCount InStockBadge ps = Z.of_nat (List.length ps).
Proof.
  intros ps.
  assert (Hlow : lowStockItems (stats ps) = badgeCount LowStockBadge ps).
  { unfold badgeCount. cbn [stats lowStockItems]. f_equal.
    apply filter_length_ext. intros p. unfold InventoryTable.StatusBadge.
    destruct (Product.quantity p <=? 0) eqn:E0.
    - apply Z.leb_le in E0.
      assert (H : (Product.quantity p >? 0) = false)
        by (rewrite Z.gtb_ltb; apply Z.ltb_ge; lia).
      now rewrite H.
    - apply Z.leb_gt in E0.
      assert (H : (Product.quantity p >? 0) = true)
        by (rewrite Z.gtb_ltb; apply Z.ltb_lt; lia).
      rewrite H. cbn [andb].
      destruct (Product.quantity p <=? Product.minThreshold p); reflexivity. }
  assert (Hout : outOfStock (stats ps) = badgeCount OutOfStockBadge ps).
  { unfold badgeCount. cbn [stats outOfStock]. f_equal.
    apply filter_length_ext. intros p. unfold InventoryTable.StatusBadge.
    destruct (Product.quantity p <=? 0); [reflexivity|].
    destruct (Product.quantity p <=? Product.minThreshold p); reflexivity. }
  split; [exact Hlow|]. split; [exact Hout|].
  rewrite Hlow, Hout. unfold badgeCount.
  rewrite <- !Nat2Z.inj_add. f_equal. clear Hlow Hout.
  induction ps as [|p ps IH]; [reflexivity|].
  simpl. destruct (InventoryTable.StatusBadge p); simpl; lia.
Qed.





(** ** Stock movements *)

(** The three ways a stock movement ends.  An unknown product id leaves the
    whole state as it was; a failed remote write leaves the products and the
    log as they were but closes the dialog; only a found product and two
    successful writes commit. *)
Theorem movement_outcomes :
  forall w s productId amount reason newBoxNumber,
    let r := processStockTransaction w s productId amount reason newBoxNumber in
    match fst r with
    | Skipped =>
        findProduct (products s) productId = None /\ snd r = s
    | SyncError =>
        (exists p, findProduct (products s) productId = Some p) /\
        upsertProductOk w && logTransactionOk w = false /\
        products (snd r) = products s /\
        transactions (snd r) = transactions s /\
        isModalOpen (snd r) = false /\
        selectedProduct (snd r) = None
    | Committed =>
        (exists p, findProduct (products s) productId = Some p) /\
        upsertProductOk w = true /\ logTransactionOk w = true
    end.
Proof.
  intros w s productId amount reason box. unfold processStockTransaction.
  destruct (findProduct (products s) productId) as [p|] eqn:Hf.
  - destruct (upsertProductOk w && logTransactionOk w) eqn:Hok; cbn [fst snd].
    + apply andb_true_iff in Hok. destruct Hok. eauto.
    + cbn [products transactions isModalOpen selectedProduct].
      repeat split; eauto.
  - cbn [fst snd]. auto.
Qed.

Lemma replaceProduct_ids productId up ps :
  Product.id up = productId ->
  map Product.id (replaceProduct productId up ps) = map Product.id ps.
Proof.
  intros Hup. unfold replaceProduct.
  induction ps as [|x ps IH]; simpl; [reflexivity|].
  rewrite IH. destruct (String.eqb (Product.id x) productId) eqn:E.
  - apply String.eqb_eq in E. congruence.
  - reflexivity.
Qed.

Lemma replaceProduct_map {B} (f : Product.t -> B) productId p up ps :
  NoDup (map Product.id ps) ->
  findProduct ps productId = Some p ->
  f up = f p ->
  map f (replaceProduct productId up ps) = map f ps.
Proof.
  unfold findProduct. intros Hnd Hf Hup.
  induction ps as [|x ps IH]; simpl in *; [discriminate|].
  inversion Hnd as [|? ? Hnotin Hnd']; subst.
  destruct (String.eqb (Product.id x) productId) eqn:E.
  - inversion Hf; subst. apply String.eqb_eq in E. subst productId.
    fold (replaceProduct (Product.id p) up ps).
    rewrite replaceProduct_absent by assumption. now rewrite Hup.
  - fold (replaceProduct productId up ps). f_equal. now apply IH.
Qed.

(** A stock movement, however it ends, keeps the ids of the catalog and
    their order; in a catalog with unique ids it also keeps every product's
    SKU, name, category, threshold, prices and description. *)
Theorem movement_keeps_identity :
  forall w s productId amount reason newBoxNumber,
    let s' := snd (processStockTransaction w s productId amount reason
                     newBoxNumber) in
    map Product.id (products s') = map Product.id (products s) /\
    (NoDup (map Product.id (products s)) ->
     map descriptiveFields (products s') = map descriptiveFields (products s)).
Proof.
  intros w s productId amount reason box. unfold processStockTransaction.
  destruct (findProduct (products s) productId) as [p|] eqn:Hf;
    [|split; reflexivity].
  destruct (upsertProductOk w && logTransactionOk w); cbn [snd products];
    [|split; reflexivity].
  split.
  - apply replaceProduct_ids. simpl. eapply findProduct_id. eassumption.
  - intros Hnd. apply (replaceProduct_map _ _ p); [assumption|assumption|].
    reflexivity.
Qed.

Lemma movement_keeps_identity_witness :
  map descriptiveFields
    (products (snd (processStockTransaction sampleWorld (sampleState OUT)
                      "1" 15 "Sales" (Some "Z-9"))))
  = map descriptiveFields (products (sampleState OUT)).
Proof.
  apply (movement_keeps_identity sampleWorld (sampleState OUT) "1" 15 "Sales"
           (Some "Z-9")).
  repeat constructor; simpl; intuition discriminate.
Defined.

Lemma append_same_left (a b : string) : (a ++ b)%string = a -> b = EmptyString.
Proof.
  intros H. apply (f_equal String.length) in H.
  rewrite length_append in H. destruct b; [reflexivity|simpl in H; lia].
Qed.

(** In a committed movement the logged reason is the reason given exactly
    when the box number of the product stays what it was: a relocation is
    always written into the reason, and nothing else is. *)
Theorem reason_annotated_iff_relocated :
  forall w s productId amount reason newBoxNumber product,
    findProduct (products s) productId = Some product ->
    upsertProductOk w = true ->
    logTransactionOk w = true ->
    exists s' p' tx,
      processStockTransaction w s productId amount reason newBoxNumber
        = (Committed, s') /\
      findProduct (products s') productId = Some p' /\
      transactions s' = tx :: transactions s /\
      (Transaction.reason tx = reason <->
       Product.boxNumber p' = Product.boxNumber product).
Proof.
  intros w s productId amount reason box product Hf Hu Hl.
  eexists. eexists. eexists. split; [|split; [|split]].
  - apply processStockTransaction_committed; eassumption.
  - simpl. eapply findProduct_replace; [eassumption|].
    simpl. eapply findProduct_id; eassumption.
  - reflexivity.
  - cbn [newTx updatedProduct Transaction.reason Product.boxNumber].
    unfold annotateReason, boxOr, string_or.
    destruct box as [[|c b]|]; try (split; reflexivity).
    destruct (String.eqb (String c b) (Product.boxNumber product)) eqn:E.
    + apply String.eqb_eq in E. split; intros _; [assumption|reflexivity].
    + apply String.eqb_neq in E. split.
      * intros H. apply append_same_left in H. discriminate H.
      * intros H. contradiction.
Qed.

Lemma reason_annotated_iff_relocated_witness :
  exists s' p' tx,
    processStockTransaction sampleWorld (sampleState IN) "1" 4 "Restock"
      (Some "Z-9") = (Committed, s') /\
    findProduct (products s') "1" = Some p' /\
    transactions s' = tx :: transactions (sampleState IN) /\
    (Transaction.reason tx = "Restock" <->
     Product.boxNumber p' = "A-01").
Proof.
  apply (reason_annotated_iff_relocated sampleWorld (sampleState IN) "1" 4
           "Restock" (Some "Z-9") (sampleProduct "1" "A" 10 5 7000 9500));
    reflexivity.
Defined.




(** ** The product form, again *)

(** [saveProduct] never writes to the transaction log and always closes
    the dialog.  When the remote write fails the catalog is left as it was;
    when it succeeds the catalog keeps its size on an edit and grows by one
    on a create. *)
Theorem saveProduct_never_logs :
  forall w s data,
    let r := saveProduct w s data in
    transactions (snd r) = transactions s /\
    selectedProduct (snd r) = None /\
    isModalOpen (snd r) = false /\
    match fst r with
    | Committed =>
        upsertProductOk w = true /\
        List.length (products (snd r)) =
          match selectedProduct s with
          | Some _ => List.length (products s)
          | None => S (List.length (products s))
          end
    | _ => upsertProductOk w = false /\ products (snd r) = products s
    end.
Proof.
  intros w s data. unfold saveProduct.
  destruct (upsertProductOk w); cbn [fst snd transactions selectedProduct
                                     isModalOpen products].
  - repeat split. destruct (selectedProduct s).
    + unfold replaceProduct. apply length_map.
    + rewrite length_app. simpl. lia.
  - repeat split.
Qed.

(** An edit stores what the form supplies as it is, a threshold of 0 and an
    empty text included (no default takes their place, unlike on a create),
    and takes every field the form leaves out from the product the dialog
    was opened on, not from the catalog.  This holds of each field: SKU,
    name, category, quantity, threshold, both prices, box number and
    description; the time of the last update is the clock's. *)
Theorem edit_stores_values_as_given :
  forall w s data sel current,
    selectedProduct s = Some sel ->
    findProduct (products s) (Product.id sel) = Some current ->
    PartialProduct.id data = None ->
    upsertProductOk w = true ->
    exists s' p',
      saveProduct w s data = (Committed, s') /\
      findProduct (products s') (Product.id sel) = Some p' /\
      Product.id p' = Product.id sel /\
      Product.sku p' = supplied (PartialProduct.sku data) (Product.sku sel) /\
      Product.name p' = supplied (PartialProduct.name data) (Product.name sel) /\
      Product.category p'
        = supplied (PartialProduct.category data) (Product.category sel) /\
      Product.quantity p'
        = supplied (PartialProduct.quantity data) (Product.quantity sel) /\
      Product.minThreshold p'
        = supplied (PartialProduct.minThreshold data) (Product.minThreshold sel) /\
      Product.purchasePrice p'
        = supplied (PartialProduct.purchasePrice data)
            (Product.purchasePrice sel) /\
      Product.sellingPrice p'
        = supplied (PartialProduct.sellingPrice data)
            (Product.sellingPrice sel) /\
      Product.boxNumber p'
        = supplied (PartialProduct.boxNumber data) (Product.boxNumber sel) /\
      Product.description p'
        = supplied (PartialProduct.description data) (Product.description sel) /\
      Product.lastUpdated p' = dateNow w 0.
Proof.
  intros w s data sel current Hsel Hf Hid Hok.
  exists {| products :=
              replaceProduct (Product.id sel) (mergeProduct w sel data)
                (products s);
            transactions := transactions s;
            stockActionType := stockActionType s;
            selectedProduct := None;
            isModalOpen := false |}, (mergeProduct w sel data).
  assert (Hmid : Product.id (mergeProduct w sel data) = Product.id sel).
  { cbn [mergeProduct Product.id]. now rewrite Hid. }
  split; [|split; [|split]].
  - unfold saveProduct. rewrite Hsel, Hok. reflexivity.
  - cbn [products]. eapply findProduct_replace; eassumption.
  - exact Hmid.
  - repeat split.
Qed.

(** The dialog was opened on 7 units; the catalog holds 10 by the time the
    form is saved with a threshold of 0: the product is stored with the
    threshold 0, an empty description and 7 units, and keeps its SKU and
    its prices. *)
Lemma edit_stores_values_as_given_witness :
  exists s' p',
    saveProduct sampleWorld staleEditState zeroThresholdForm = (Committed, s') /\
    findProduct (products s') "1" = Some p' /\
    Product.minThreshold p' = 0 /\
    Product.description p' = EmptyString /\
    Product.quantity p' = 7 /\
    Product.sku p' = "A" /\
    Product.purchasePrice p' = ofZ 7000.
Proof.
  destruct (edit_stores_values_as_given sampleWorld staleEditState
              zeroThresholdForm (sampleProduct "1" "A" 7 5 7000 9500)
              (sampleProduct "1" "A" 10 5 7000 9500)
              eq_refl eq_refl eq_refl eq_refl)
    as [s' [p' [H1 [H2 [_ [Hsku [_ [_ [Hq [Hm [Hp [_ [_ [Hd _]]]]]]]]]]]]]].
  exists s', p'. split; [exact H1|]. split; [exact H2|].
  split; [exact Hm|]. split; [exact Hd|]. split; [exact Hq|].
  split; [exact Hsku|exact Hp].
Defined.

(** ** The request for analysis, again *)

Lemma sliceLast_length {A} n (l : list A) :
  List.length (sliceLast n l) = Nat.min n (List.length l).
Proof. unfold sliceLast. rewrite length_skipn. lia. Qed.

Lemma sliceLast_suffix {A} n (l : list A) :
  l = firstn (List.length l - n) l ++ sliceLast n l.
Proof. unfold sliceLast. symmetry. apply firstn_skipn. Qed.

(** A request is built exactly when each of the last twenty transactions
    has a timestamp that [toISOString] accepts; older transactions do not
    matter.  It then names every product, and carries the last min(20, n)
    entries of the list it is given, in the order of that list; with twenty
    or fewer, all of them.  Otherwise the call throws and nothing is
    sent. *)
Theorem insight_request_shape :
  forall ps ts lang,
    match getInventoryInsights ps ts lang with
    | Some r =>
        map ProductSnapshot.name (inventoryData r) = map Product.name ps /\
        List.length (recentTransactions r) = Nat.min 20 (List.length ts) /\
        exists older sent,
          ts = older ++ sent /\
          List.length older = (List.length ts - 20)%nat /\
          recentTransactions r = map txSnapshot sent /\
          forallb (fun t => validTime (Transaction.timestamp t)) sent = true
    | None =>
        exists older sent t,
          ts = older ++ sent /\
          List.length older = (List.length ts - 20)%nat /\
          In t sent /\
          8640000000000000 < Z.abs (Transaction.timestamp t)
    end.
Proof.
  intros ps ts lang. unfold getInventoryInsights.
  assert (Hlen : List.length (firstn (List.length ts - 20) ts)
                 = (List.length ts - 20)%nat)
    by (rewrite length_firstn; lia).
  destruct (forallb _ (sliceLast 20 ts)) eqn:E.
  - cbn [inventoryData recentTransactions]. split; [|split].
    + rewrite map_map. reflexivity.
    + rewrite length_map. apply sliceLast_length.
    + exists (firstn (List.length ts - 20) ts), (sliceLast 20 ts).
      split; [apply sliceLast_suffix|]. split; [exact Hlen|].
      split; [reflexivity|exact E].
  - assert (Hex : existsb (fun t => negb (validTime (Transaction.timestamp t)))
                    (sliceLast 20 ts) = true).
    { clear Hlen. induction (sliceLast 20 ts) as [|x l IH]; [discriminate|].
      simpl in *. destruct (validTime (Transaction.timestamp x)); simpl in *;
        [now apply IH|reflexivity]. }
    apply existsb_exists in Hex. destruct Hex as [t [Hin Ht]].
    exists (firstn (List.length ts - 20) ts), (sliceLast 20 ts), t.
    split; [apply sliceLast_suffix|]. split; [exact Hlen|].
    split; [exact Hin|].
    unfold validTime in Ht. apply negb_true_iff, Z.leb_gt in Ht. exact Ht.
Qed.

Lemma sliceLast_snoc {A} n (l : list A) x :
  sliceLast (S n) (l ++ [x]) = sliceLast n l ++ [x].
Proof.
  unfold sliceLast. rewrite length_app. simpl List.length.
  replace (List.length l + 1 - S n)%nat with (List.length l - n)%nat by lia.
  rewrite skipn_app.
  replace (List.length l - n - List.length l)%nat with 0%nat by lia.
  reflexivity.
Qed.

(** In the variant that keeps its data in local storage a movement puts its
    transaction at the end of the log, and the next request ends with it:
    there the most recent transaction is always sent.  This needs the cue to
    be silent or to succeed (otherwise the handler stops before it updates
    anything), and timestamps that [toISOString] accepts for the clock and
    for the last nineteen of the earlier log (otherwise no request is
    built). *)
Theorem local_log_sends_newest :
  forall w s productId amount reason newBoxNumber product lang,
    findProduct (products s) productId = Some product ->
    playsChaChing (stockActionType s) amount = false \/ playChaChingOk w = true ->
    validTime (dateNow w 0) = true ->
    forallb (fun t => validTime (Transaction.timestamp t))
      (sliceLast 19 (transactions s)) = true ->
    exists s' tx r,
      LocalApp.processStockTransaction w s productId amount reason newBoxNumber
        = (LocalApp.Applied, s') /\
      transactions s' = transactions s ++ [tx] /\
      Transaction.quantity tx = amount /\
      Transaction.type tx = stockActionType s /\
      getInventoryInsights (products s') (transactions s') lang = Some r /\
      recentTransactions r
      = map txSnapshot (sliceLast 19 (transactions s)) ++ [txSnapshot tx].
Proof.
  intros w s productId amount reason box product lang Hf Hcue Hnow Hold.
  unfold LocalApp.processStockTransaction. rewrite Hf.
  assert (Hc : playsChaChing (stockActionType s) amount
               && negb (playChaChingOk w) = false).
  { destruct Hcue as [-> | ->]; [reflexivity|apply andb_false_r]. }
  rewrite Hc. eexists. eexists. eexists.
  split; [reflexivity|]. cbn [transactions products].
  split; [reflexivity|]. split; [reflexivity|]. split; [reflexivity|].
  unfold getInventoryInsights. rewrite sliceLast_snoc.
  rewrite forallb_app, Hold. cbn [forallb Transaction.timestamp].
  rewrite Hnow. cbn [andb]. split; [reflexivity|].
  cbn [recentTransactions]. rewrite map_app. reflexivity.
Qed.

Lemma local_log_sends_newest_witness :
  exists s' tx r,
    LocalApp.processStockTransaction sampleWorld (sampleState OUT) "1" 15
      "Sales" None = (LocalApp.Applied, s') /\
    transactions s' = transactions (sampleState OUT) ++ [tx] /\
    Transaction.quantity tx = 15 /\
    Transaction.type tx = OUT /\
    getInventoryInsights (products s') (transactions s') en = Some r /\
    recentTransactions r
    = map txSnapshot (sliceLast 19 (transactions (sampleState OUT)))
      ++ [txSnapshot tx].
Proof.
  apply (local_log_sends_newest sampleWorld (sampleState OUT) "1" 15 "Sales"
           None (sampleProduct "1" "A" 10 5 7000 9500) en).
  - reflexivity.
  - right. reflexivity.
  - reflexivity.
  - reflexivity.
Defined.

(** ** The order of the transaction log *)

Lemma insertDesc_In t l x : In x (insertDesc t l) <-> x = t \/ In x l.
Proof.
  induction l as [|y l IH]; simpl.
  - intuition.
  - destruct (Transaction.timestamp y <? Transaction.timestamp t); simpl.
    + intuition.
    + rewrite IH. intuition.
Qed.

Lemma insertDesc_sorted t l : newestFirst l -> newestFirst (insertDesc t l).
Proof.
  unfold newestFirst. intros H. induction H as [|y l Hl IH Hy]; simpl.
  - constructor; constructor.
  - destruct (Transaction.timestamp y <? Transaction.timestamp t) eqn:E.
    + apply Z.ltb_lt in E. constructor; [now constructor|].
      constructor; [lia|].
      rewrite Forall_forall in *. intros z Hz. specialize (Hy z Hz). lia.
    + apply Z.ltb_ge in E. constructor; [assumption|].
      rewrite Forall_forall in *. intros z Hz.
      apply insertDesc_In in Hz. destruct Hz as [->|Hz]; [lia|now apply Hy].
Qed.

Lemma insertDesc_perm t l : Permutation (t :: l) (insertDesc t l).
Proof.
  induction l as [|y l IH]; simpl; [reflexivity|].
  destruct (Transaction.timestamp y <? Transaction.timestamp t);
    [reflexivity|].
  rewrite perm_swap. now constructor.
Qed.

Lemma orderDesc_sorted rows : newestFirst (orderDesc rows).
Proof.
  induction rows as [|t rows IH]; simpl.
  - constructor.
  - now apply insertDesc_sorted.
Qed.

Lemma orderDesc_perm rows : Permutation rows (orderDesc rows).
Proof.
  induction rows as [|t rows IH]; simpl; [reflexivity|].
  rewrite <- insertDesc_perm. now constructor.
Qed.

Lemma newestFirst_split l1 l2 :
  newestFirst (l1 ++ l2) ->
  newestFirst l1 /\
  forall a b, In a l1 -> In b l2 ->
              Transaction.timestamp b <= Transaction.timestamp a.
Proof.
  unfold newestFirst. induction l1 as [|x l1 IH]; simpl; intros H.
  - split; [constructor|]. intros a b [].
  - inversion H as [|? ? Hs Hx]; subst. destruct (IH Hs) as [H1 H2].
    apply Forall_app in Hx. destruct Hx as [Hx1 Hx2].
    split; [now constructor|].
    intros a b [<-|Ha] Hb.
    + rewrite Forall_forall in Hx2. now apply Hx2.
    + now apply H2.
Qed.

Lemma fetchTransactions_sorted ok rows :
  newestFirst (fetchTransactions ok rows).
Proof.
  unfold fetchTransactions. destruct ok; [|constructor].
  pose proof (orderDesc_sorted rows) as Hs.
  rewrite <- (firstn_skipn 100 (orderDesc rows)) in Hs.
  now apply newestFirst_split in Hs.
Qed.

Lemma firstn_In {A} n (l : list A) x : In x (firstn n l) -> In x l.
Proof.
  intros H. rewrite <- (firstn_skipn n l). apply in_or_app. now left.
Qed.

Lemma fetchTransactions_In ok rows t :
  In t (fetchTransactions ok rows) -> In t rows.
Proof.
  unfold fetchTransactions. destruct ok; [|intros []].
  intros H. apply firstn_In in H.
  eapply Permutation_in; [|exact H].
  symmetry. apply orderDesc_perm.
Qed.

(** [fetchTransactions] hands over at most 100 stored rows, newest first,
    and the rows it leaves out are no more recent than any row it hands
    over; when the query fails it hands over nothing. *)
Theorem fetchTransactions_newest_hundred :
  forall rows,
    fetchTransactions false rows = [] /\
    newestFirst (fetchTransactions true rows) /\
    List.length (fetchTransactions true rows) = Nat.min 100 (List.length rows) /\
    exists dropped,
      Permutation rows (fetchTransactions true rows ++ dropped) /\
      forall a b, In a (fetchTransactions true rows) -> In b dropped ->
                  Transaction.timestamp b <= Transaction.timestamp a.
Proof.
  intros rows. unfold fetchTransactions.
  pose proof (orderDesc_sorted rows) as Hs.
  rewrite <- (firstn_skipn 100 (orderDesc rows)) in Hs.
  apply newestFirst_split in Hs. destruct Hs as [H1 H2].
  split; [reflexivity|]. split; [exact H1|]. split.
  - rewrite length_firstn.
    now rewrite <- (Permutation_length (orderDesc_perm rows)).
  - exists (skipn 100 (orderDesc rows)). split; [|exact H2].
    rewrite firstn_skipn. apply orderDesc_perm.
Qed.

(** A committed movement keeps the log ordered newest first, provided the
    clock it reads is not behind the timestamps already in the log; a
    movement that does not commit leaves the order as it is. *)
Theorem log_stays_newest_first :
  forall w s productId amount reason newBoxNumber,
    newestFirst (transactions s) ->
    (forall t, In t (transactions s) -> Transaction.timestamp t <= dateNow w 1) ->
    newestFirst
      (transactions (snd (processStockTransaction w s productId amount reason
                            newBoxNumber))).
Proof.
  intros w s productId amount reason box Hs Hclock.
  unfold processStockTransaction.
  destruct (findProduct (products s) productId) as [p|]; [|assumption].
  destruct (upsertProductOk w && logTransactionOk w); cbn [snd transactions];
    [|assumption].
  unfold newestFirst. constructor; [assumption|].
  rewrite Forall_forall. intros x Hx. simpl. now apply Hclock.
Qed.

Lemma log_stays_newest_first_witness :
  newestFirst
    (transactions (snd (processStockTransaction sampleWorld
       {| products := sampleCatalog;
          transactions := fetchTransactions true sampleRows;
          stockActionType := OUT;
          selectedProduct := None;
          isModalOpen := true |}
       "1" 3 "Sales" None))).
Proof.
  apply (log_stays_newest_first sampleWorld
           {| products := sampleCatalog;
              transactions := fetchTransactions true sampleRows;
              stockActionType := OUT;
              selectedProduct := None;
              isModalOpen := true |}
           "1" 3 "Sales" None).
  - cbn [transactions]. apply fetchTransactions_sorted.
  - cbn [transactions]. intros t H.
    apply fetchTransactions_In in H. unfold sampleRows in H.
    apply in_map_iff in H. destruct H as [k [<- Hk]].
    apply in_seq in Hk. cbn [sampleTransaction Transaction.timestamp].
    cbn [sampleWorld dateNow]. lia.
Defined.

(** ** CSV files, again *)

Lemma export_lines ps :
  ps <> [] -> Forall readsBack ps ->
  exists text,
    exportToCSV ps = Some text /\
    tl (split newline text) = map exportRow ps.
Proof.
  intros Hne Hps. destruct ps as [|p ps]; [congruence|].
  eexists. split; [reflexivity|].
  rewrite split_join; [reflexivity|].
  constructor; [reflexivity|].
  apply Forall_map. revert Hps. apply Forall_impl.
  intros q Hq. now apply exportRow_one_line.
Qed.

Lemma findBySku_unique ps p :
  NoDup (map Product.sku ps) -> In p ps ->
  findBySku ps (Product.sku p) = Some p.
Proof.
  unfold findBySku. induction ps as [|x ps IH]; intros Hnd Hin; [destruct Hin|].
  simpl in Hnd. inversion Hnd as [|? ? Hnotin Hnd']; subst. simpl.
  destruct (String.eqb (Product.sku x) (Product.sku p)) eqn:E.
  - apply String.eqb_eq in E. destruct Hin as [->|Hin]; [reflexivity|].
    exfalso. apply Hnotin. rewrite E. now apply in_map.
  - destruct Hin as [->|Hin]; [now rewrite String.eqb_refl in E|].
    now apply IH.
Qed.

Lemma importLines_exportRows_ids w ps n qs :
  Forall readsBack qs ->
  NoDup (map Product.sku ps) ->
  incl qs ps ->
  map Product.id (importLines w ps n (map exportRow qs)) = map Product.id qs.
Proof.
  intros Hrb Hnd. revert n. induction Hrb as [|q qs Hq Hqs IH]; intros n Hincl.
  - reflexivity.
  - cbn [map importLines]. rewrite (exportRow_kept q Hq). cbn [map].
    rewrite IH by (intros x Hx; apply Hincl; now right).
    f_equal. destruct (rowValues_exportRow q Hq) as [rest Hv].
    cbn [importRow Product.id]. rewrite Hv. cbn [nth].
    rewrite (findBySku_unique ps q Hnd); [reflexivity|].
    apply Hincl. now left.
Qed.

(** Importing the export of a catalog against that same catalog brings
    every product back under its own id, with its SKU, name, category,
    quantity, threshold and prices, provided the SKUs of the catalog are
    unique (and its texts and numbers are ones the CSV code reads back). *)
Theorem reimport_keeps_ids :
  forall w ps,
    ps <> [] ->
    Forall readsBack ps ->
    NoDup (map Product.sku ps) ->
    exists text,
      exportToCSV ps = Some text /\
      map Product.id (parseCSV w text ps) = map Product.id ps /\
      map coreFields (parseCSV w text ps) = map coreFields ps.
Proof.
  intros w ps Hne Hps Hnd.
  destruct (export_lines ps Hne Hps) as [text [Hexp Hlines]].
  exists text. split; [exact Hexp|]. unfold parseCSV. rewrite Hlines. split.
  - apply importLines_exportRows_ids; [assumption|assumption|].
    intros x Hx. exact Hx.
  - now apply importLines_exportRows.
Qed.

Lemma reimport_keeps_ids_witness :
  exists text,
    exportToCSV [sampleProduct "1" "A" 10 5 7000 9500; monitorProduct]
      = Some text /\
    map Product.id
      (parseCSV sampleCsvWorld text
         [sampleProduct "1" "A" 10 5 7000 9500; monitorProduct])
      = ["1"; "3"] /\
    map coreFields
      (parseCSV sampleCsvWorld text
         [sampleProduct "1" "A" 10 5 7000 9500; monitorProduct])
      = map coreFields [sampleProduct "1" "A" 10 5 7000 9500; monitorProduct].
Proof.
  apply (reimport_keeps_ids sampleCsvWorld
           [sampleProduct "1" "A" 10 5 7000 9500; monitorProduct]).
  - discriminate.
  - repeat constructor; try reflexivity; try discriminate;
      vm_compute; right; discriminate.
  - repeat constructor; simpl; intuition discriminate.
Defined.

Lemma mapLast_map {A B} (f : A -> B) (g : A -> A) l :
  (forall x, f (g x) = f x) -> map f (mapLast g l) = map f l.
Proof.
  intros H. induction l as [|x l IH]; [reflexivity|].
  destruct l as [|y l]; simpl in *; [now rewrite H|]. now rewrite IH.
Qed.

Lemma split_snoc sep c s :
  Ascii.eqb c sep = false ->
  split sep (s ++ String c EmptyString) =
    mapLast (fun v => (v ++ String c EmptyString)%string) (split sep s).
Proof.
  intros Hc. induction s as [|x s IH]; simpl.
  - now rewrite Hc.
  - rewrite IH. pose proof (split_not_nil sep s) as Hne.
    destruct (Ascii.eqb x sep).
    + destruct (split sep s); [congruence|reflexivity].
    + destruct (split sep s) as [|h [|h' t]]; [congruence| |]; reflexivity.
Qed.

Lemma trimEnd_space s c :
  isWhiteSpace c = true -> trimEnd (s ++ String c EmptyString) = trimEnd s.
Proof.
  intros Hc. induction s as [|x s IH]; simpl.
  - now rewrite Hc.
  - now rewrite IH.
Qed.

Lemma trim_space s c :
  isWhiteSpace c = true -> trim (s ++ String c EmptyString) = trim s.
Proof.
  intros Hc. unfold trim. induction s as [|x s IH]; simpl.
  - now rewrite Hc.
  - destruct (isWhiteSpace x); [exact IH|].
    change (String x (s ++ String c EmptyString))
      with (String x s ++ String c EmptyString)%string.
    now apply trimEnd_space.
Qed.

Lemma rowValues_cr line :
  rowValues (line ++ String carriageReturn EmptyString) = rowValues line.
Proof.
  unfold rowValues. rewrite split_snoc by reflexivity.
  apply mapLast_map. intros v. unfold cleanValue.
  now rewrite trim_space.
Qed.

Lemma importLines_crlf w existing n ls :
  importLines w existing n (crlfLines ls) = importLines w existing n ls.
Proof.
  revert n. induction ls as [|l ls IH]; intros n; [reflexivity|].
  destruct ls as [|l' ls]; [reflexivity|].
  change (crlfLines (l :: l' :: ls))
    with ((l ++ String carriageReturn EmptyString)%string
            :: crlfLines (l' :: ls)).
  cbn [importLines].
  assert (Hs : skipsLine (l ++ String carriageReturn EmptyString) = skipsLine l).
  { unfold skipsLine. now rewrite trim_space, rowValues_cr. }
  assert (Hr : importRow w existing n (l ++ String carriageReturn EmptyString)
               = importRow w existing n l).
  { unfold importRow. now rewrite rowValues_cr. }
  rewrite Hs, Hr, !IH. reflexivity.
Qed.

Lemma split_join_crlf l ls :
  Forall (fun x => hasChar newline x = false) (l :: ls) ->
  split newline (join crlf (l :: ls)) = crlfLines (l :: ls).
Proof.
  revert l. induction ls as [|y ls IH]; intros l H.
  - inversion H; subst. simpl. now apply split_plain.
  - inversion H as [|? ? Hl Hrest]; subst.
    change (join crlf (l :: y :: ls))
      with (l ++ String carriageReturn (String newline (join crlf (y :: ls))))%string.
    replace (l ++ String carriageReturn (String newline (join crlf (y :: ls))))%string
      with ((l ++ String carriageReturn EmptyString)
              ++ String newline (join crlf (y :: ls)))%string
      by (now rewrite append_assoc).
    rewrite split_first_line.
    + rewrite IH by assumption. reflexivity.
    + rewrite hasChar_app, Hl. reflexivity.
Qed.

(** A file whose lines end in CR LF is imported like the same file with
    bare LF line ends. *)
Theorem import_accepts_crlf :
  forall w existing ls,
    Forall (fun x => hasChar newline x = false) ls ->
    parseCSV w (join crlf ls) existing =
    parseCSV w (join (String newline EmptyString) ls) existing.
Proof.
  intros w existing ls H. destruct ls as [|l ls]; [reflexivity|].
  unfold parseCSV. rewrite split_join_crlf, split_join by assumption.
  destruct ls as [|l' ls]; [reflexivity|].
  change (tl (crlfLines (l :: l' :: ls))) with (crlfLines (l' :: ls)).
  cbn [tl]. apply importLines_crlf.
Qed.

Lemma import_accepts_crlf_witness :
  parseCSV sampleCsvWorld
    (join crlf ["SKU,Name"; "A,Widget,Tools,12,2,1.5,3"; "Z,Short,Tools,1,2"])
    sampleCatalog =
  parseCSV sampleCsvWorld
    (lines ["SKU,Name"; "A,Widget,Tools,12,2,1.5,3"; "Z,Short,Tools,1,2"])
    sampleCatalog.
Proof.
  apply (import_accepts_crlf sampleCsvWorld sampleCatalog
           ["SKU,Name"; "A,Widget,Tools,12,2,1.5,3"; "Z,Short,Tools,1,2"]).
  repeat constructor.
Defined.

Lemma importRow_novel_id w existing n line :
  isNovel existing (importRow w existing n line) = true ->
  Product.id (importRow w existing n line) = randomUUID w n.
Proof.
  unfold isNovel. cbn [importRow Product.sku Product.id].
  destruct (findBySku existing (nth 0 (rowValues line) EmptyString));
    [discriminate|reflexivity].
Qed.

Lemma importLines_novel_ids w existing n ls r :
  In r (importLines w existing n ls) ->
  isNovel existing r = true ->
  exists k, (n <= k)%nat /\ Product.id r = randomUUID w k.
Proof.
  revert n. induction ls as [|l ls IH]; intros n Hin Hnov; [destruct Hin|].
  simpl in Hin. destruct (skipsLine l).
  - now apply IH.
  - destruct Hin as [<-|Hin].
    + exists n. split; [lia|]. now apply importRow_novel_id.
    + destruct (IH (S n) Hin Hnov) as [k [Hk Hid]].
      exists k. split; [lia|assumption].
Qed.

(** The records that an import creates (rows whose SKU no existing product
    has) get ids that differ from one another, two rows with the same new
    SKU included, as long as [crypto.randomUUID()] does not repeat itself. *)
Theorem import_new_ids_distinct :
  forall w text existing,
    (forall i j, randomUUID w i = randomUUID w j -> i = j) ->
    NoDup (map Product.id
             (filter (isNovel existing) (parseCSV w text existing))).
Proof.
  intros w text existing Hinj. unfold parseCSV.
  generalize (tl (split newline text)) as ls. generalize 0%nat as n.
  intros n ls. revert n. induction ls as [|l ls IH]; intros n.
  - constructor.
  - cbn [importLines]. destruct (skipsLine l); [apply IH|].
    cbn [filter].
    destruct (isNovel existing (importRow w existing n l)) eqn:E; [|apply IH].
    cbn [map]. constructor; [|apply IH].
    intros Hin. apply in_map_iff in Hin. destruct Hin as [r [Hid Hr]].
    apply filter_In in Hr. destruct Hr as [Hr Hnov].
    destruct (importLines_novel_ids w existing (S n) ls r Hr Hnov)
      as [k [Hk Hrk]].
    rewrite (importRow_novel_id w existing n l E), Hrk in Hid.
    apply Hinj in Hid. lia.
Qed.

Lemma zeros_inj i j : zeros i = zeros j -> i = j.
Proof.
  revert j. induction i as [|i IH]; intros [|j] H; try discriminate;
    [reflexivity|].
  simpl in H. inversion H. f_equal. now apply IH.
Qed.

(** Two rows with the same new SKU become two products. *)
Lemma import_new_ids_distinct_witness :
  NoDup (map Product.id
    (filter (isNovel sampleCatalog)
       (parseCSV countingCsvWorld
          (lines ["SKU,Name"; "N1,Nut,Parts,1,1,1,1"; "N1,Nut,Parts,2,1,1,1"])
          sampleCatalog))) /\
  map Product.sku
    (parseCSV countingCsvWorld
       (lines ["SKU,Name"; "N1,Nut,Parts,1,1,1,1"; "N1,Nut,Parts,2,1,1,1"])
       sampleCatalog) = ["N1"; "N1"].
Proof.
  split; [|reflexivity].
  apply (import_new_ids_distinct countingCsvWorld).
  cbn [randomUUID countingCsvWorld]. intros i j H.
  inversion H. now apply zeros_inj.
Defined.

(** An import builds at most one record for each line after the first; a
    text without a line break (a header alone, or nothing) gives none. *)
Theorem import_bounded_by_lines :
  forall w text existing,
    (List.length (parseCSV w text existing)
       <= List.length (split newline text) - 1)%nat /\
    (hasChar newline text = false -> parseCSV w text existing = []).
Proof.
  intros w text existing. unfold parseCSV. split.
  - rewrite importLines_length. unfold keptLines.
    pose proof (filter_length_le (fun l => negb (skipsLine l))
                  (tl (split newline text))) as H.
    destruct (split newline text); simpl in *; lia.
  - intros H. now rewrite (split_plain newline text H).
Qed.

Lemma import_bounded_by_lines_witness :
  parseCSV sampleCsvWorld
    "SKU,Name,Category,Quantity,Min Threshold,Purchase Price,Selling Price"
    sampleCatalog = [].
Proof.
  apply (import_bounded_by_lines sampleCsvWorld
    "SKU,Name,Category,Quantity,Min Threshold,Purchase Price,Selling Price"
    sampleCatalog).
  reflexivity.
Defined.

(** ** Searching the catalog *)

Lemma lowerChar_idempotent c : lowerChar (lowerChar c) = lowerChar c.
Proof. destruct c as [[] [] [] [] [] [] [] []]; reflexivity. Qed.

Lemma toLowerCase_idempotent s : toLowerCase (toLowerCase s) = toLowerCase s.
Proof.
  induction s as [|c s IH]; simpl; [reflexivity|].
  now rewrite lowerChar_idempotent, IH.
Qed.

Lemma includes_empty s : includes s EmptyString = true.
Proof. destruct s; reflexivity. Qed.

(** The finder lists at most five products, each of them a product of the
    catalog whose name, SKU or category holds the query (case ignored);
    when it lists fewer than five it has left out no product that matches;
    and for an empty query it lists nothing. *)
Theorem finder_results :
  forall query ps,
    let r := filteredFinderProducts query ps in
    (List.length r <= 5)%nat /\
    (forall p, In p r ->
       In p ps /\ finderMatches (toLowerCase query) p = true) /\
    ((List.length r < 5)%nat -> query <> EmptyString ->
     forall p, In p ps -> finderMatches (toLowerCase query) p = true ->
               In p r) /\
    filteredFinderProducts EmptyString ps = [] /\
    filteredFinderProducts (toLowerCase query) ps = r.
Proof.
  intros query ps. cbn zeta.
  assert (Hq : forall q, q <> EmptyString ->
             filteredFinderProducts q ps =
             firstn 5 (filter (finderMatches (toLowerCase q)) ps)).
  { intros q Hne. destruct q; [congruence|reflexivity]. }
  split; [|split; [|split; [|split]]].
  - destruct query; [simpl; lia|]. rewrite Hq by discriminate.
    apply firstn_le_length.
  - intros p Hp. destruct query as [|c q]; [destruct Hp|].
    rewrite Hq in Hp by discriminate.
    apply firstn_In in Hp. now apply filter_In in Hp.
  - intros Hlen Hne p Hp Hm. rewrite Hq in * by assumption.
    assert (Hall : firstn 5 (filter (finderMatches (toLowerCase query)) ps)
                   = filter (finderMatches (toLowerCase query)) ps).
    { apply firstn_all2. rewrite length_firstn in Hlen. lia. }
    rewrite Hall. apply filter_In. now split.
  - reflexivity.
  - destruct query as [|c q]; [reflexivity|].
    rewrite (Hq (String c q)) by discriminate.
    rewrite (Hq (toLowerCase (String c q))) by discriminate.
    now rewrite toLowerCase_idempotent.
Qed.

(** The query ITEM A, in capitals, finds the first sample product, whose
    name is Item A, and no other. *)
Lemma finder_results_witness :
  In (sampleProduct "1" "A" 10 5 7000 9500)
     (filteredFinderProducts "ITEM A" sampleCatalog) /\
  filteredFinderProducts "ITEM A" sampleCatalog
    = [sampleProduct "1" "A" 10 5 7000 9500].
Proof.
  split; [|reflexivity].
  destruct (finder_results "ITEM A" sampleCatalog) as [_ [_ [H _]]].
  apply H.
  - simpl. lia.
  - discriminate.
  - simpl. left. reflexivity.
  - reflexivity.
Defined.

(** The inventory table shows every product for an empty search term (where
    the finder shows none), never shows anything that is not in the catalog,
    and does not distinguish capitals from small letters in the term. *)
Theorem table_search :
  forall term ps,
    InventoryTable.filtered EmptyString ps = ps /\
    incl (InventoryTable.filtered term ps) ps /\
    InventoryTable.filtered (toLowerCase term) ps
      = InventoryTable.filtered term ps.
Proof.
  intros term ps. split; [|split].
  - unfold InventoryTable.filtered. cbn [toLowerCase].
    induction ps as [|p ps IH]; [reflexivity|].
    cbn [filter]. rewrite includes_empty. cbn [orb]. now rewrite IH.
  - intros p Hp. unfold InventoryTable.filtered in Hp.
    now apply filter_In in Hp.
  - unfold InventoryTable.filtered. now rewrite toLowerCase_idempotent.
Qed.

(** ** The two variants of App.tsx *)

Lemma updateProducts_quantities w n productId qty box ps up :
  Product.id up = productId ->
  Product.quantity up = qty ->
  map (fun p => (Product.id p, Product.quantity p))
      (LocalApp.updateProducts w n productId qty box ps)
  = map (fun p => (Product.id p, Product.quantity p))
        (replaceProduct productId up ps).
Proof.
  intros Hid Hq. revert n. unfold replaceProduct.
  induction ps as [|p ps IH]; intros n; [reflexivity|].
  cbn [LocalApp.updateProducts map].
  destruct (String.eqb (Product.id p) productId) eqn:E.
  - cbn [map Product.id Product.quantity]. rewrite IH, Hid, Hq.
    apply String.eqb_eq in E. now rewrite E.
  - cbn [map]. now rewrite IH.
Qed.

(** The variant that writes to the remote store and the variant that keeps
    its data in local storage compute the same quantities, unless the sound
    cue throws.  When the remote variant commits and the cue is silent or
    succeeds, both hold the same ids with the same quantities, in the same
    order, and have logged the same amount, direction and reason (the first
    in front of its log, the second at the end).  When the cue throws on a
    stock-out, the remote variant, which guards the cue, commits all the
    same, and the local variant, which does not, leaves its state as it
    was. *)
Theorem variants_agree_unless_cue_throws :
  forall w s productId amount reason newBoxNumber product,
    findProduct (products s) productId = Some product ->
    upsertProductOk w = true ->
    logTransactionOk w = true ->
    let remote := processStockTransaction w s productId amount reason
                    newBoxNumber in
    let local := LocalApp.processStockTransaction w s productId amount
                   reason newBoxNumber in
    fst remote = Committed /\
    (exists tx, transactions (snd remote) = tx :: transactions s) /\
    if playsChaChing (stockActionType s) amount && negb (playChaChingOk w)
    then local = (LocalApp.SoundFailed, s)
    else
      fst local = LocalApp.Applied /\
      map (fun p => (Product.id p, Product.quantity p)) (products (snd local))
      = map (fun p => (Product.id p, Product.quantity p))
          (products (snd remote)) /\
      exists tx tx',
        transactions (snd remote) = tx :: transactions s /\
        transactions (snd local) = transactions s ++ [tx'] /\
        Transaction.quantity tx = Transaction.quantity tx' /\
        Transaction.type tx = Transaction.type tx' /\
        Transaction.reason tx = Transaction.reason tx'.
Proof.
  intros w s productId amount reason box product Hf Hu Hl.
  rewrite (processStockTransaction_committed w s productId amount reason box
             product Hf Hu Hl).
  unfold LocalApp.processStockTransaction. rewrite Hf.
  cbn [fst snd products transactions].
  split; [reflexivity|]. split; [eexists; reflexivity|].
  destruct (playsChaChing (stockActionType s) amount
            && negb (playChaChingOk w)); [reflexivity|].
  cbn [fst snd products transactions]. split; [reflexivity|]. split.
  - apply updateProducts_quantities; [|reflexivity].
    simpl. eapply findProduct_id. eassumption.
  - eexists. eexists. repeat split.
Qed.

(** A stock-out of 15 from 10 units: with a working cue both variants store
    0; without one the local variant keeps 10 and logs nothing. *)
Lemma variants_agree_unless_cue_throws_witness :
  map (fun p => (Product.id p, Product.quantity p))
    (products (snd (LocalApp.processStockTransaction sampleWorld
                      (sampleState OUT) "1" 15 "Sales" None)))
  = [("1", 0); ("2", 0)] /\
  map (fun p => (Product.id p, Product.quantity p))
    (products (snd (processStockTransaction sampleWorld
                      (sampleState OUT) "1" 15 "Sales" None)))
  = [("1", 0); ("2", 0)] /\
  LocalApp.processStockTransaction noAudioWorld (sampleState OUT) "1" 15
    "Sales" None = (LocalApp.SoundFailed, sampleState OUT) /\
  fst (processStockTransaction noAudioWorld (sampleState OUT) "1" 15
         "Sales" None) = Committed.
Proof.
  destruct (variants_agree_unless_cue_throws sampleWorld (sampleState OUT) "1"
              15 "Sales" None (sampleProduct "1" "A" 10 5 7000 9500)
              eq_refl eq_refl eq_refl) as [_ [_ [_ [H _]]]].
  destruct (variants_agree_unless_cue_throws noAudioWorld (sampleState OUT) "1"
              15 "Sales" None (sampleProduct "1" "A" 10 5 7000 9500)
              eq_refl eq_refl eq_refl) as [Hc [_ Hl]].
  split; [|split; [reflexivity|split; [exact Hl|exact Hc]]].
  rewrite H. reflexivity.
Defined.

Lemma editProducts_find w n id data ps current :
  findProduct ps id = Some current ->
  PartialProduct.id data = None ->
  findProduct (LocalApp.editProducts w n id data ps) id
  = Some (LocalApp.mergeOnto (dateNow w n) current data).
Proof.
  unfold findProduct. intros Hf Hid.
  induction ps as [|p ps IH]; simpl in *; [discriminate|].
  destruct (String.eqb (Product.id p) id) eqn:E.
  - inversion Hf; subst. simpl. rewrite Hid, E. reflexivity.
  - simpl. rewrite E. now apply IH.
Qed.

(** In the local-storage variant an edit takes the fields that the form
    leaves out from the product that the catalog holds at that moment (the
    remote variant takes them from the product the dialog was opened on). *)
Theorem local_edit_keeps_current_fields :
  forall w s data sel current,
    selectedProduct s = Some sel ->
    findProduct (products s) (Product.id sel) = Some current ->
    PartialProduct.id data = None ->
    exists p',
      findProduct (products (snd (LocalApp.saveProduct w s data)))
        (Product.id sel) = Some p' /\
      (PartialProduct.quantity data = None ->
       Product.quantity p' = Product.quantity current) /\
      (PartialProduct.sku data = None -> Product.sku p' = Product.sku current) /\
      (forall v, PartialProduct.minThreshold data = Some v ->
                 Product.minThreshold p' = v) /\
      transactions (snd (LocalApp.saveProduct w s data)) = transactions s.
Proof.
  intros w s data sel current Hsel Hf Hid.
  exists (LocalApp.mergeOnto (dateNow w 0) current data).
  unfold LocalApp.saveProduct. cbn [snd products transactions].
  rewrite Hsel. split; [now apply editProducts_find|].
  cbn [LocalApp.mergeOnto Product.quantity Product.sku Product.minThreshold].
  repeat split; intros;
    repeat match goal with H : _ = _ |- _ => rewrite H end; reflexivity.
Qed.

(** The same stale dialog as before: here the 10 units of the catalog are
    kept. *)
Lemma local_edit_keeps_current_fields_witness :
  exists p',
    findProduct
      (products (snd (LocalApp.saveProduct sampleWorld staleEditState
                        zeroThresholdForm))) "1" = Some p' /\
    Product.quantity p' = 10 /\
    Product.minThreshold p' = 0.
Proof.
  destruct (local_edit_keeps_current_fields sampleWorld staleEditState
              zeroThresholdForm (sampleProduct "1" "A" 7 5 7000 9500)
              (sampleProduct "1" "A" 10 5 7000 9500) eq_refl eq_refl eq_refl)
    as [p' [H1 [H2 [_ [H4 _]]]]].
  exists p'. split; [exact H1|]. split; [apply H2; reflexivity|].
  apply H4. reflexivity.
Defined.

(** ** Descriptions in CSV files *)

Lemma undoubleQuotes_doubleQuotes d : undoubleQuotes (doubleQuotes d) = d.
Proof.
  induction d as [|c r IH]; [reflexivity|].
  cbn [doubleQuotes]. destruct (Ascii.eqb c quote) eqn:E.
  - rewrite undoubleQuotes_cons, Ascii.eqb_refl. cbn [andb].
    apply Ascii.eqb_eq in E. now rewrite IH, E.
  - destruct (doubleQuotes r) as [|c2 r2] eqn:D.
    + rewrite <- IH. reflexivity.
    + rewrite undoubleQuotes_cons, E. cbn [andb]. now rewrite IH.
Qed.

Lemma cleanValue_quoted_any s : cleanValue (quoted s) = undoubleQuotes s.
Proof.
  unfold cleanValue, quoted, trim.
  cbn [append trimStart]. change (isWhiteSpace quote) with false. cbv iota.
  change (String quote (s ++ String quote EmptyString))
    with ((String quote s) ++ String quote EmptyString)%string.
  rewrite trimEnd_snoc by reflexivity.
  cbn [append stripQuotes]. rewrite Ascii.eqb_refl.
  now rewrite stripTrailingQuote_snoc.
Qed.

Lemma rowValues_exportRow_whole p :
  readsBackWhole p ->
  rowValues (exportRow p) =
    [ Product.sku p; Product.name p; Product.category p;
      numberToString (ofZ (Product.quantity p));
      numberToString (ofZ (Product.minThreshold p));
      numberToString (Product.purchasePrice p);
      numberToString (Product.sellingPrice p);
      Product.boxNumber p; Product.description p ].
Proof.
  intros [Hp [Hb1 [Hb2 Hd]]].
  destruct Hp as [[Hs1 [_ Hs3]] [[Hn1 [_ Hn3]] [[Hc1 [_ Hc3]] _]]].
  unfold rowValues, exportRow.
  do 8 (rewrite split_join_head;
        [|rewrite ?hasChar_quoted by reflexivity;
          first [assumption | apply plain_no_comma, numberToString_plain]]).
  cbn [join]. rewrite split_plain
    by (rewrite hasChar_quoted, hasChar_doubleQuotes by reflexivity; exact Hd).
  cbn [map].
  rewrite (cleanValue_quoted_any (doubleQuotes _)), undoubleQuotes_doubleQuotes.
  rewrite !cleanValue_quoted by assumption.
  rewrite !cleanValue_plain by apply numberToString_plain.
  reflexivity.
Qed.

Lemma importRow_exportRow_whole w existing n p :
  readsBackWhole p ->
  contentFields (importRow w existing n (exportRow p)) = contentFields p.
Proof.
  intros Hw. assert (Hv := rowValues_exportRow_whole p Hw).
  destruct Hw as [Hp _].
  destruct Hp as [_ [_ [_ [_ [_ [Hq [Hm [[Hpn Hpx] [Hsn Hsx]]]]]]]]].
  unfold contentFields, importRow. rewrite Hv.
  cbn [nth Product.sku Product.name Product.category Product.quantity
       Product.minThreshold Product.purchasePrice Product.sellingPrice
       Product.boxNumber Product.description].
  rewrite !parseInt_numberToString by assumption.
  rewrite !parseFloat_numberToString by assumption.
  reflexivity.
Qed.

Lemma importLines_exportRows_whole w existing n ps :
  Forall readsBackWhole ps ->
  map contentFields (importLines w existing n (map exportRow ps))
    = map contentFields ps.
Proof.
  intros H. revert n. induction H as [|p ps Hp Hps IH]; intros n.
  - reflexivity.
  - cbn [map importLines]. rewrite (exportRow_kept p (proj1 Hp)).
    cbn [map]. now rewrite (importRow_exportRow_whole _ _ _ p Hp), IH.
Qed.

(** The export doubles the quotes of a description and the import undoubles
    them: a description comes back as it was, whatever quotes it holds, as
    long as it has no comma and no line break.  With a box number that has
    no comma and no two quotes in a row, and the other fields as in the
    round trip above, every field but the id and the time of the last
    update comes back. *)
Theorem csv_round_trip_whole_record :
  forall w existing ps,
    ps <> [] ->
    Forall readsBackWhole ps ->
    exists text,
      exportToCSV ps = Some text /\
      map contentFields (parseCSV w text existing) = map contentFields ps.
Proof.
  intros w existing ps Hne Hps.
  destruct ps as [|p ps]; [congruence|].
  eexists. split; [reflexivity|].
  unfold parseCSV. rewrite split_join.
  - cbn [tl]. now apply importLines_exportRows_whole.
  - constructor; [reflexivity|].
    apply Forall_map. revert Hps. apply Forall_impl.
    intros q Hq. apply exportRow_one_line. exact (proj1 Hq).
Qed.

(** A description that puts a size between quotes comes back unchanged. *)
Lemma csv_round_trip_whole_record_witness :
  exists text,
    exportToCSV [quotedDescriptionProduct] = Some text /\
    map contentFields (parseCSV sampleCsvWorld text [])
    = map contentFields [quotedDescriptionProduct].
Proof.
  apply (csv_round_trip_whole_record sampleCsvWorld []
           [quotedDescriptionProduct]).
  - discriminate.
  - repeat constructor; try reflexivity; try discriminate;
      vm_compute; right; discriminate.
Defined.
